(** * socket.js: the frame codec, the handshake and the two session state
      machines, embedded from [src/server/socket.js] and
      [src/client/socket.js].

    The platform the code runs on (JavaScript values and strings, the
    32-bit integer operators, [Buffer], [JSON], [crypto]) is modelled in
    the first modules; the server and the client follow the source
    function by function. *)

From Stdlib Require Import ZArith List Bool Lia String Ascii DecimalString.
From stdpp Require Import gmap.
Import ListNotations.

Local Open Scope Z_scope.
Set Warnings "-register-all".

(* ================================================================== *)
(** ** JavaScript values *)
(* ================================================================== *)

Module JS.

(** A JavaScript string is a sequence of UTF-16 code units, each in
    [0, 65536). *)
Abbreviation jsstring := (list Z).

(** The code units of an ASCII literal. *)
Definition js (s : string) : jsstring :=
  map (fun a => Z.of_N (N_of_ascii a)) (list_ascii_of_string s).

(** Application callbacks are external code; a function value is known
    by its identity only. *)
Definition fn : Type := nat.

(** The values the library handles.  [VNumber] carries the integer-valued
    numbers (the library itself never computes with a payload number);
    the properties of an object are listed in enumeration order. *)
Inductive value : Type :=
| VUndefined
| VNull
| VBool (b : bool)
| VNumber (n : Z)
| VString (s : jsstring)
| VArray (elems : list value)
| VObject (props : list (jsstring * value))
| VFunction (f : fn).

(** What a statement can do besides returning: throw.  The messages of
    the strings the library throws are kept. *)
Inductive exn : Type :=
| TypeError
| RangeError
| SyntaxError
| Thrown (message : string).

(** [Timeout] is not JavaScript: it is what a loop of the model answers
    when the fuel it was given is used up (see [Returning.on_data_returns]). *)
Inductive completion (A : Type) : Type :=
| Normal (a : A)
| Throw (e : exn)
| Timeout.
Arguments Normal {A} a.
Arguments Throw {A} e.
Arguments Timeout {A}.

(** [typeof x === 'string'] and [typeof x === 'function']. *)
Definition is_string (x : value) : bool :=
  match x with VString _ => true | _ => false end.

Definition is_function (x : value) : bool :=
  match x with VFunction _ => true | _ => false end.

(** [x === s] for a string literal [s]. *)
Definition strict_eq_string (x : value) (s : jsstring) : bool :=
  match x with
  | VString t => bool_decide (t = s)
  | _ => false
  end.

(** ToInt32 and ToUint32 of an integer-valued number. *)
Definition ToInt32 (x : Z) : Z := (x + 2 ^ 31) mod 2 ^ 32 - 2 ^ 31.
Definition ToUint32 (x : Z) : Z := x mod 2 ^ 32.

(** [x << n]: both operands go through ToInt32/ToUint32 and the shift
    count is taken modulo 32. *)
Definition shl (x n : Z) : Z := ToInt32 (Z.shiftl (ToInt32 x) (ToUint32 n mod 32)).

(** [x >> n], the sign-propagating shift. *)
Definition shr (x n : Z) : Z := Z.shiftr (ToInt32 x) (ToUint32 n mod 32).

(** [x & y] and [x ^ y]. *)
Definition band (x y : Z) : Z := ToInt32 (Z.land (ToInt32 x) (ToInt32 y)).
Definition bxor (x y : Z) : Z := ToInt32 (Z.lxor (ToInt32 x) (ToInt32 y)).

(** [o.k] for the property names the library reads ([type],
    [reconnectData], [messageType], [message]; none of them is a built-in
    property of an object, of a primitive or of an array): a TypeError on
    [null] and [undefined], the own property of an object, [undefined]
    otherwise. *)
Fixpoint lookup_prop (k : jsstring) (props : list (jsstring * value)) : value :=
  match props with
  | [] => VUndefined
  | (k', v) :: rest => if bool_decide (k' = k) then v else lookup_prop k rest
  end.

Definition get (o : value) (k : jsstring) : completion value :=
  match o with
  | VUndefined | VNull => Throw TypeError
  | VObject props => Normal (lookup_prop k props)
  | _ => Normal VUndefined
  end.

(** Decimal digits of an integer, as [String(n)] prints them. *)
Definition decimal (n : Z) : jsstring := js (NilZero.string_of_int (Z.to_int n)).

Definition join (sep : jsstring) (parts : list jsstring) : jsstring :=
  match parts with
  | [] => []
  | p :: ps => p ++ concat (map (fun q => sep ++ q) ps)
  end.

(** ToString, used when a value is a property key. *)
Fixpoint ToString (x : value) : jsstring :=
  match x with
  | VUndefined => js "undefined"
  | VNull => js "null"
  | VBool true => js "true"
  | VBool false => js "false"
  | VNumber n => decimal n
  | VString s => s
  | VArray elems =>
      join (js ",")
        (map (fun e => match e with
                       | VUndefined | VNull => []
                       | _ => ToString e
                       end) elems)
  | VObject _ => js "[object Object]"
  | VFunction _ => js "function () { [native code] }"
  end.

(** [s.toLowerCase()] on the Latin-1 strings Node's HTTP parser delivers
    as header values. *)
Definition lower_unit (c : Z) : Z :=
  if (65 <=? c) && (c <=? 90) then c + 32
  else if (192 <=? c) && (c <=? 222) && negb (c =? 215) then c + 32
  else c.

Definition toLowerCase (s : jsstring) : jsstring := map lower_unit s.

(** The UTF-8 bytes of a string, as [socket.write(string)] and
    [hash.update(string)] produce them: a surrogate pair is one code
    point, a lone surrogate becomes U+FFFD. *)
Definition is_high (c : Z) : bool := (0xD800 <=? c) && (c <=? 0xDBFF).
Definition is_low (c : Z) : bool := (0xDC00 <=? c) && (c <=? 0xDFFF).

Definition utf8_point (p : Z) : list Z :=
  if p <? 0x80 then [p]
  else if p <? 0x800 then [0xC0 + p / 64; 0x80 + p mod 64]
  else if p <? 0x10000 then
    [0xE0 + p / 4096; 0x80 + (p / 64) mod 64; 0x80 + p mod 64]
  else
    [0xF0 + p / 262144; 0x80 + (p / 4096) mod 64;
     0x80 + (p / 64) mod 64; 0x80 + p mod 64].

Fixpoint utf8 (s : jsstring) : list Z :=
  match s with
  | [] => []
  | c :: rest =>
      if is_high c then
        match rest with
        | d :: rest' =>
            if is_low d
            then utf8_point (0x10000 + (c - 0xD800) * 1024 + (d - 0xDC00)) ++ utf8 rest'
            else utf8_point 0xFFFD ++ utf8 rest
        | [] => utf8_point 0xFFFD
        end
      else if is_low c then utf8_point 0xFFFD ++ utf8 rest
      else utf8_point c ++ utf8 rest
  end.

(** ToPropertyKey of a value of [JSON.parse], as [o[x]] applies it.
    ToPrimitive throws a TypeError on an object that has a property
    [toString] of its own (no JSON value is callable, and the inherited
    [valueOf] answers the object itself) and on an array that holds such
    an object ([join] converts every element). *)
Fixpoint unprintable (x : value) : bool :=
  match x with
  | VArray elems => existsb unprintable elems
  | VObject props => existsb (fun kv => bool_decide (fst kv = js "toString")) props
  | _ => false
  end.

Definition ToPropertyKey (x : value) : completion jsstring :=
  if unprintable x then Throw TypeError else Normal (ToString x).

(** ** A plain object that holds callbacks

    Both sides keep their message handlers in [var messageHandlers = {}]
    and index it with a string that comes from the network, so a lookup
    finds what the object inherits as well as what was registered.  The
    map holds the registered functions.  An assignment to [__proto__]
    runs the inherited setter and makes the function the prototype of
    the object rather than a property of it: the entry at [__proto__]
    stands for that prototype, which [delete] does not undo.  From then
    on the object inherits from the function, from Function.prototype
    and from Object.prototype; the function is taken to be an ordinary
    one that the application has given no properties, and an assignment
    at any other name to give the object a property of its own. *)

(** What an inherited property does when it is called as
    [o[key](argument)]. *)
Inductive behaviour : Type :=
| Returns       (* a built-in function that returns, calling nothing *)
| Converts      (* ToPropertyKey of the argument, then as [Returns] *)
| Stringifies   (* [toLocaleString]: calls [o.toString()] *)
| Rejects.      (* a TypeError: not a function, or a function that throws *)

Definition one_of (names : list jsstring) (key : jsstring) : bool :=
  existsb (fun name => bool_decide (name = key)) names.

(** The properties of Object.prototype.  [__defineGetter__] and
    [__defineSetter__] throw for want of a second argument; [__proto__]
    is the prototype itself, an object. *)
Definition Object_prototype (key : jsstring) : option behaviour :=
  if one_of [js "constructor"; js "toString"; js "valueOf"; js "isPrototypeOf"] key
  then Some Returns
  else if one_of [js "hasOwnProperty"; js "propertyIsEnumerable";
                  js "__lookupGetter__"; js "__lookupSetter__"] key
  then Some Converts
  else if one_of [js "toLocaleString"] key then Some Stringifies
  else if one_of [js "__defineGetter__"; js "__defineSetter__"; js "__proto__"] key
  then Some Rejects
  else None.

(** The properties of a function ([length], [name], [prototype],
    [arguments], [caller]: none is a function) and of Function.prototype
    ([call], [apply], [bind], [toString]: a TypeError when [this] is not
    a function; [constructor] is [Function], which compiles its argument
    and is taken to throw), then those of Object.prototype. *)
Definition Function_prototype (key : jsstring) : option behaviour :=
  if one_of [js "length"; js "name"; js "prototype"; js "arguments"; js "caller";
             js "call"; js "apply"; js "bind"; js "toString"; js "constructor"] key
  then Some Rejects
  else Object_prototype key.

(** [o[key]] *)
Inductive member : Type :=
| Registered (f : fn)
| Inherited (b : behaviour)
| Undefined.

Definition lookup_member (o : gmap jsstring fn) (key : jsstring) : member :=
  match o !! key with
  | Some f => Registered f
  | None =>
      match (match o !! js "__proto__" with
             | None => Object_prototype key
             | Some _ => Function_prototype key
             end) with
      | Some b => Inherited b
      | None => Undefined
      end
  end.

(** [o[key](argument)], [m] being [o[key]]: the application function
    that is called and what it is called with, or [None] when none is. *)
Definition call_member (o : gmap jsstring fn) (m : member) (argument : value)
  : completion (option (fn * value)) :=
  match m with
  | Registered f => Normal (Some (f, argument))
  | Inherited Returns => Normal None
  | Inherited Converts =>
      if unprintable argument then Throw TypeError else Normal None
  | Inherited Stringifies =>
      match lookup_member o (js "toString") with
      | Registered f => Normal (Some (f, VUndefined))
      | Inherited Returns => Normal None
      | _ => Throw TypeError
      end
  | Inherited Rejects => Throw TypeError
  | Undefined => Throw TypeError
  end.

(** [delete o[key]]: what is inherited is not deleted. *)
Definition delete_member (key : jsstring) (o : gmap jsstring fn) : gmap jsstring fn :=
  if bool_decide (key = js "__proto__") then o else delete key o.

End JS.

(* ================================================================== *)
(** ** JSON.stringify *)
(* ================================================================== *)

Module JSON.
Import JS.

Definition hex_digit (d : Z) : Z := if d <? 10 then 48 + d else 87 + d.

(** The escape [\uXXXX] with lowercase hexadecimal digits. *)
Definition u_escape (c : Z) : jsstring :=
  [92; 117; hex_digit (c / 4096); hex_digit ((c / 256) mod 16);
   hex_digit ((c / 16) mod 16); hex_digit (c mod 16)].

Definition quote_unit (c : Z) : jsstring :=
  if c =? 8 then [92; 98]
  else if c =? 9 then [92; 116]
  else if c =? 10 then [92; 110]
  else if c =? 12 then [92; 102]
  else if c =? 13 then [92; 114]
  else if c =? 34 then [92; 34]
  else if c =? 92 then [92; 92]
  else if c <? 32 then u_escape c
  else [c].

(** QuoteJSONString without its surrounding quotes: a surrogate pair is
    copied, a lone surrogate is escaped. *)
Fixpoint quote_units (s : jsstring) : jsstring :=
  match s with
  | [] => []
  | c :: rest =>
      if is_high c then
        match rest with
        | d :: rest' =>
            if is_low d then c :: d :: quote_units rest'
            else u_escape c ++ quote_units rest
        | [] => u_escape c
        end
      else if is_low c then u_escape c ++ quote_units rest
      else quote_unit c ++ quote_units rest
  end.

Definition Quote (s : jsstring) : jsstring := 34 :: quote_units s ++ [34].

(** [JSON.stringify(x)]: [None] is the result [undefined].  Inside an
    array a value without a JSON text prints as [null]; inside an object
    its property is left out. *)
Fixpoint stringify (x : value) : option jsstring :=
  match x with
  | VUndefined | VFunction _ => None
  | VNull => Some (js "null")
  | VBool true => Some (js "true")
  | VBool false => Some (js "false")
  | VNumber n => Some (decimal n)
  | VString s => Some (Quote s)
  | VArray elems =>
      Some (js "[" ++
            join (js ",")
              (map (fun e => match stringify e with
                             | Some t => t
                             | None => js "null"
                             end) elems) ++
            js "]")
  | VObject props =>
      Some (js "{" ++
            join (js ",")
              (flat_map (fun kv => match stringify (snd kv) with
                                   | Some t => [Quote (fst kv) ++ js ":" ++ t]
                                   | None => []
                                   end) props) ++
            js "}")
  end.

(** *** A reference [JSON.parse]

    The server and the client take [JSON.parse] as a parameter, so what
    is proved of them holds whatever the parser.  This one reads the
    JSON grammar (ECMA-404) into [value], for the runs that are
    evaluated; a number with a fraction or an exponent is outside
    [VNumber] and is refused.  [None] is the SyntaxError. *)

Definition is_ws (c : Z) : bool :=
  (c =? 32) || (c =? 9) || (c =? 10) || (c =? 13).

Fixpoint skip_ws (s : jsstring) : jsstring :=
  match s with
  | c :: rest => if is_ws c then skip_ws rest else s
  | [] => []
  end.

Definition hex_value (c : Z) : option Z :=
  if (48 <=? c) && (c <=? 57) then Some (c - 48)
  else if (97 <=? c) && (c <=? 102) then Some (c - 87)
  else if (65 <=? c) && (c <=? 70) then Some (c - 55)
  else None.

Definition unescape (c : Z) : option Z :=
  if c =? 34 then Some 34
  else if c =? 92 then Some 92
  else if c =? 47 then Some 47
  else if c =? 98 then Some 8
  else if c =? 102 then Some 12
  else if c =? 110 then Some 10
  else if c =? 114 then Some 13
  else if c =? 116 then Some 9
  else None.

(** The characters of a string after its opening quote, and what
    follows the closing one. *)
Fixpoint parse_string (s : jsstring) : option (jsstring * jsstring) :=
  match s with
  | [] => None
  | c :: r =>
      if c =? 34 then Some ([], r)
      else if c =? 92 then
        match r with
        | [] => None
        | e :: r1 =>
            if e =? 117 then
              match r1 with
              | h1 :: h2 :: h3 :: h4 :: r2 =>
                  match hex_value h1, hex_value h2, hex_value h3, hex_value h4 with
                  | Some a, Some b, Some c', Some d =>
                      match parse_string r2 with
                      | Some (t, rest) => Some (a * 4096 + b * 256 + c' * 16 + d :: t, rest)
                      | None => None
                      end
                  | _, _, _, _ => None
                  end
              | _ => None
              end
            else
              match unescape e with
              | Some ch =>
                  match parse_string r1 with
                  | Some (t, rest) => Some (ch :: t, rest)
                  | None => None
                  end
              | None => None
              end
        end
      else if c <? 32 then None
      else
        match parse_string r with
        | Some (t, rest) => Some (c :: t, rest)
        | None => None
        end
  end.

Definition is_digit (c : Z) : bool := (48 <=? c) && (c <=? 57).

Fixpoint parse_digits (acc : Z) (s : jsstring) : Z * jsstring :=
  match s with
  | c :: rest => if is_digit c then parse_digits (acc * 10 + (c - 48)) rest else (acc, s)
  | [] => (acc, [])
  end.

(** An integer literal: no leading zero, no fraction, no exponent. *)
Definition parse_int (s : jsstring) : option (Z * jsstring) :=
  match s with
  | c :: rest =>
      if negb (is_digit c) then None
      else
        let '(n, rest') := if c =? 48 then (0, rest) else parse_digits 0 s in
        match rest' with
        | d :: _ =>
            if is_digit d || (d =? 46) || (d =? 101) || (d =? 69) then None
            else Some (n, rest')
        | [] => Some (n, rest')
        end
  | [] => None
  end.

Definition parse_number (s : jsstring) : option (value * jsstring) :=
  match s with
  | 45 :: rest =>
      match parse_int rest with
      | Some (n, rest') => Some (VNumber (- n), rest')
      | None => None
      end
  | _ =>
      match parse_int s with
      | Some (n, rest') => Some (VNumber n, rest')
      | None => None
      end
  end.

Fixpoint strip_prefix (lit s : jsstring) : option jsstring :=
  match lit, s with
  | [], _ => Some s
  | l :: lit', c :: s' => if l =? c then strip_prefix lit' s' else None
  | _ :: _, [] => None
  end.

(** A later property of the same name replaces the earlier value. *)
Fixpoint set_prop (k : jsstring) (v : value) (props : list (jsstring * value))
  : list (jsstring * value) :=
  match props with
  | [] => [(k, v)]
  | (k', v') :: rest =>
      if bool_decide (k' = k) then (k', v) :: rest else (k', v') :: set_prop k v rest
  end.

Fixpoint parse_value (fuel : nat) (s : jsstring) {struct fuel}
  : option (value * jsstring) :=
  match fuel with
  | O => None
  | S fuel' =>
      match skip_ws s with
      | [] => None
      | c :: r =>
          if c =? 123 then
            match skip_ws r with
            | 125 :: r' => Some (VObject [], r')
            | _ =>
                match parse_members fuel' [] r with
                | Some (props, r') => Some (VObject props, r')
                | None => None
                end
            end
          else if c =? 91 then
            match skip_ws r with
            | 93 :: r' => Some (VArray [], r')
            | _ =>
                match parse_elements fuel' r with
                | Some (elems, r') => Some (VArray elems, r')
                | None => None
                end
            end
          else if c =? 34 then
            match parse_string r with
            | Some (t, r') => Some (VString t, r')
            | None => None
            end
          else if c =? 116 then
            match strip_prefix (js "rue") r with
            | Some r' => Some (VBool true, r')
            | None => None
            end
          else if c =? 102 then
            match strip_prefix (js "alse") r with
            | Some r' => Some (VBool false, r')
            | None => None
            end
          else if c =? 110 then
            match strip_prefix (js "ull") r with
            | Some r' => Some (VNull, r')
            | None => None
            end
          else parse_number (c :: r)
      end
  end

with parse_elements (fuel : nat) (s : jsstring) {struct fuel}
  : option (list value * jsstring) :=
  match fuel with
  | O => None
  | S fuel' =>
      match parse_value fuel' s with
      | Some (v, r) =>
          match skip_ws r with
          | 44 :: r' =>
              match parse_elements fuel' r' with
              | Some (vs, r'') => Some (v :: vs, r'')
              | None => None
              end
          | 93 :: r' => Some ([v], r')
          | _ => None
          end
      | None => None
      end
  end

with parse_members (fuel : nat) (acc : list (jsstring * value)) (s : jsstring)
    {struct fuel} : option (list (jsstring * value) * jsstring) :=
  match fuel with
  | O => None
  | S fuel' =>
      match skip_ws s with
      | 34 :: r =>
          match parse_string r with
          | Some (k, r1) =>
              match skip_ws r1 with
              | 58 :: r2 =>
                  match parse_value fuel' r2 with
                  | Some (v, r3) =>
                      let acc' := set_prop k v acc in
                      match skip_ws r3 with
                      | 44 :: r4 => parse_members fuel' acc' r4
                      | 125 :: r4 => Some (acc', r4)
                      | _ => None
                      end
                  | None => None
                  end
              | _ => None
              end
          | None => None
          end
      | _ => None
      end
  end.

(** [JSON.parse(text)]; the parser gets two turns for each character. *)
Definition parse (text : jsstring) : option value :=
  match parse_value (2 * List.length text + 2) text with
  | Some (v, rest) =>
      match skip_ws rest with
      | [] => Some v
      | _ => None
      end
  | None => None
  end.

End JSON.

(* ================================================================== *)
(** ** Buffer *)
(* ================================================================== *)

(** Node's [Buffer], a byte array: each element is in [0, 256).  Reads
    and writes check the offset, writes check the value, and throw a
    RangeError otherwise. *)
Module Buffer.
Import JS.

Abbreviation buffer := (list Z).

Definition length (b : buffer) : Z := Z.of_nat (List.length b).

Definition at_ (b : buffer) (i : Z) : Z := nth (Z.to_nat i) b 0.

Definition in_range (b : buffer) (offset width : Z) : bool :=
  (0 <=? offset) && (offset + width <=? length b).

(** [new Buffer(n)]: [n] bytes, zero-filled.  (The code overwrites every
    byte of such a buffer before it sends it.) *)
Definition alloc (n : Z) : buffer := repeat 0 (Z.to_nat n).

(** [new Buffer(array)]: each element is stored modulo 256. *)
Definition from_array (a : list Z) : buffer := map (fun x => x mod 256) a.

Definition readUInt8 (b : buffer) (offset : Z) : completion Z :=
  if in_range b offset 1 then Normal (at_ b offset) else Throw RangeError.

Definition readUInt16BE (b : buffer) (offset : Z) : completion Z :=
  if in_range b offset 2
  then Normal (at_ b offset * 256 + at_ b (offset + 1))
  else Throw RangeError.

Definition readUInt32BE (b : buffer) (offset : Z) : completion Z :=
  if in_range b offset 4
  then Normal (at_ b offset * 16777216 + at_ b (offset + 1) * 65536 +
               at_ b (offset + 2) * 256 + at_ b (offset + 3))
  else Throw RangeError.

Definition set_ (b : buffer) (i v : Z) : buffer := <[Z.to_nat i := v]> b.

Definition writeUInt8 (value offset : Z) (b : buffer) : completion buffer :=
  if (0 <=? value) && (value <=? 255) && in_range b offset 1
  then Normal (set_ b offset value)
  else Throw RangeError.

Definition writeUInt16BE (value offset : Z) (b : buffer) : completion buffer :=
  if (0 <=? value) && (value <=? 65535) && in_range b offset 2
  then Normal (set_ (set_ b offset (value / 256)) (offset + 1) (value mod 256))
  else Throw RangeError.

(** Offsets of [slice] are clamped; a negative one counts from the end. *)
Definition adjustOffset (offset len : Z) : Z :=
  if offset <? 0 then Z.max (offset + len) 0
  else if offset <? len then offset
  else len.

(** [b.slice(start, end)]. *)
Definition slice (b : buffer) (start end_ : Z) : buffer :=
  let s := adjustOffset start (length b) in
  let e := adjustOffset end_ (length b) in
  firstn (Z.to_nat (e - s)) (skipn (Z.to_nat s) b).

(** [b.slice(start)]. *)
Definition slice_from (b : buffer) (start : Z) : buffer :=
  slice b start (length b).

(** [Buffer.concat(list, totalLength)]: a negative total is a RangeError;
    the concatenation is cut at the total, or zero-filled up to it. *)
Definition concat (bs : list buffer) (totalLength : Z) : completion buffer :=
  if totalLength <? 0 then Throw RangeError
  else
    let n := Z.to_nat totalLength in
    Normal (firstn n (List.concat bs ++ repeat 0 n)).

(** *** A reference [toString]

    [b.toString()] decodes UTF-8; each ill-formed sequence becomes
    U+FFFD.  Like [JSON.parse], the server takes it as a parameter. *)

Definition is_cont (c : Z) : bool := (0x80 <=? c) && (c <=? 0xBF).

Definition between (lo hi c : Z) : bool := (lo <=? c) && (c <=? hi).

Definition utf16_point (p : Z) : jsstring :=
  if p <? 0x10000 then [p]
  else [0xD800 + (p - 0x10000) / 1024; 0xDC00 + (p - 0x10000) mod 1024].

Fixpoint toString (b : buffer) : jsstring :=
  match b with
  | [] => []
  | c :: r =>
      if c <? 0x80 then c :: toString r
      else if between 0xC2 0xDF c then
        match r with
        | c1 :: r1 =>
            if is_cont c1 then (c - 0xC0) * 64 + (c1 - 0x80) :: toString r1
            else 0xFFFD :: toString r
        | [] => [0xFFFD]
        end
      else if between 0xE0 0xEF c then
        match r with
        | c1 :: r1 =>
            if between (if c =? 0xE0 then 0xA0 else 0x80)
                       (if c =? 0xED then 0x9F else 0xBF) c1 then
              match r1 with
              | c2 :: r2 =>
                  if is_cont c2
                  then (c - 0xE0) * 4096 + (c1 - 0x80) * 64 + (c2 - 0x80) :: toString r2
                  else 0xFFFD :: toString r1
              | [] => [0xFFFD]
              end
            else 0xFFFD :: toString r
        | [] => [0xFFFD]
        end
      else if between 0xF0 0xF4 c then
        match r with
        | c1 :: r1 =>
            if between (if c =? 0xF0 then 0x90 else 0x80)
                       (if c =? 0xF4 then 0x8F else 0xBF) c1 then
              match r1 with
              | c2 :: r2 =>
                  if is_cont c2 then
                    match r2 with
                    | c3 :: r3 =>
                        if is_cont c3 then
                          utf16_point ((c - 0xF0) * 262144 + (c1 - 0x80) * 4096 +
                                       (c2 - 0x80) * 64 + (c3 - 0x80)) ++ toString r3
                        else 0xFFFD :: toString r2
                    | [] => [0xFFFD]
                    end
                  else 0xFFFD :: toString r1
              | [] => [0xFFFD]
              end
            else 0xFFFD :: toString r
        | [] => [0xFFFD]
        end
      else 0xFFFD :: toString r
  end.

End Buffer.

(* ================================================================== *)
(** ** crypto: SHA-1 and base64 *)
(* ================================================================== *)

(** [crypto.createHash('sha1').update(s).digest('base64')], after
    FIPS 180-4 and RFC 4648. *)
Module Crypto.
Import JS.

Definition w32 (x : Z) : Z := x mod 2 ^ 32.

Definition rotl (n x : Z) : Z := w32 (Z.shiftl x n) + Z.shiftr x (32 - n).

Definition lnot32 (x : Z) : Z := 2 ^ 32 - 1 - x.

Definition f (t : nat) (b c d : Z) : Z :=
  if (t <? 20)%nat then Z.lor (Z.land b c) (Z.land (lnot32 b) d)
  else if (t <? 40)%nat then Z.lxor b (Z.lxor c d)
  else if (t <? 60)%nat then Z.lor (Z.lor (Z.land b c) (Z.land b d)) (Z.land c d)
  else Z.lxor b (Z.lxor c d).

Definition K (t : nat) : Z :=
  if (t <? 20)%nat then 0x5A827999
  else if (t <? 40)%nat then 0x6ED9EBA1
  else if (t <? 60)%nat then 0x8F1BBCDC
  else 0xCA62C1D6.

(** [n] rounds from round [t]; [w] holds the sixteen schedule words
    W(t) .. W(t+15). *)
Fixpoint rounds (n t : nat) (w : list Z) (st : Z * Z * Z * Z * Z) : Z * Z * Z * Z * Z :=
  match n with
  | O => st
  | S n' =>
      let '(a, b, c, d, e) := st in
      let temp := w32 (rotl 5 a + f t b c d + e + K t + nth 0 w 0) in
      let next :=
        rotl 1 (Z.lxor (Z.lxor (nth 13 w 0) (nth 8 w 0))
                       (Z.lxor (nth 2 w 0) (nth 0 w 0))) in
      rounds n' (S t) (tl w ++ [next]) (temp, a, rotl 30 b, c, d)
  end.

Definition be32 (bs : list Z) : Z :=
  nth 0 bs 0 * 16777216 + nth 1 bs 0 * 65536 + nth 2 bs 0 * 256 + nth 3 bs 0.

Definition bytes_be (width : nat) (x : Z) : list Z :=
  map (fun i => (x / 256 ^ Z.of_nat (width - 1 - i)) mod 256) (seq 0 width).

(** The words of the message, [fuel] words at most. *)
Fixpoint words (fuel : nat) (bs : list Z) : list Z :=
  match fuel with
  | O => []
  | S fuel' =>
      match bs with
      | [] => []
      | _ => be32 (firstn 4 bs) :: words fuel' (skipn 4 bs)
      end
  end.

Definition block (h : Z * Z * Z * Z * Z) (w : list Z) : Z * Z * Z * Z * Z :=
  let '(h0, h1, h2, h3, h4) := h in
  let '(a, b, c, d, e) := rounds 80 0 w h in
  (w32 (h0 + a), w32 (h1 + b), w32 (h2 + c), w32 (h3 + d), w32 (h4 + e)).

Fixpoint blocks (fuel : nat) (h : Z * Z * Z * Z * Z) (ws : list Z) : Z * Z * Z * Z * Z :=
  match fuel with
  | O => h
  | S fuel' =>
      match ws with
      | [] => h
      | _ => blocks fuel' (block h (firstn 16 ws)) (skipn 16 ws)
      end
  end.

Definition pad (msg : list Z) : list Z :=
  let l := Z.of_nat (List.length msg) in
  msg ++ [0x80] ++ repeat 0 (Z.to_nat ((55 - l) mod 64)) ++ bytes_be 8 (8 * l).

Definition sha1 (msg : list Z) : list Z :=
  let padded := pad msg in
  let ws := words (List.length padded) padded in
  let '(h0, h1, h2, h3, h4) :=
    blocks (List.length ws)
      (0x67452301, 0xEFCDAB89, 0x98BADCFE, 0x10325476, 0xC3D2E1F0) ws in
  bytes_be 4 h0 ++ bytes_be 4 h1 ++ bytes_be 4 h2 ++ bytes_be 4 h3 ++ bytes_be 4 h4.

Definition alphabet : jsstring :=
  js "ABCDEFGHIJKLMNOPQRSTUVWXYZabcdefghijklmnopqrstuvwxyz0123456789+/".

Definition sextet (i : Z) : Z := nth (Z.to_nat i) alphabet 0.

Fixpoint base64 (fuel : nat) (bs : list Z) : jsstring :=
  match fuel with
  | O => []
  | S fuel' =>
      match bs with
      | [] => []
      | [a] => [sextet (a / 4); sextet ((a mod 4) * 16); 61; 61]
      | [a; b] =>
          [sextet (a / 4); sextet ((a mod 4) * 16 + b / 16);
           sextet ((b mod 16) * 4); 61]
      | a :: b :: c :: rest =>
          sextet (a / 4) :: sextet ((a mod 4) * 16 + b / 16) ::
          sextet ((b mod 16) * 4 + c / 64) :: sextet (c mod 64) ::
          base64 fuel' rest
      end
  end.

(** [createHash('sha1').update(s).digest('base64')] for a string [s]. *)
Definition sha1_base64 (s : jsstring) : jsstring :=
  let digest := sha1 (utf8 s) in
  base64 (List.length digest) digest.

End Crypto.

(* ================================================================== *)
(** ** Effects: state, observable events, exceptions *)
(* ================================================================== *)

(** A function of the library runs on the variables of its closure (the
    state), calls the outside world (the trace) and returns or throws.
    What it assigned and called before a throw stays done. *)
Module Eff.
Import JS.

Section Monad.
Context {S E : Type}.

Record result (A : Type) : Type := Result {
  state : S;
  trace : list E;
  outcome : completion A }.
#[global] Arguments Result {A} _ _ _.
#[global] Arguments state {A} _.
#[global] Arguments trace {A} _.
#[global] Arguments outcome {A} _.

Definition M (A : Type) : Type := S -> result A.

Definition ret {A} (a : A) : M A := fun s => Result s [] (Normal a).

Definition lift {A} (c : completion A) : M A := fun s => Result s [] c.

Definition throw {A} (e : exn) : M A := lift (Throw e).

Definition bind {A B} (m : M A) (k : A -> M B) : M B := fun s =>
  let r := m s in
  match outcome r with
  | Normal a =>
      let r' := k a (state r) in
      Result (state r') (trace r ++ trace r') (outcome r')
  | Throw e => Result (state r) (trace r) (Throw e)
  | Timeout => Result (state r) (trace r) Timeout
  end.

Definition emit (e : E) : M unit := fun s => Result s [e] (Normal tt).

Definition gets {A} (f : S -> A) : M A := fun s => Result s [] (Normal (f s)).

Definition modify (f : S -> S) : M unit := fun s => Result (f s) [] (Normal tt).

End Monad.

#[global] Arguments result : clear implicits.
#[global] Arguments M : clear implicits.

(** Sequencing on pure completions (the [Buffer] calls). *)
Definition and_then {A B} (c : completion A) (k : A -> completion B) : completion B :=
  match c with
  | Normal a => k a
  | Throw e => Throw e
  | Timeout => Timeout
  end.

Declare Scope eff_scope.
Delimit Scope eff_scope with eff.

Notation "x <- m ;; k" := (bind m (fun x => k))
  (at level 20, m at level 99, k at level 200, only parsing) : eff_scope.
Notation "m ;; k" := (bind m (fun _ => k))
  (at level 100, k at level 200, only parsing, right associativity) : eff_scope.
Notation "x <~ c ;; k" := (and_then c (fun x => k))
  (at level 20, c at level 99, k at level 200, only parsing) : eff_scope.

End Eff.

(* ================================================================== *)
(** ** The server: [src/server/socket.js] *)
(* ================================================================== *)

Module Server.
Import JS Eff.
Local Open Scope eff_scope.

(** The variables of one connection (the closure of the upgrade
    callback).  [messageHandlers] is the object used as a map from
    message type to handler: the map holds the functions registered in
    it, and [JS.lookup_member] is what indexing it finds. *)
Record conn : Type := Conn {
  started : bool;
  closed : bool;
  closeHandler : option fn;
  messageHandlers : gmap jsstring fn;
  dataReceived : Buffer.buffer;
  payloadReceived : Buffer.buffer }.

Definition set_started (v : bool) (s : conn) : conn :=
  Conn v (closed s) (closeHandler s) (messageHandlers s) (dataReceived s) (payloadReceived s).
Definition set_closed (v : bool) (s : conn) : conn :=
  Conn (started s) v (closeHandler s) (messageHandlers s) (dataReceived s) (payloadReceived s).
Definition set_closeHandler (v : option fn) (s : conn) : conn :=
  Conn (started s) (closed s) v (messageHandlers s) (dataReceived s) (payloadReceived s).
Definition set_messageHandlers (v : gmap jsstring fn) (s : conn) : conn :=
  Conn (started s) (closed s) (closeHandler s) v (dataReceived s) (payloadReceived s).
Definition set_dataReceived (v : Buffer.buffer) (s : conn) : conn :=
  Conn (started s) (closed s) (closeHandler s) (messageHandlers s) v (payloadReceived s).
Definition set_payloadReceived (v : Buffer.buffer) (s : conn) : conn :=
  Conn (started s) (closed s) (closeHandler s) (messageHandlers s) (dataReceived s) v.

(** The state the upgrade callback sets up (lines 36-41). *)
Definition init : conn := Conn false false None ∅ (Buffer.alloc 0) (Buffer.alloc 0).

(** What the connection does to the outside world.  The callbacks of the
    application are external calls: the call is recorded, and what the
    application then calls on the session handle is a step of its own
    (see [op]). *)
Inductive event : Type :=
| Write (bytes : list Z)                  (* socket.write(...) *)
| End_                                    (* socket.end() *)
| Handler (reconnectData : value)         (* handler(session, reconnectData) *)
| MessageHandler (f : fn) (message : value)  (* messageHandlers[type](message) *)
| CloseHandler (f : fn).                  (* closeHandler() *)

Abbreviation M := (Eff.M conn event).

(** *** [jsonConvertible] (lines 7-16) *)

Definition jsonConvertible (x : value) : bool :=
  match JSON.stringify x with
  | Some _ => true
  | None => false
  end.

(** *** [sendMessage] (lines 44-71) *)

Definition payloadLengthBuffer (length : Z) : completion Buffer.buffer :=
  if length <? 126 then
    Normal (Buffer.from_array [length])
  else if length <? 65536 then
    b <~ Buffer.writeUInt8 126 0 (Buffer.alloc 3) ;;
    Buffer.writeUInt16BE length 1 b
  else
    b <~ Buffer.writeUInt8 127 0 (Buffer.alloc 9) ;;
    b <~ Buffer.writeUInt16BE 0 1 b ;;
    Buffer.writeUInt16BE length 5 b.

Definition sendMessage (message : value) : M unit :=
  c <- gets closed ;;
  if c then ret tt
  else
    let data := JSON.stringify message in
    emit (Write (Buffer.from_array [129])) ;;
    match data with
    | None => throw TypeError               (* undefined.length *)
    | Some data =>
        b <- lift (payloadLengthBuffer (Z.of_nat (List.length data))) ;;
        emit (Write b) ;;
        emit (Write (utf8 data))
    end.

(** *** [close] (lines 75-93) *)

Definition close (needToCloseSocket : bool) : M unit :=
  c <- gets closed ;;
  if c then ret tt
  else
    (if needToCloseSocket
     then sendMessage (VObject [(js "type", VString (js "close"))])
     else ret tt) ;;
    modify (set_closed true) ;;
    modify (set_dataReceived (Buffer.alloc 0)) ;;
    h <- gets closeHandler ;;
    match h with
    | Some f => emit (CloseHandler f)
    | None => ret tt
    end.

(** *** [start] (lines 222-275): the session handle is the three methods
    [send], [receive] and [close_] below. *)

Definition start (reconnectData : value) : M unit :=
  emit (Handler reconnectData).

Definition send (type message : value) : M unit :=
  if negb (is_string type) then throw (Thrown "Invalid parameter: type")
  else if negb (jsonConvertible message)
  then throw (Thrown "Invalid parameter: message")
  else
    c <- gets closed ;;
    if c then throw (Thrown "Attempted to transmit after the connection has been closed")
    else
      sendMessage (VObject [(js "type", VString (js "message"));
                            (js "messageType", type);
                            (js "message", message)]).

Definition receive (type handler : value) : M unit :=
  match type with
  | VString type =>
      match handler with
      | VNull => modify (fun s => set_messageHandlers (delete_member type (messageHandlers s)) s)
      | VFunction f => modify (fun s => set_messageHandlers (<[type := f]> (messageHandlers s)) s)
      | _ => throw (Thrown "Invalid parameter: handler")
      end
  | _ => throw (Thrown "Invalid parameter: type")
  end.

Definition close_ (handler : value) : M unit :=
  match handler with
  | VUndefined => close true
  | VNull => modify (set_closeHandler None)
  | VFunction f => modify (set_closeHandler (Some f))
  | _ => throw (Thrown "Invalid parameter: handler")
  end.

(** *** The ['data'] listener (lines 95-212) *)

Section Decoder.

(** [JSON.parse] ([None]: it throws a SyntaxError) and
    [Buffer.prototype.toString] belong to the platform. *)
Variable JSON_parse : jsstring -> option value.
Variable toString : Buffer.buffer -> jsstring.

(** Lines 127-144: the payload length and the index after it; [None]
    when the bytes of the length are not all there. *)
Definition read_length (d : Buffer.buffer) (nextByteIndex : Z)
  : completion (option (Z * Z)) :=
  b1 <~ Buffer.readUInt8 d 1 ;;
  if band b1 127 <? 126 then
    Normal (Some (band b1 127, nextByteIndex + 1))
  else if band b1 127 =? 126 then
    if Buffer.length d <? nextByteIndex + 3 then Normal None
    else
      l <~ Buffer.readUInt16BE d 2 ;;
      Normal (Some (l, nextByteIndex + 3))
  else
    if Buffer.length d <? nextByteIndex + 9 then Normal None
    else
      hi <~ Buffer.readUInt32BE d 2 ;;
      lo <~ Buffer.readUInt32BE d 6 ;;
      Normal (Some (shl hi 32 + lo, nextByteIndex + 9)).

(** Lines 146-154: the masking key and the index after it. *)
Definition read_key (mask : bool) (d : Buffer.buffer) (nextByteIndex : Z)
  : option (Buffer.buffer * Z) :=
  if mask then
    if Buffer.length d <? nextByteIndex + 4 then None
    else Some (Buffer.slice d nextByteIndex (nextByteIndex + 4), nextByteIndex + 4)
  else Some ([], nextByteIndex).

(** Lines 163-165: the payload is decrypted in place, [n] bytes from
    byte [i] of the payload on.  (The key is a slice of the same memory,
    below the bytes written.) *)
Fixpoint unmask (n : nat) (i : Z) (maskingKey : Buffer.buffer) (nextByteIndex : Z)
    (d : Buffer.buffer) : completion Buffer.buffer :=
  match n with
  | O => Normal d
  | S n' =>
      x <~ Buffer.readUInt8 d (nextByteIndex + i) ;;
      k <~ Buffer.readUInt8 maskingKey (i mod 4) ;;
      d' <~ Buffer.writeUInt8 (bxor x k) (nextByteIndex + i) d ;;
      unmask n' (i + 1) maskingKey nextByteIndex d'
  end.

(** Lines 183-200: the envelope is dispatched on its type.  The handler
    of a message is whatever [messageHandlers[messageType]] is, when it
    is not [undefined]. *)
Definition dispatch (messageData : value) : M unit :=
  type <- lift (get messageData (js "type")) ;;
  if strict_eq_string type (js "connect") then
    st <- gets started ;;
    if st then ret tt
    else modify (set_started true) ;; start VNull
  else if strict_eq_string type (js "reconnect") then
    st <- gets started ;;
    if st then ret tt
    else
      modify (set_started true) ;;
      reconnectData <- lift (get messageData (js "reconnectData")) ;;
      start reconnectData
  else if strict_eq_string type (js "message") then
    messageType <- lift (get messageData (js "messageType")) ;;
    handlers <- gets messageHandlers ;;
    key <- lift (ToPropertyKey messageType) ;;
    match lookup_member handlers key with
    | Undefined => ret tt
    | found =>
        message <- lift (get messageData (js "message")) ;;
        called <- lift (call_member handlers found message) ;;
        match called with
        | Some (f, argument) => emit (MessageHandler f argument)
        | None => ret tt
        end
    end
  else ret tt.

(** Lines 173-203: what a frame with FIN set does; [false] when the
    listener returns (the payload was not JSON and the connection was
    closed). *)
Definition deliver (opcode : Z) : M bool :=
  go <- (if opcode =? 1 then
           p <- gets payloadReceived ;;
           match JSON_parse (toString p) with
           | None => close true ;; ret false
           | Some messageData => dispatch messageData ;; ret true
           end
         else ret true) ;;
  if go then modify (set_payloadReceived (Buffer.alloc 0)) ;; ret true
  else ret false.

(** Lines 205-210. *)
Definition free (nextByteIndex : Z) : M unit :=
  d <- gets dataReceived ;;
  if Buffer.length d =? nextByteIndex
  then modify (set_dataReceived (Buffer.alloc 0))
  else modify (set_dataReceived (Buffer.slice_from d nextByteIndex)).

(** One turn of the [while (true)] loop (lines 105-210): [true] when the
    loop goes round again, [false] when the listener returns. *)
Definition frame : M bool :=
  d <- gets dataReceived ;;
  let nextByteIndex := 0 in
  if Buffer.length d <? nextByteIndex + 1 then ret false
  else
    b0 <- lift (Buffer.readUInt8 d 0) ;;
    let fin := shr b0 7 =? 1 in
    let opcode := band b0 15 in
    if opcode =? 8 then close true ;; ret false
    else
      let nextByteIndex := nextByteIndex + 1 in
      if Buffer.length d <? nextByteIndex + 1 then ret false
      else
        b1 <- lift (Buffer.readUInt8 d 1) ;;
        let mask := shr b1 7 =? 1 in
        len <- lift (read_length d nextByteIndex) ;;
        match len with
        | None => ret false
        | Some (payloadLength, nextByteIndex) =>
            match read_key mask d nextByteIndex with
            | None => ret false
            | Some (maskingKey, nextByteIndex) =>
                if Buffer.length d <? nextByteIndex + payloadLength then ret false
                else
                  (if mask then
                     d' <- lift (unmask (Z.to_nat payloadLength) 0 maskingKey nextByteIndex d) ;;
                     modify (set_dataReceived d')
                   else ret tt) ;;
                  d <- gets dataReceived ;;
                  p <- gets payloadReceived ;;
                  p' <- lift (Buffer.concat
                                [p; Buffer.slice d nextByteIndex (nextByteIndex + payloadLength)]
                                (Buffer.length p + payloadLength)) ;;
                  modify (set_payloadReceived p') ;;
                  let nextByteIndex := nextByteIndex + payloadLength in
                  go <- (if fin then deliver opcode else ret true) ;;
                  if go then free nextByteIndex ;; ret true
                  else ret false
            end
        end.

(** The loop, [fuel] turns at most. *)
Fixpoint frames (fuel : nat) : M unit :=
  match fuel with
  | O => lift Timeout
  | S fuel' =>
      go <- frame ;;
      if go then frames fuel' else ret tt
  end.

(** Every turn that goes round again shortens the two buffers taken
    together, so this many turns are enough ([Framing.frames_fuel],
    [Returning.frames_returns]). *)
Definition turns (s : conn) : nat :=
  S (List.length (dataReceived s) + List.length (payloadReceived s)).

Definition on_data (data : Buffer.buffer) : M unit :=
  c <- gets closed ;;
  if c then ret tt
  else
    d <- gets dataReceived ;;
    d' <- lift (Buffer.concat [d; data] (Buffer.length d + Buffer.length data)) ;;
    modify (set_dataReceived d') ;;
    fun s => frames (turns s) s.

(** The ['close'] listener of the socket (lines 215-217). *)
Definition on_close : M unit := close false.

(** What can happen to a connection: the two socket events, and the
    application calling a method of the session handle. *)
Inductive op : Type :=
| Data (chunk : Buffer.buffer)
| SocketClosed
| Send (type message : value)
| Receive (type handler : value)
| Close_ (handler : value).

Definition step (o : op) : M unit :=
  match o with
  | Data chunk => on_data chunk
  | SocketClosed => on_close
  | Send type message => send type message
  | Receive type handler => receive type handler
  | Close_ handler => close_ handler
  end.

(** The events of a sequence of steps, and the state it ends in.  Each
    step is a turn of the event loop: one that throws does not undo or
    prevent the others. *)
Fixpoint run (ops : list op) (s : conn) : list event * conn :=
  match ops with
  | [] => ([], s)
  | o :: rest =>
      let r := step o s in
      let '(t, s') := run rest (state r) in
      (trace r ++ t, s')
  end.

(** Chunks fed one after the other to the listener; a throw ends it. *)
Fixpoint feed (chunks : list Buffer.buffer) : M unit :=
  match chunks with
  | [] => ret tt
  | c :: rest => on_data c ;; feed rest
  end.

End Decoder.

(** *** The ['upgrade'] listener (lines 21-34, 276-281) *)

Definition GUID : jsstring := js "258EAFA5-E914-47DA-95CA-C5AB0DC85B11".

Definition CRLF : jsstring := [13; 10].

(** [undefined + string] and [string + string]. *)
Definition header_text (h : option jsstring) : jsstring :=
  match h with
  | Some v => v
  | None => ToString VUndefined
  end.

Definition accept (key : option jsstring) : jsstring :=
  Crypto.sha1_base64 (header_text key ++ GUID).

Definition response (key : option jsstring) : jsstring :=
  js "HTTP/1.1 101 Switching Protocols" ++ CRLF ++
  js "Upgrade: websocket" ++ CRLF ++
  js "Connection: Upgrade" ++ CRLF ++
  js "Sec-WebSocket-Accept: " ++ accept key ++ CRLF ++
  CRLF.

(** The events of the upgrade, and the connection it sets up if the
    handshake is accepted. *)
Definition upgrade (headers : gmap jsstring jsstring)
  : list event * completion (option conn) :=
  match headers !! js "upgrade" with
  | None => ([], Throw TypeError)           (* undefined.toLowerCase() *)
  | Some u =>
      if bool_decide (toLowerCase u = js "websocket") then
        let version := headers !! js "sec-websocket-version" in
        if bool_decide (version = Some (js "13")) then
          let key := headers !! js "sec-websocket-key" in
          ([Write (utf8 (response key))], Normal (Some init))
        else ([End_], Normal None)
      else ([End_], Normal None)
  end.

End Server.

(* ================================================================== *)
(** ** The client: [src/client/socket.js] *)
(* ================================================================== *)

Module Client.
Import JS Eff.
Local Open Scope eff_scope.

(** [WebSocket.readyState]. *)
Inductive readyState : Type := CONNECTING | OPEN | CLOSING | CLOSED.

(** The variables of one session (the closure of [connect]).
    [websocket] is the ready state of the WebSocket the variable of that
    name holds: the session has one live WebSocket at a time, the one
    made last.  [reconnecting] counts the reconnect intervals that are
    set. *)
Record session : Type := Session {
  websocket : readyState;
  permanentlyClosed : bool;
  temporarilyDisconnected : bool;
  messageHandlers : gmap jsstring fn;
  disconnectHandler : option fn;
  reconnectHandler : option fn;
  closeHandler : option fn;
  outgoingQueue : list value;
  reconnecting : nat }.

Definition set_websocket (v : readyState) (s : session) : session :=
  Session v (permanentlyClosed s) (temporarilyDisconnected s) (messageHandlers s)
    (disconnectHandler s) (reconnectHandler s) (closeHandler s) (outgoingQueue s)
    (reconnecting s).
Definition set_permanentlyClosed (v : bool) (s : session) : session :=
  Session (websocket s) v (temporarilyDisconnected s) (messageHandlers s)
    (disconnectHandler s) (reconnectHandler s) (closeHandler s) (outgoingQueue s)
    (reconnecting s).
Definition set_temporarilyDisconnected (v : bool) (s : session) : session :=
  Session (websocket s) (permanentlyClosed s) v (messageHandlers s)
    (disconnectHandler s) (reconnectHandler s) (closeHandler s) (outgoingQueue s)
    (reconnecting s).
Definition set_messageHandlers (v : gmap jsstring fn) (s : session) : session :=
  Session (websocket s) (permanentlyClosed s) (temporarilyDisconnected s) v
    (disconnectHandler s) (reconnectHandler s) (closeHandler s) (outgoingQueue s)
    (reconnecting s).
Definition set_disconnectHandler (v : option fn) (s : session) : session :=
  Session (websocket s) (permanentlyClosed s) (temporarilyDisconnected s) (messageHandlers s)
    v (reconnectHandler s) (closeHandler s) (outgoingQueue s) (reconnecting s).
Definition set_reconnectHandler (v : option fn) (s : session) : session :=
  Session (websocket s) (permanentlyClosed s) (temporarilyDisconnected s) (messageHandlers s)
    (disconnectHandler s) v (closeHandler s) (outgoingQueue s) (reconnecting s).
Definition set_closeHandler (v : option fn) (s : session) : session :=
  Session (websocket s) (permanentlyClosed s) (temporarilyDisconnected s) (messageHandlers s)
    (disconnectHandler s) (reconnectHandler s) v (outgoingQueue s) (reconnecting s).
Definition set_outgoingQueue (v : list value) (s : session) : session :=
  Session (websocket s) (permanentlyClosed s) (temporarilyDisconnected s) (messageHandlers s)
    (disconnectHandler s) (reconnectHandler s) (closeHandler s) v (reconnecting s).
Definition set_reconnecting (v : nat) (s : session) : session :=
  Session (websocket s) (permanentlyClosed s) (temporarilyDisconnected s) (messageHandlers s)
    (disconnectHandler s) (reconnectHandler s) (closeHandler s) (outgoingQueue s) v.

(** What the session does to the outside world; the callbacks of the
    application are recorded as on the server. *)
Inductive event : Type :=
| WsNew                                   (* new WebSocket(url) *)
| WsSend (data : jsstring)                (* websocket.send(data) *)
| WsClose                                 (* websocket.close() *)
| MessageHandler (f : fn) (message : value)
| DisconnectHandler (f : fn)
| ReconnectHandler (f : fn)
| CloseHandler (f : fn).

Abbreviation M := (Eff.M session event).

(** *** [jsonConvertible] (lines 6-15) *)

Definition jsonConvertible (x : value) : bool :=
  match JSON.stringify x with
  | Some _ => true
  | None => false
  end.

(** [outgoingQueue.splice(0, n)] and [outgoingQueue.push(x)]. *)
Definition splice0 (n : nat) : M unit :=
  modify (fun s => set_outgoingQueue (skipn n (outgoingQueue s)) s).

Definition push (x : value) : M unit :=
  modify (fun s => set_outgoingQueue (outgoingQueue s ++ [x]) s).

(** [websocket.send(JSON.stringify(x))]; [send(undefined)] sends the
    text of [undefined]. *)
Definition transmit (x : value) : M unit :=
  match JSON.stringify x with
  | Some text => emit (WsSend text)
  | None => emit (WsSend (ToString VUndefined))
  end.

Fixpoint transmit_all (q : list value) : M unit :=
  match q with
  | [] => ret tt
  | x :: rest => transmit x ;; transmit_all rest
  end.

(** *** [flushOutgoingQueue] (lines 135-152) *)

Definition flushOutgoingQueue : M unit :=
  pc <- gets permanentlyClosed ;;
  td <- gets temporarilyDisconnected ;;
  q <- gets outgoingQueue ;;
  if pc || td then
    if (0 <? List.length q)%nat then splice0 (List.length q) else ret tt
  else
    rs <- gets websocket ;;
    match rs with
    | OPEN =>
        transmit_all q ;;
        let i := List.length q in
        if (0 <? i)%nat then splice0 i else ret tt
    | _ => ret tt
    end.

(** *** [close] (lines 155-170) *)

Definition close : M unit :=
  pc <- gets permanentlyClosed ;;
  if pc then ret tt
  else
    modify (set_permanentlyClosed true) ;;
    rs <- gets websocket ;;
    match rs with
    | CLOSING | CLOSED => ret tt
    | _ => emit WsClose ;; modify (set_websocket CLOSING)
    end ;;
    h <- gets closeHandler ;;
    match h with
    | Some f => emit (CloseHandler f)
    | None => ret tt
    end.

(** *** [onSocketOpen] (lines 60-91); [returned] is what the reconnect
    callback of the application returns when it is called. *)

Definition onSocketOpen (returned : value) : M unit :=
  td <- gets temporarilyDisconnected ;;
  (if td then
     modify (set_temporarilyDisconnected false) ;;
     q <- gets outgoingQueue ;;
     (if (0 <? List.length q)%nat then splice0 (List.length q) else ret tt) ;;
     h <- gets reconnectHandler ;;
     reconnectData <-
       match h with
       | Some f =>
           emit (ReconnectHandler f) ;;
           let reconnectData :=
             match returned with VUndefined => VNull | _ => returned end in
           if negb (jsonConvertible reconnectData)
           then throw (Thrown "Invalid reconnectData")
           else ret reconnectData
       | None => ret VNull
       end ;;
     push (VObject [(js "type", VString (js "reconnect"));
                    (js "reconnectData", reconnectData)])
   else ret tt) ;;
  flushOutgoingQueue.

(** *** [onSocketClose] (lines 108-132) and the interval it sets *)

Definition onSocketClose : M unit :=
  pc <- gets permanentlyClosed ;;
  if pc then ret tt
  else
    td <- gets temporarilyDisconnected ;;
    (if td then ret tt
     else
       modify (set_temporarilyDisconnected true) ;;
       h <- gets disconnectHandler ;;
       match h with
       | Some f => emit (DisconnectHandler f)
       | None => ret tt
       end) ;;
    modify (fun s => set_reconnecting (S (reconnecting s)) s).

(** One firing of a reconnect interval (lines 121-130); [ok] tells
    whether [new WebSocket(url)] succeeds this time. *)
Definition onInterval (ok : bool) : M unit :=
  n <- gets reconnecting ;;
  match n with
  | O => ret tt
  | S n' =>
      pc <- gets permanentlyClosed ;;
      if pc then modify (set_reconnecting n')
      else if ok then
        emit WsNew ;;
        modify (set_websocket CONNECTING) ;;
        modify (set_reconnecting n')
      else ret tt
  end.

Section Incoming.

(** [JSON.parse]; [None]: it throws a SyntaxError. *)
Variable JSON_parse : jsstring -> option value.

(** *** [onSocketMessage] (lines 94-105) *)

Definition onSocketMessage (e_data : jsstring) : M unit :=
  match JSON_parse e_data with
  | None => throw SyntaxError
  | Some data =>
      type <- lift (get data (js "type")) ;;
      if strict_eq_string type (js "message") then
        messageType <- lift (get data (js "messageType")) ;;
        handlers <- gets messageHandlers ;;
        key <- lift (ToPropertyKey messageType) ;;
        match lookup_member handlers key with
        | Undefined => ret tt
        | found =>
            message <- lift (get data (js "message")) ;;
            called <- lift (call_member handlers found message) ;;
            match called with
            | Some (f, argument) => emit (MessageHandler f argument)
            | None => ret tt
            end
        end
      else if strict_eq_string type (js "close") then close
      else ret tt
  end.

(** *** The methods of the session object (lines 182-266) *)

Definition send (type message : value) : M unit :=
  if negb (is_string type) then throw (Thrown "Invalid parameter: type")
  else if negb (jsonConvertible message)
  then throw (Thrown "Invalid parameter: message")
  else
    pc <- gets permanentlyClosed ;;
    if pc then throw (Thrown "Attempted to transmit after the connection has been closed")
    else
      td <- gets temporarilyDisconnected ;;
      if td then ret tt
      else
        push (VObject [(js "type", VString (js "message"));
                       (js "messageType", type);
                       (js "message", message)]) ;;
        flushOutgoingQueue.

(** [handler !== null && typeof handler !== 'function'] *)
Definition bad_handler (handler : value) : bool :=
  match handler with
  | VNull | VFunction _ => false
  | _ => true
  end.

Definition handler_of (handler : value) : option fn :=
  match handler with
  | VFunction f => Some f
  | _ => None
  end.

Definition receive (type handler : value) : M unit :=
  match type with
  | VString type =>
      if bad_handler handler then throw (Thrown "Invalid parameter: handler")
      else
        pc <- gets permanentlyClosed ;;
        if pc
        then throw (Thrown "Attempted to set message handler after the connection has been closed")
        else
          match handler with
          | VFunction f =>
              modify (fun s => set_messageHandlers (<[type := f]> (messageHandlers s)) s)
          | _ =>
              modify (fun s => set_messageHandlers (delete_member type (messageHandlers s)) s)
          end
  | _ => throw (Thrown "Invalid parameter: type")
  end.

Definition disconnect (handler : value) : M unit :=
  if bad_handler handler then throw (Thrown "Invalid parameter: handler")
  else
    pc <- gets permanentlyClosed ;;
    if pc
    then throw (Thrown "Attempted to set disconnect handler after the connection has been closed")
    else modify (set_disconnectHandler (handler_of handler)).

Definition reconnect (handler : value) : M unit :=
  if bad_handler handler then throw (Thrown "Invalid parameter: handler")
  else
    pc <- gets permanentlyClosed ;;
    if pc
    then throw (Thrown "Attempted to set reconnect handler after the connection has been closed")
    else modify (set_reconnectHandler (handler_of handler)).

Definition close_ (handler : value) : M unit :=
  match handler with
  | VUndefined => close
  | VNull => modify (set_closeHandler None)
  | VFunction f => modify (set_closeHandler (Some f))
  | _ => throw (Thrown "Invalid parameter: handler")
  end.

(** *** [connect] (lines 24-47, 172-180), once its parameters are
    checked and the first WebSocket is made. *)

Definition connect : result session event unit :=
  (emit WsNew ;;
   push (VObject [(js "type", VString (js "connect"))]) ;;
   flushOutgoingQueue)
    (Session CONNECTING false false ∅ None None None [] 0).

(** What can happen to a session: the events of its WebSocket (the
    browser sets the ready state, then calls the listener), a firing of
    a reconnect interval, and the application calling a method. *)
Inductive op : Type :=
| Opened (returned : value)
| Message (data : jsstring)
| Closed
| Interval (ok : bool)
| Send (type message : value)
| Receive (type handler : value)
| Disconnect (handler : value)
| Reconnect (handler : value)
| Close_ (handler : value).

Definition step (o : op) : M unit :=
  match o with
  | Opened returned => modify (set_websocket OPEN) ;; onSocketOpen returned
  | Message data => onSocketMessage data
  | Closed => modify (set_websocket CLOSED) ;; onSocketClose
  | Interval ok => onInterval ok
  | Send type message => send type message
  | Receive type handler => receive type handler
  | Disconnect handler => disconnect handler
  | Reconnect handler => reconnect handler
  | Close_ handler => close_ handler
  end.

Fixpoint run (ops : list op) (s : session) : list event * session :=
  match ops with
  | [] => ([], s)
  | o :: rest =>
      let r := step o s in
      let '(t, s') := run rest (state r) in
      (trace r ++ t, s')
  end.

End Incoming.

End Client.

(* ================================================================== *)
(** ** The wire format, and what is observed of a run *)
(* ================================================================== *)

(** A frame as the peer of the server puts it on the wire (the browser
    encodes the frames the server decodes; its encoder is not part of
    the repository).  The layout is the one of the frame header table:
    FIN and opcode, MASK and length code, the extended length in
    big-endian order, the masking key, the payload, each payload byte
    XORed with [key[i mod 4]] when there is a key. *)
Module Wire.

Record frame : Type := Frame {
  fin : bool;
  opcode : Z;
  masking_key : option (list Z);
  payload : list Z }.

(** The unsigned big-endian value of a byte sequence, and the
    [width]-byte big-endian representation of a number. *)
Definition value_be (bs : list Z) : Z :=
  fold_left (fun acc b => acc * 256 + b) bs 0.

Definition be (width : nat) (x : Z) : list Z :=
  map (fun i => (x / 256 ^ Z.of_nat (width - 1 - i)) mod 256) (seq 0 width).

Definition length_code (n : Z) : Z :=
  if n <? 126 then n else if n <? 65536 then 126 else 127.

Definition extended_length (n : Z) : list Z :=
  if n <? 126 then [] else if n <? 65536 then be 2 n else be 8 n.

Definition mask (key bytes : list Z) : list Z :=
  imap (fun i b => Z.lxor b (nth (i mod 4) key 0)) bytes.

Definition encode (f : frame) : list Z :=
  let n := Z.of_nat (List.length (payload f)) in
  ((if fin f then 128 else 0) + opcode f) ::
  match masking_key f with
  | None => length_code n :: extended_length n ++ payload f
  | Some key => 128 + length_code n :: extended_length n ++ key ++ mask key (payload f)
  end.

(** The payload of a text frame that carries the envelope [v]. *)
Definition text (v : JS.value) : list Z :=
  match JSON.stringify v with
  | Some t => JS.utf8 t
  | None => []
  end.

Definition is_byte (b : Z) : Prop := 0 <= b < 256.

(** A frame the format can carry: a 4-bit opcode, bytes, a 4-byte key;
    [limit] bounds the payload length. *)
Definition valid (limit : Z) (f : frame) : Prop :=
  0 <= opcode f < 16 /\
  Forall is_byte (payload f) /\
  Z.of_nat (List.length (payload f)) < limit /\
  match masking_key f with
  | None => True
  | Some key => List.length key = 4%nat /\ Forall is_byte key
  end.

(** The same, decided. *)
Definition is_byteb (b : Z) : bool := (0 <=? b) && (b <? 256).

Definition validb (limit : Z) (f : frame) : bool :=
  (0 <=? opcode f) && (opcode f <? 16) &&
  forallb is_byteb (payload f) &&
  (Z.of_nat (List.length (payload f)) <? limit) &&
  match masking_key f with
  | None => true
  | Some key => (List.length key =? 4)%nat && forallb is_byteb key
  end.

End Wire.

Module Observe.
Import JS Eff.

(** The bytes a run wrote to the socket, in order. *)
Definition written (t : list Server.event) : list Z :=
  List.concat (flat_map (fun e => match e with
                                  | Server.Write b => [b]
                                  | _ => []
                                  end) t).

(** How many events of a kind a run has. *)
Definition count {E : Type} (p : E -> bool) (t : list E) : nat :=
  List.length (List.filter p t).

Definition is_handler (e : Server.event) : bool :=
  match e with Server.Handler _ => true | _ => false end.

Definition is_close_handler (e : Server.event) : bool :=
  match e with Server.CloseHandler _ => true | _ => false end.

Definition is_client_close_handler (e : Client.event) : bool :=
  match e with Client.CloseHandler _ => true | _ => false end.

(** How often a run called the connection handler of the application,
    and its close callback. *)
Definition handler_calls (t : list Server.event) : nat := count is_handler t.
Definition close_calls (t : list Server.event) : nat := count is_close_handler t.
Definition client_close_calls (t : list Client.event) : nat :=
  count is_client_close_handler t.

(** The texts a client run sent to the server, in order. *)
Definition sent (t : list Client.event) : list jsstring :=
  flat_map (fun e => match e with
                     | Client.WsSend text => [text]
                     | _ => []
                     end) t.

Definition flag (b : bool) : nat := if b then 1%nat else 0%nat.

(** The flags of the two sessions as numbers: a callback that runs once
    is counted against them. *)
Definition started_weight (s : Server.conn) : nat := flag (Server.started s).
Definition closed_weight (s : Server.conn) : nat := flag (Server.closed s).
Definition client_closed_weight (s : Client.session) : nat :=
  flag (Client.permanentlyClosed s).

(** A computation tracks the weight [w] of the state with the events
    that [p] selects when the number of such events it produces, added
    to the weight before, is related by [R] to the weight after: with
    the equality the events are counted, with the order they are
    bounded. *)
Definition tracks {S E A : Type} (p : E -> bool) (w : S -> nat) (R : nat -> nat -> Prop)
    (m : M S E A) : Prop :=
  forall s : S, R (count p (trace (m s)) + w s)%nat (w (state (m s))).

(** A computation that ends within the fuel its loops were given. *)
Definition returns {S E A : Type} (m : M S E A) : Prop :=
  forall s : S, outcome (m s) <> Timeout.

(** A result with events before it, with its state changed. *)
Definition prepend {S E A : Type} (t : list E) (r : result S E A) : result S E A :=
  Result (state r) (t ++ trace r) (outcome r).

Definition mapstate {S E A : Type} (g : S -> S) (r : result S E A) : result S E A :=
  Result (g (state r)) (trace r) (outcome r).

Definition cmap {A B : Type} (f : A -> B) (c : completion A) : completion B :=
  match c with
  | Normal a => Normal (f a)
  | Throw e => Throw e
  | Timeout => Timeout
  end.

(** More kinds of events: what the server writes; what the client does
    to its WebSocket; its disconnect callback. *)
Definition is_write (e : Server.event) : bool :=
  match e with Server.Write _ => true | _ => false end.

(** The three writes of the [close] envelope, counted against [closed]. *)
Definition close_writes (s : Server.conn) : nat := (3 * flag (Server.closed s))%nat.

Definition is_socket_call (e : Client.event) : bool :=
  match e with
  | Client.WsNew | Client.WsSend _ | Client.WsClose => true
  | _ => false
  end.

Definition is_disconnect_handler (e : Client.event) : bool :=
  match e with Client.DisconnectHandler _ => true | _ => false end.

Definition is_opened (o : Client.op) : bool :=
  match o with Client.Opened _ => true | _ => false end.

Definition disconnected_weight (s : Client.session) : nat :=
  flag (Client.temporarilyDisconnected s).

(** The text [websocket.send(JSON.stringify(x))] sends. *)
Definition wire_text (x : JS.value) : JS.jsstring :=
  match JSON.stringify x with
  | Some text => text
  | None => JS.ToString JS.VUndefined
  end.

(** The envelopes the client sends. *)
Definition message_envelope (type : JS.jsstring) (message : JS.value) : JS.value :=
  JS.VObject [(JS.js "type", JS.VString (JS.js "message"));
              (JS.js "messageType", JS.VString type);
              (JS.js "message", message)].

Definition reconnect_envelope (reconnectData : JS.value) : JS.value :=
  JS.VObject [(JS.js "type", JS.VString (JS.js "reconnect"));
              (JS.js "reconnectData", reconnectData)].

(** A computation of the client that, on a permanently closed session,
    leaves it closed and does nothing to a WebSocket. *)
Definition silent {A : Type} (m : Client.M A) : Prop :=
  forall s : Client.session,
    Client.permanentlyClosed s = true ->
    Client.permanentlyClosed (state (m s)) = true /\
    count is_socket_call (trace (m s)) = 0%nat.

(** The calls of the session handle of the server, and of the session
    object of the client, among the steps. *)
Definition is_method (o : Server.op) : bool :=
  match o with
  | Server.Send _ _ | Server.Receive _ _ | Server.Close_ _ => true
  | _ => false
  end.

Definition is_client_method (o : Client.op) : bool :=
  match o with
  | Client.Send _ _ | Client.Receive _ _ | Client.Disconnect _
  | Client.Reconnect _ | Client.Close_ _ => true
  | _ => false
  end.

End Observe.

(* ================================================================== *)
(** ** The decoder, seen frame by frame *)
(* ================================================================== *)

(** The listener reads a header, then works on a whole frame.  These
    definitions name the two halves of [Server.frame] ([frame_scan]
    proves that they are its halves) and the runs the chunking theorem
    is about. *)
Module Analysis.
Import JS Eff Server Observe.
Local Open Scope eff_scope.

(** What the header checks of [frame] find in the buffer. *)
Record head : Type := Head {
  h_fin : bool;
  h_opcode : Z;
  h_mask : bool;
  h_key : Buffer.buffer;
  h_length : Z;
  h_start : Z }.

Inductive scanned : Type :=
| Incomplete
| CloseFrame
| Ready (h : head).

Definition scan_length (d : Buffer.buffer) : option (Z * Z) :=
  let b1 := Buffer.at_ d 1 in
  if band b1 127 <? 126 then Some (band b1 127, 2)
  else if band b1 127 =? 126 then
    if Buffer.length d <? 4 then None
    else Some (Buffer.at_ d 2 * 256 + Buffer.at_ d 3, 4)
  else
    if Buffer.length d <? 10 then None
    else Some (shl (Buffer.at_ d 2 * 16777216 + Buffer.at_ d 3 * 65536 +
                    Buffer.at_ d 4 * 256 + Buffer.at_ d 5) 32 +
               (Buffer.at_ d 6 * 16777216 + Buffer.at_ d 7 * 65536 +
                Buffer.at_ d 8 * 256 + Buffer.at_ d 9), 10).

Definition scan (d : Buffer.buffer) : scanned :=
  if Buffer.length d <? 1 then Incomplete
  else
    let b0 := Buffer.at_ d 0 in
    if band b0 15 =? 8 then CloseFrame
    else if Buffer.length d <? 2 then Incomplete
    else
      let mask := shr (Buffer.at_ d 1) 7 =? 1 in
      match scan_length d with
      | None => Incomplete
      | Some (payloadLength, nextByteIndex) =>
          match read_key mask d nextByteIndex with
          | None => Incomplete
          | Some (maskingKey, nextByteIndex) =>
              if Buffer.length d <? nextByteIndex + payloadLength then Incomplete
              else Ready (Head (shr b0 7 =? 1) (band b0 15) mask maskingKey
                               payloadLength nextByteIndex)
          end
      end.

(** The connection with [b] more bytes in its buffer. *)
Definition more (b : Buffer.buffer) (s : conn) : conn :=
  set_dataReceived (dataReceived s ++ b) s.

Definition after {A} (b : Buffer.buffer) (r : result conn event A) : result conn event A :=
  if closed (state r) then r else mapstate (more b) r.

(** The JSON text of the [close] envelope, in bytes, and the events of
    a [close] that finds the connection open. *)
Definition close_text : list Z :=
  [123; 34; 116; 121; 112; 101; 34; 58; 34; 99; 108; 111; 115; 101; 34; 125].

Definition close_events (needToCloseSocket : bool) (s : conn) : list event :=
  (if needToCloseSocket
   then [Write [129]; Write [16]; Write close_text]
   else []) ++
  match closeHandler s with
  | Some f => [CloseHandler f]
  | None => []
  end.

(** The header of a frame on the wire, and what [scan] finds of it. *)
Definition header (f : Wire.frame) : list Z :=
  let n := Z.of_nat (List.length (Wire.payload f)) in
  ((if Wire.fin f then 128 else 0) + Wire.opcode f) ::
  match Wire.masking_key f with
  | None => Wire.length_code n :: Wire.extended_length n
  | Some key => 128 + Wire.length_code n :: Wire.extended_length n ++ key
  end.

Definition head_of (f : Wire.frame) : head :=
  Head (Wire.fin f) (Wire.opcode f)
       (match Wire.masking_key f with Some _ => true | None => false end)
       (match Wire.masking_key f with Some key => key | None => [] end)
       (Z.of_nat (List.length (Wire.payload f)))
       (Buffer.length (header f)).

Definition stream (fs : list Wire.frame) : list Z := List.concat (map Wire.encode fs).

Section Frames.
Variable JSON_parse : jsstring -> option value.
Variable toString : Buffer.buffer -> jsstring.

(** What [frame] does once the whole frame is in the buffer: it
    decrypts the payload where it lies, then takes it. *)
Definition decrypt (h : head) : M unit :=
  if h_mask h then
    d <- gets dataReceived ;;
    d' <- lift (unmask (Z.to_nat (h_length h)) 0 (h_key h) (h_start h) d) ;;
    modify (set_dataReceived d')
  else ret tt.

Definition take (h : head) : M bool :=
  d <- gets dataReceived ;;
  p <- gets payloadReceived ;;
  p' <- lift (Buffer.concat
                [p; Buffer.slice d (h_start h) (h_start h + h_length h)]
                (Buffer.length p + h_length h)) ;;
  modify (set_payloadReceived p') ;;
  go <- (if h_fin h then deliver JSON_parse toString (h_opcode h) else ret true) ;;
  if go then free (h_start h + h_length h) ;; ret true
  else ret false.

Definition body (h : head) : M bool := decrypt h ;; take h.

(** The loop with the fuel [on_data] gives it. *)
Definition loop (s : conn) : result conn event unit :=
  frames JSON_parse toString (turns s) s.

(** The runs of the loop in which every frame has a length of zero or
    more, and which return. *)
Inductive regular : conn -> Prop :=
| regular_wait (s : conn) :
    scan (dataReceived s) = Incomplete -> regular s
| regular_close (s : conn) :
    scan (dataReceived s) = CloseFrame -> regular s
| regular_end (s : conn) (h : head) :
    scan (dataReceived s) = Ready h -> 0 <= h_length h ->
    outcome (body h s) = Normal false -> regular s
| regular_turn (s : conn) (h : head) :
    scan (dataReceived s) = Ready h -> 0 <= h_length h ->
    outcome (body h s) = Normal true ->
    regular (state (body h s)) -> regular s.

(** What a whole frame of the wire format does to the connection: its
    payload, in clear, joins the payload received so far; with FIN the
    message is delivered; the bytes of the frame leave the buffer. *)
Definition accept (f : Wire.frame) (rest : list Z) : M bool :=
  modify (set_dataReceived (header f ++ Wire.payload f ++ rest)) ;;
  modify (fun s => set_payloadReceived (payloadReceived s ++ Wire.payload f) s) ;;
  go <- (if Wire.fin f then deliver JSON_parse toString (Wire.opcode f) else ret true) ;;
  if go then modify (set_dataReceived rest) ;; ret true
  else ret false.

End Frames.

(** The envelopes of several messages, dispatched one after the other. *)
Fixpoint dispatch_all (vs : list value) : M unit :=
  match vs with
  | [] => ret tt
  | v :: rest => dispatch v ;; dispatch_all rest
  end.

End Analysis.

(* ================================================================== *)
(** ** Runs that are evaluated *)
(* ================================================================== *)

(** The frames and states at which the theorems below are instantiated. *)
Module Examples.
Import JS.

Definition connect_envelope : value := VObject [(js "type", VString (js "connect"))].

Definition greeting_envelope : value :=
  VObject [(js "type", VString (js "message"));
           (js "messageType", VString (js "greeting"));
           (js "message", VString (js "hi"))].

(** The browser masks what it sends. *)
Definition connect_frame : Wire.frame :=
  Wire.Frame true 1 (Some [55; 250; 33; 61]) (Wire.text connect_envelope).

Definition greeting_frame : Wire.frame :=
  Wire.Frame true 1 (Some [18; 52; 86; 120]) (Wire.text greeting_envelope).

(** A text frame whose payload is the three letters [abc], which is no
    JSON text, and a frame with the reserved opcode 3 and the one byte
    [x]. *)
Definition letters_frame : Wire.frame := Wire.Frame true 1 (Some [1; 2; 3; 4]) [97; 98; 99].

Definition reserved_frame : Wire.frame := Wire.Frame true 3 None [120].

(** A message whose type names the prototype of every object. *)
Definition inherited_envelope : value :=
  VObject [(js "type", VString (js "message"));
           (js "messageType", VString (js "__proto__"));
           (js "message", VString (js "hi"))].

Definition inherited_frame : Wire.frame :=
  Wire.Frame true 1 (Some [1; 2; 3; 4]) (Wire.text inherited_envelope).

(** A text frame whose payload is the JSON text [null]. *)
Definition null_frame : Wire.frame := Wire.Frame true 1 (Some [1; 2; 3; 4]) (Wire.text VNull).

(** A connection whose application listens to greetings and to the close. *)
Definition listening : Server.conn :=
  Eff.state (Server.close_ (VFunction 5%nat)
    (Eff.state (Server.receive (VString (js "greeting")) (VFunction 3%nat) Server.init))).

(** The stream of the two envelopes, cut inside the first header,
    inside the first payload and inside the second frame. *)
Definition two_frames : list Wire.frame := [connect_frame; greeting_frame].

Definition three_chunks : list Buffer.buffer :=
  let bytes := Analysis.stream two_frames in
  [firstn 1 bytes; firstn 9 (skipn 1 bytes); firstn 25 (skipn 10 bytes); skipn 35 bytes].

(** A client session whose WebSocket is open, with a close callback. *)
Definition open_session : Client.session :=
  Eff.state (Client.close_ (VFunction 5%nat)
    (Eff.state ((Eff.bind (Eff.modify (Client.set_websocket Client.OPEN))
                          (fun _ => Client.onSocketOpen VUndefined))
                  (Eff.state Client.connect)))).

(** The same session after its socket was lost, and after it was
    closed for good. *)
Definition disconnected_session : Client.session :=
  Eff.state (Client.step JSON.parse Client.Closed open_session).

Definition closed_session : Client.session :=
  Eff.state (Client.close open_session).

(** The [connect] envelope in two frames: its first five bytes without
    FIN, the others in a text frame, or in a continuation frame as the
    protocol has it. *)
Definition first_fragment : Wire.frame :=
  Wire.Frame false 1 (Some [9; 8; 7; 6]) (firstn 5 (Wire.text connect_envelope)).

Definition last_fragment (opcode : Z) : Wire.frame :=
  Wire.Frame true opcode (Some [1; 1; 2; 3]) (skipn 5 (Wire.text connect_envelope)).

End Examples.

(* ================================================================== *)
(** * Properties *)
(* ================================================================== *)

Import JS Eff.

(** ** The length field *)

Lemma payloadLengthBuffer_small (n : Z) :
  0 <= n < 126 -> Server.payloadLengthBuffer n = Normal [n].
Proof.
  intros H. unfold Server.payloadLengthBuffer.
  destruct (Z.ltb_spec n 126) as [_|]; [|lia].
  unfold Buffer.from_array. simpl. rewrite Z.mod_small by lia. reflexivity.
Qed.

Lemma payloadLengthBuffer_medium (n : Z) :
  126 <= n < 65536 ->
  Server.payloadLengthBuffer n = Normal (126 :: Wire.be 2 n).
Proof.
  intros H. unfold Server.payloadLengthBuffer.
  destruct (Z.ltb_spec n 126); [lia|].
  destruct (Z.ltb_spec n 65536) as [_|]; [|lia].
  cbn [Buffer.writeUInt8 Buffer.alloc and_then].
  change (Buffer.writeUInt8 126 0 (Buffer.alloc 3)) with (Normal (A:=Buffer.buffer) [126; 0; 0]).
  cbn [and_then]. unfold Buffer.writeUInt16BE.
  replace ((0 <=? n) && (n <=? 65535) && Buffer.in_range [126; 0; 0] 1 2) with true.
  2:{ symmetry. rewrite !andb_true_iff. repeat split; apply Z.leb_le; lia. }
  unfold Wire.be, Buffer.set_. cbn.
  rewrite Z.div_1_r, (Z.mod_small (n / 256)); [reflexivity|].
  split; [apply Z.div_pos; lia | apply Z.div_lt_upper_bound; lia].
Qed.

Lemma payloadLengthBuffer_large (n : Z) :
  65536 <= n -> Server.payloadLengthBuffer n = Throw RangeError.
Proof.
  intros H. unfold Server.payloadLengthBuffer.
  destruct (Z.ltb_spec n 126); [lia|].
  destruct (Z.ltb_spec n 65536); [lia|].
  change (Buffer.writeUInt8 127 0 (Buffer.alloc 9))
    with (Normal (A:=Buffer.buffer) [127; 0; 0; 0; 0; 0; 0; 0; 0]).
  cbn [and_then].
  change (Buffer.writeUInt16BE 0 1 [127; 0; 0; 0; 0; 0; 0; 0; 0])
    with (Normal (A:=Buffer.buffer) [127; 0; 0; 0; 0; 0; 0; 0; 0]).
  cbn [and_then]. unfold Buffer.writeUInt16BE.
  destruct (Z.leb_spec n 65535); [lia|].
  rewrite andb_false_r. reflexivity.
Qed.

Lemma sendMessage_open (s : Server.conn) (message : value) (data : jsstring) :
  Server.closed s = false ->
  JSON.stringify message = Some data ->
  Server.sendMessage message s =
    match Server.payloadLengthBuffer (Z.of_nat (List.length data)) with
    | Normal b =>
        Result s [Server.Write [129]; Server.Write b; Server.Write (utf8 data)] (Normal tt)
    | Throw e => Result s [Server.Write [129]] (Throw e)
    | Timeout => Result s [Server.Write [129]] Timeout
    end.
Proof.
  intros Hc Hd. unfold Server.sendMessage, bind, gets, emit, lift. cbn.
  rewrite Hc, Hd. cbn.
  destruct (Server.payloadLengthBuffer _); reflexivity.
Qed.

(** C3, at a message whose JSON text has 65536 characters: the third
    tier of the encoder writes the first header byte and then throws,
    where the length should follow the marker 127 as a 64-bit
    big-endian integer. *)
Theorem sendMessage_65536 :
  let message := VString (repeat 97 (Z.to_nat 65534)) in
  option_map (fun data => Z.of_nat (List.length data)) (JSON.stringify message) = Some 65536 /\
  Server.sendMessage message Server.init =
    Result Server.init [Server.Write [129]] (Throw RangeError).
Proof. vm_compute. split; reflexivity. Qed.

(** Every payload of 65536 characters or more meets the same end. *)
Lemma sendMessage_large (s : Server.conn) (message : value) (data : jsstring) :
  Server.closed s = false ->
  JSON.stringify message = Some data ->
  65536 <= Z.of_nat (List.length data) ->
  Server.sendMessage message s = Result s [Server.Write [129]] (Throw RangeError).
Proof.
  intros Hc Hd Hl. rewrite (sendMessage_open s message data Hc Hd).
  rewrite payloadLengthBuffer_large by exact Hl. reflexivity.
Qed.

(** The first two tiers are as the frame format has them. *)
Lemma sendMessage_header (s : Server.conn) (message : value) (data : jsstring) :
  Server.closed s = false ->
  JSON.stringify message = Some data ->
  Z.of_nat (List.length data) < 65536 ->
  let n := Z.of_nat (List.length data) in
  Server.sendMessage message s =
    Result s [Server.Write [129];
              Server.Write (Wire.length_code n :: Wire.extended_length n);
              Server.Write (utf8 data)] (Normal tt).
Proof.
  intros Hc Hd Hl n. rewrite (sendMessage_open s message data Hc Hd). fold n.
  unfold Wire.length_code, Wire.extended_length.
  destruct (Z.ltb_spec n 126).
  - rewrite payloadLengthBuffer_small by lia. reflexivity.
  - destruct (Z.ltb_spec n 65536); [|lia].
    rewrite payloadLengthBuffer_medium by lia. reflexivity.
Qed.

(** ** The 64-bit length *)

(** C4, at the 8 bytes of the length 4 GiB: the decoder computes 1,
    because the shift count 32 is taken modulo 32. *)
Theorem read_length_4GiB :
  let header := [129; 127; 0; 0; 0; 1; 0; 0; 0; 0] in
  Wire.value_be (Buffer.slice header 2 10) = 4294967296 /\
  Server.read_length header 1 = Normal (Some (1, 10)).
Proof. vm_compute. split; reflexivity. Qed.

Lemma shl_32 (x : Z) : shl x 32 = ToInt32 x.
Proof.
  unfold shl, ToUint32. change (32 mod 2 ^ 32 mod 32) with 0.
  rewrite Z.shiftl_0_r. unfold ToInt32.
  rewrite Z.sub_add. rewrite Z.mod_mod by lia. reflexivity.
Qed.

(** ** The round trip *)

(** C1, at a message whose JSON text has 65536 characters: the bytes
    the encoder wrote for it are the single byte 129, from which the
    decoder gets no message. *)
Theorem roundtrip_65536 :
  let message := VString (repeat 97 (Z.to_nat 65534)) in
  let sent := Server.sendMessage message Server.init in
  Observe.written (trace sent) = [129] /\
  Server.on_data JSON.parse Buffer.toString (Observe.written (trace sent)) Server.init =
    Result (Server.set_dataReceived [129] Server.init) [] (Normal tt).
Proof. vm_compute. split; reflexivity. Qed.

(** ** The handshake *)

Lemma sha1_length (msg : list Z) : List.length (Crypto.sha1 msg) = 20%nat.
Proof.
  unfold Crypto.sha1.
  destruct (Crypto.blocks _ _ _) as [[[[h0 h1] h2] h3] h4].
  rewrite !length_app. reflexivity.
Qed.

(** C5: the response to an accepted upgrade carries
    base64(SHA-1(key + GUID)) as its accept token; the token is a
    function of the key; the key of the sample handshake yields the
    token of the sample handshake. *)
Theorem accept_token (headers : gmap jsstring jsstring) (u key : jsstring) :
  headers !! js "upgrade" = Some u ->
  toLowerCase u = js "websocket" ->
  headers !! js "sec-websocket-version" = Some (js "13") ->
  headers !! js "sec-websocket-key" = Some key ->
  let token := Crypto.base64 20 (Crypto.sha1 (utf8 (key ++ js "258EAFA5-E914-47DA-95CA-C5AB0DC85B11"))) in
  Server.upgrade headers =
    ([Server.Write
        (utf8 (js "HTTP/1.1 101 Switching Protocols" ++ [13; 10] ++
               js "Upgrade: websocket" ++ [13; 10] ++
               js "Connection: Upgrade" ++ [13; 10] ++
               js "Sec-WebSocket-Accept: " ++ token ++ [13; 10] ++
               [13; 10]))],
     Normal (Some Server.init)) /\
  (forall key', key' = key -> Server.accept (Some key') = token) /\
  Server.accept (Some (js "dGhlIHNhbXBsZSBub25jZQ==")) = js "s3pPLMBiTxaQ9kYGzzhZRbK+xOo=".
Proof.
  intros Hu Hl Hv Hk token.
  assert (Ht : Server.accept (Some key) = token).
  { unfold Server.accept, Crypto.sha1_base64, token. cbn [Server.header_text].
    rewrite sha1_length. reflexivity. }
  split; [|split].
  - unfold Server.upgrade. rewrite Hu, Hl, Hv, Hk.
    rewrite !bool_decide_eq_true_2 by reflexivity.
    unfold Server.response. rewrite Ht. reflexivity.
  - intros key' ->. exact Ht.
  - vm_compute. reflexivity.
Qed.

Lemma accept_token_witness :
  Server.upgrade
    (<[js "upgrade" := js "WebSocket"]>
       (<[js "sec-websocket-version" := js "13"]>
          (<[js "sec-websocket-key" := js "dGhlIHNhbXBsZSBub25jZQ=="]> ∅))) =
    ([Server.Write
        (utf8 (js "HTTP/1.1 101 Switching Protocols" ++ [13; 10] ++
               js "Upgrade: websocket" ++ [13; 10] ++
               js "Connection: Upgrade" ++ [13; 10] ++
               js "Sec-WebSocket-Accept: s3pPLMBiTxaQ9kYGzzhZRbK+xOo=" ++ [13; 10] ++
               [13; 10]))],
     Normal (Some Server.init)).
Proof.
  refine (eq_trans (proj1 (accept_token _ (js "WebSocket") (js "dGhlIHNhbXBsZSBub25jZQ==") _ _ _ _)) _);
    vm_compute; reflexivity.
Defined.

(** ** Registration after close *)

(** C10, at [close(handler)] on a session closed before: the call
    returns and stores the handler, where [receive], [disconnect] and
    [reconnect] throw. *)
Theorem close_registers_after_close :
  let s := state (Client.close_ VUndefined (state Client.connect)) in
  Client.permanentlyClosed s = true /\
  Client.close_ (VFunction 7%nat) s =
    Result (Client.set_closeHandler (Some 7%nat) s) [] (Normal tt).
Proof. vm_compute. split; reflexivity. Qed.

(** X22: on a permanently closed session the three other registering
    methods, [receive], [disconnect] and [reconnect], throw and leave
    the session as it was, whatever their arguments. *)
Lemma registration_rejected (s : Client.session) (type handler : value) :
  Client.permanentlyClosed s = true ->
  (exists e, Client.receive type handler s = Result s [] (Throw e)) /\
  (exists e, Client.disconnect handler s = Result s [] (Throw e)) /\
  (exists e, Client.reconnect handler s = Result s [] (Throw e)).
Proof.
  intros Hc. repeat split.
  - unfold Client.receive. destruct type; try (eexists; reflexivity).
    destruct (Client.bad_handler handler); [eexists; reflexivity|].
    unfold bind, gets, throw, lift. cbn. rewrite Hc. eexists; reflexivity.
  - unfold Client.disconnect.
    destruct (Client.bad_handler handler); [eexists; reflexivity|].
    unfold bind, gets, throw, lift. cbn. rewrite Hc. eexists; reflexivity.
  - unfold Client.reconnect.
    destruct (Client.bad_handler handler); [eexists; reflexivity|].
    unfold bind, gets, throw, lift. cbn. rewrite Hc. eexists; reflexivity.
Qed.

(* ================================================================== *)
(** ** The laws of the monad *)
(* ================================================================== *)

Section Laws.
Import Observe.
Context {S E : Type}.
Implicit Types s : S.

Lemma prepend_nil {A} (r : result S E A) : prepend [] r = r.
Proof. destruct r; reflexivity. Qed.

Lemma prepend_app {A} (t t' : list E) (r : result S E A) :
  prepend t (prepend t' r) = prepend (t ++ t') r.
Proof. unfold prepend. cbn. rewrite app_assoc. reflexivity. Qed.

Lemma bind_ret {A B} (a : A) (k : A -> M S E B) s : bind (ret a) k s = k a s.
Proof. unfold bind, ret. cbn. destruct (k a s); reflexivity. Qed.

Lemma bind_gets {A B} (f : S -> A) (k : A -> M S E B) s :
  bind (gets f) k s = k (f s) s.
Proof. unfold bind, gets. cbn. destruct (k (f s) s); reflexivity. Qed.

Lemma bind_modify {B} (f : S -> S) (k : unit -> M S E B) s :
  bind (modify f) k s = k tt (f s).
Proof. unfold bind, modify. cbn. destruct (k tt (f s)); reflexivity. Qed.

Lemma bind_emit {B} (e : E) (k : unit -> M S E B) s :
  bind (emit e) k s = prepend [e] (k tt s).
Proof. reflexivity. Qed.

Lemma bind_lift {A B} (c : completion A) (k : A -> M S E B) s :
  bind (lift c) k s =
    match c with
    | Normal a => k a s
    | Throw e => Result s [] (Throw e)
    | Timeout => Result s [] Timeout
    end.
Proof. unfold bind, lift. destruct c; cbn; try reflexivity. destruct (k a s); reflexivity. Qed.

Lemma bind_throw {A B} (e : exn) (k : A -> M S E B) s :
  bind (throw e) k s = Result s [] (Throw e).
Proof. reflexivity. Qed.

Lemma bind_bind {A B C} (m : M S E A) (k : A -> M S E B) (k' : B -> M S E C) s :
  bind (bind m k) k' s = bind m (fun a => bind (k a) k') s.
Proof.
  unfold bind. destruct (m s) as [s1 t1 [a| |]]; cbn; try reflexivity.
  destruct (k a s1) as [s2 t2 [b| |]]; cbn; try reflexivity.
  rewrite app_assoc. reflexivity.
Qed.

(** [bind] seen from the result of its first part. *)
Lemma bind_result {A B} (m : M S E A) (k : A -> M S E B) s :
  bind m k s =
    match outcome (m s) with
    | Normal a => prepend (trace (m s)) (k a (state (m s)))
    | Throw e => Result (state (m s)) (trace (m s)) (Throw e)
    | Timeout => Result (state (m s)) (trace (m s)) Timeout
    end.
Proof. reflexivity. Qed.

End Laws.

(** Nested [bind]s, in normal form. *)
Ltac mnorm :=
  repeat (progress (rewrite ?bind_bind, ?bind_ret, ?bind_modify, ?bind_gets; cbv iota)).

(* ================================================================== *)
(** ** The listener, frame by frame *)
(* ================================================================== *)

(** One turn of the loop is the header checks, which [scan] decides on
    the buffer alone, followed by [body] on a whole frame.  What a turn
    does with a frame does not depend on the bytes after the frame: the
    chunking theorem rests on this. *)
Module Framing.
Import Server Analysis Observe.

Section Header.
Variable JSON_parse : jsstring -> option value.
Variable toString : Buffer.buffer -> jsstring.
Local Open Scope eff_scope.

Lemma read8 d i : 0 <= i -> i + 1 <= Buffer.length d ->
  Buffer.readUInt8 d i = Normal (Buffer.at_ d i).
Proof.
  intros. unfold Buffer.readUInt8, Buffer.in_range.
  destruct (Z.leb_spec 0 i); [|lia]. destruct (Z.leb_spec (i + 1) (Buffer.length d)); [|lia].
  reflexivity.
Qed.

Lemma read16 d i : 0 <= i -> i + 2 <= Buffer.length d ->
  Buffer.readUInt16BE d i = Normal (Buffer.at_ d i * 256 + Buffer.at_ d (i + 1)).
Proof.
  intros. unfold Buffer.readUInt16BE, Buffer.in_range.
  destruct (Z.leb_spec 0 i); [|lia]. destruct (Z.leb_spec (i + 2) (Buffer.length d)); [|lia].
  reflexivity.
Qed.

Lemma read32 d i : 0 <= i -> i + 4 <= Buffer.length d ->
  Buffer.readUInt32BE d i =
    Normal (Buffer.at_ d i * 16777216 + Buffer.at_ d (i + 1) * 65536 +
            Buffer.at_ d (i + 2) * 256 + Buffer.at_ d (i + 3)).
Proof.
  intros. unfold Buffer.readUInt32BE, Buffer.in_range.
  destruct (Z.leb_spec 0 i); [|lia]. destruct (Z.leb_spec (i + 4) (Buffer.length d)); [|lia].
  reflexivity.
Qed.

Lemma read_length_scan d : 2 <= Buffer.length d ->
  read_length d 1 = Normal (scan_length d).
Proof.
  intros H. unfold read_length, scan_length.
  rewrite read8 by lia. cbn [and_then].
  destruct (band (Buffer.at_ d 1) 127 <? 126); [reflexivity|].
  destruct (band (Buffer.at_ d 1) 127 =? 126).
  - change (1 + 3) with 4. destruct (Z.ltb_spec (Buffer.length d) 4); [reflexivity|].
    rewrite read16 by lia. reflexivity.
  - change (1 + 9) with 10. destruct (Z.ltb_spec (Buffer.length d) 10); [reflexivity|].
    rewrite !read32 by lia. reflexivity.
Qed.

Lemma frame_scan (s : conn) :
  frame JSON_parse toString s =
    match scan (dataReceived s) with
    | Incomplete => Result s [] (Normal false)
    | CloseFrame => (close true ;; ret false) s
    | Ready h => body JSON_parse toString h s
    end.
Proof.
  unfold frame, scan. rewrite bind_gets.
  change (0 + 1) with 1.
  destruct (Z.ltb_spec (Buffer.length (dataReceived s)) 1) as [|H1]; [reflexivity|].
  rewrite read8, bind_lift by lia.
  destruct (band (Buffer.at_ (dataReceived s) 0) 15 =? 8); [reflexivity|].
  change (1 + 1) with 2.
  destruct (Z.ltb_spec (Buffer.length (dataReceived s)) 2) as [|H2]; [reflexivity|].
  rewrite read8, bind_lift by lia.
  rewrite read_length_scan, bind_lift by lia.
  destruct (scan_length (dataReceived s)) as [[pl nbi]|]; [|reflexivity].
  destruct (read_key _ _ _) as [[key nbi']|]; [|reflexivity].
  destruct (_ <? _); [reflexivity|].
  unfold body, decrypt, take. cbn [h_mask h_length h_key h_start h_fin h_opcode].
  destruct (shr (Buffer.at_ (dataReceived s) 1) 7 =? 1).
  - rewrite !bind_bind, !bind_gets. rewrite !(bind_bind (lift _)).
    rewrite !bind_lift. destruct (unmask _ _ _ _ _); reflexivity.
  - reflexivity.
Qed.

End Header.

(** *** Buffers *)

Lemma length_app_Z (d b : Buffer.buffer) :
  Buffer.length (d ++ b) = Buffer.length d + Buffer.length b.
Proof. unfold Buffer.length. rewrite length_app. lia. Qed.

Lemma length_nonneg (d : Buffer.buffer) : 0 <= Buffer.length d.
Proof. unfold Buffer.length. lia. Qed.

Lemma at_app (d b : Buffer.buffer) (i : Z) :
  0 <= i < Buffer.length d -> Buffer.at_ (d ++ b) i = Buffer.at_ d i.
Proof.
  intros H. unfold Buffer.at_. apply app_nth1. unfold Buffer.length in H. lia.
Qed.

Lemma adjust_inner (x len : Z) : 0 <= x <= len -> Buffer.adjustOffset x len = x.
Proof.
  intros H. unfold Buffer.adjustOffset.
  destruct (Z.ltb_spec x 0); [lia|]. destruct (Z.ltb_spec x len); lia.
Qed.

Lemma slice_inner (d : Buffer.buffer) (a e : Z) :
  0 <= a -> a <= e -> e <= Buffer.length d ->
  Buffer.slice d a e = firstn (Z.to_nat (e - a)) (skipn (Z.to_nat a) d).
Proof.
  intros. unfold Buffer.slice. rewrite !adjust_inner by lia. reflexivity.
Qed.

Lemma slice_app (d b : Buffer.buffer) (a e : Z) :
  0 <= a -> a <= e -> e <= Buffer.length d ->
  Buffer.slice (d ++ b) a e = Buffer.slice d a e.
Proof.
  intros. pose proof (length_nonneg b).
  rewrite !slice_inner by (rewrite ?length_app_Z; lia).
  unfold Buffer.length in *.
  rewrite skipn_app, firstn_app.
  replace (Z.to_nat a - List.length d)%nat with 0%nat by lia.
  rewrite length_skipn.
  replace (Z.to_nat (e - a) - (List.length d - Z.to_nat a))%nat with 0%nat by lia.
  cbn. rewrite app_nil_r. reflexivity.
Qed.

Lemma slice_from_inner (d : Buffer.buffer) (a : Z) :
  0 <= a <= Buffer.length d -> Buffer.slice_from d a = skipn (Z.to_nat a) d.
Proof.
  intros. unfold Buffer.slice_from. rewrite slice_inner by lia.
  apply firstn_all2. rewrite length_skipn. unfold Buffer.length. lia.
Qed.

Lemma slice_length_le (d : Buffer.buffer) (a e : Z) :
  (List.length (Buffer.slice d a e) <= List.length d)%nat.
Proof.
  unfold Buffer.slice. rewrite length_firstn, length_skipn. lia.
Qed.

Lemma concat_exact (p q : Buffer.buffer) :
  Buffer.concat [p; q] (Buffer.length p + Buffer.length q) = Normal (p ++ q).
Proof.
  unfold Buffer.concat. pose proof (length_nonneg p). pose proof (length_nonneg q).
  destruct (Z.ltb_spec (Buffer.length p + Buffer.length q) 0); [lia|].
  cbn [List.concat]. rewrite app_nil_r. f_equal.
  rewrite firstn_app.
  replace (Z.to_nat (Buffer.length p + Buffer.length q) - List.length (p ++ q))%nat
    with 0%nat by (rewrite length_app; unfold Buffer.length; lia).
  cbn. rewrite app_nil_r. apply firstn_all2.
  rewrite length_app. unfold Buffer.length. lia.
Qed.

Lemma concat_length (bs : list Buffer.buffer) (n : Z) (r : Buffer.buffer) :
  Buffer.concat bs n = Normal r -> Buffer.length r = n /\ 0 <= n.
Proof.
  unfold Buffer.concat. destruct (Z.ltb_spec n 0); [discriminate|].
  intros [= <-]. split; [|lia]. unfold Buffer.length.
  rewrite length_firstn, length_app, repeat_length. lia.
Qed.

(** *** The header checks see a prefix of the buffer *)

Lemma scan_length_app (d b : Buffer.buffer) (l i : Z) :
  2 <= Buffer.length d ->
  scan_length d = Some (l, i) -> scan_length (d ++ b) = Some (l, i).
Proof.
  intros H2. pose proof (length_nonneg b). unfold scan_length.
  rewrite (at_app d b 1) by lia.
  destruct (band (Buffer.at_ d 1) 127 <? 126); [tauto|].
  destruct (band (Buffer.at_ d 1) 127 =? 126).
  - destruct (Z.ltb_spec (Buffer.length d) 4); [discriminate|].
    destruct (Z.ltb_spec (Buffer.length (d ++ b)) 4); [rewrite length_app_Z in *; lia|].
    rewrite !at_app by lia. tauto.
  - destruct (Z.ltb_spec (Buffer.length d) 10); [discriminate|].
    destruct (Z.ltb_spec (Buffer.length (d ++ b)) 10); [rewrite length_app_Z in *; lia|].
    rewrite !at_app by lia. tauto.
Qed.

Lemma scan_length_start (d : Buffer.buffer) (l i : Z) :
  scan_length d = Some (l, i) -> 2 <= i <= 10.
Proof.
  unfold scan_length.
  destruct (_ <? 126); [intros [= <- <-]; lia|].
  destruct (_ =? 126); destruct (_ <? _); try discriminate; intros [= <- <-]; lia.
Qed.

Lemma read_key_app (m : bool) (d b : Buffer.buffer) (i : Z) (key : Buffer.buffer) (i' : Z) :
  0 <= i ->
  read_key m d i = Some (key, i') -> read_key m (d ++ b) i = Some (key, i').
Proof.
  intros Hi. pose proof (length_nonneg b). unfold read_key. destruct m; [|tauto].
  destruct (Z.ltb_spec (Buffer.length d) (i + 4)); [discriminate|].
  destruct (Z.ltb_spec (Buffer.length (d ++ b)) (i + 4)); [rewrite length_app_Z in *; lia|].
  rewrite slice_app by lia. tauto.
Qed.

Lemma read_key_start (m : bool) (d : Buffer.buffer) (i : Z) (key : Buffer.buffer) (i' : Z) :
  read_key m d i = Some (key, i') -> i <= i' <= i + 4.
Proof.
  unfold read_key. destruct m; [destruct (_ <? _); [discriminate|]|]; intros [= <- <-]; lia.
Qed.

Lemma scan_ready (d : Buffer.buffer) (h : head) :
  scan d = Ready h ->
  2 <= h_start h <= 14 /\ h_start h + h_length h <= Buffer.length d.
Proof.
  unfold scan.
  destruct (_ <? 1); [discriminate|]. destruct (_ =? 8); [discriminate|].
  destruct (_ <? 2); [discriminate|].
  destruct (scan_length d) as [[l i]|] eqn:Hl; [|discriminate].
  destruct (read_key _ _ _) as [[key i']|] eqn:Hk; [|discriminate].
  destruct (Z.ltb_spec (Buffer.length d) (i' + l)); [discriminate|].
  intros [= <-]. cbn. apply scan_length_start in Hl. apply read_key_start in Hk. lia.
Qed.

Lemma scan_ready_app (d b : Buffer.buffer) (h : head) :
  scan d = Ready h -> scan (d ++ b) = Ready h.
Proof.
  pose proof (length_nonneg b) as Hb. unfold scan.
  destruct (Z.ltb_spec (Buffer.length d) 1); [discriminate|].
  destruct (Z.ltb_spec (Buffer.length (d ++ b)) 1); [rewrite length_app_Z in *; lia|].
  rewrite (at_app d b 0) by lia.
  destruct (_ =? 8); [discriminate|].
  destruct (Z.ltb_spec (Buffer.length d) 2); [discriminate|].
  destruct (Z.ltb_spec (Buffer.length (d ++ b)) 2); [rewrite length_app_Z in *; lia|].
  rewrite (at_app d b 1) by lia.
  destruct (scan_length d) as [[l i]|] eqn:Hl; [|discriminate].
  rewrite (scan_length_app d b l i) by (assumption || lia).
  destruct (read_key _ d i) as [[key i']|] eqn:Hk; [|discriminate].
  apply scan_length_start in Hl.
  rewrite (read_key_app _ d b i key i') by (assumption || lia).
  destruct (Z.ltb_spec (Buffer.length d) (i' + l)); [discriminate|].
  destruct (Z.ltb_spec (Buffer.length (d ++ b)) (i' + l)); [rewrite length_app_Z in *; lia|].
  tauto.
Qed.

Lemma scan_close_app (d b : Buffer.buffer) :
  scan d = CloseFrame -> scan (d ++ b) = CloseFrame.
Proof.
  pose proof (length_nonneg b) as Hb. unfold scan.
  destruct (Z.ltb_spec (Buffer.length d) 1); [discriminate|].
  destruct (Z.ltb_spec (Buffer.length (d ++ b)) 1); [rewrite length_app_Z in *; lia|].
  rewrite (at_app d b 0) by lia.
  destruct (_ =? 8); [reflexivity|].
  destruct (_ <? 2); [discriminate|].
  destruct (scan_length d) as [[l i]|]; [|discriminate].
  destruct (read_key _ _ _) as [[key i']|]; [|discriminate].
  destruct (_ <? _); discriminate.
Qed.

(** *** Decrypting in place *)

Lemma write8_length v off (d d' : Buffer.buffer) :
  Buffer.writeUInt8 v off d = Normal d' -> List.length d' = List.length d.
Proof.
  unfold Buffer.writeUInt8. destruct (_ && _); [|discriminate].
  intros [= <-]. apply length_insert.
Qed.

Lemma unmask_length n : forall i key start d d',
  unmask n i key start d = Normal d' -> List.length d' = List.length d.
Proof.
  induction n as [|n IH]; intros i key start d d'; cbn [unmask].
  - intros [= <-]. reflexivity.
  - destruct (Buffer.readUInt8 d _); try discriminate. cbn [and_then].
    destruct (Buffer.readUInt8 key _); try discriminate. cbn [and_then].
    destruct (Buffer.writeUInt8 _ _ d) as [d1| |] eqn:Hw; try discriminate. cbn [and_then].
    intros H. apply IH in H. rewrite H. eapply write8_length, Hw.
Qed.

Lemma unmask_app n : forall i key start d b,
  0 <= start + i -> start + i + Z.of_nat n <= Buffer.length d ->
  unmask n i key start (d ++ b) = cmap (fun x => x ++ b) (unmask n i key start d).
Proof.
  induction n as [|n IH]; intros i key start d b H0 H1; cbn [unmask]; [reflexivity|].
  pose proof (length_nonneg b).
  assert (Hr : Buffer.in_range d (start + i) 1 = true).
  { unfold Buffer.in_range. apply andb_true_iff. split; apply Z.leb_le; lia. }
  assert (Hr' : Buffer.in_range (d ++ b) (start + i) 1 = true).
  { unfold Buffer.in_range. apply andb_true_iff.
    split; apply Z.leb_le; rewrite ?length_app_Z; lia. }
  unfold Buffer.readUInt8 at 1 3. rewrite Hr, Hr'. rewrite at_app by lia. cbn [and_then].
  destruct (Buffer.readUInt8 key _); try reflexivity. cbn [and_then].
  unfold Buffer.writeUInt8. rewrite Hr, Hr'. rewrite !andb_true_r.
  destruct (_ && _); [|reflexivity]. cbn [and_then].
  unfold Buffer.set_. rewrite insert_app_l by (unfold Buffer.length in *; lia).
  apply IH.
  - lia.
  - unfold Buffer.length in *. rewrite length_insert. lia.
Qed.

(** The bytes after the payload stay as they are. *)
Lemma unmask_rest n : forall i key start d d',
  0 <= start + i ->
  unmask n i key start d = Normal d' ->
  skipn (Z.to_nat (start + i) + n) d' = skipn (Z.to_nat (start + i) + n) d.
Proof.
  induction n as [|n IH]; intros i key start d d' H0; cbn [unmask].
  - intros [= <-]. reflexivity.
  - destruct (Buffer.readUInt8 d _); try discriminate. cbn [and_then].
    destruct (Buffer.readUInt8 key _); try discriminate. cbn [and_then].
    unfold Buffer.writeUInt8. destruct (_ && _); [|discriminate]. cbn [and_then].
    intros H. apply IH in H; [|lia].
    replace (Z.to_nat (start + (i + 1)) + n)%nat
      with (Z.to_nat (start + i) + S n)%nat in H by lia.
    rewrite H. unfold Buffer.set_. apply drop_insert_lt. lia.
Qed.

(** *** The buffer of incoming bytes does not matter to what a frame does *)

Lemma sendMessage_state (m : value) (s : conn) : state (sendMessage m s) = s.
Proof.
  unfold sendMessage. rewrite bind_gets. destruct (closed s); [reflexivity|].
  rewrite bind_emit. cbn. destruct (JSON.stringify m); [|reflexivity].
  rewrite bind_lift. destruct (payloadLengthBuffer _); reflexivity.
Qed.

Lemma sendMessage_more (m : value) (s : conn) (b : Buffer.buffer) :
  sendMessage m (more b s) = mapstate (more b) (sendMessage m s).
Proof.
  unfold sendMessage. rewrite !bind_gets. change (closed (more b s)) with (closed s).
  destruct (closed s); [reflexivity|].
  rewrite !bind_emit. destruct (JSON.stringify m); [|reflexivity].
  rewrite !bind_lift. destruct (payloadLengthBuffer _); reflexivity.
Qed.

Ltac fields :=
  cbn [started closed closeHandler messageHandlers dataReceived payloadReceived
       set_started set_closed set_closeHandler set_messageHandlers
       set_dataReceived set_payloadReceived more] in *.

(** The lookup of a handler and its call, case by case, on both sides
    of an equation. *)
Ltac looked_up :=
  rewrite ?bind_lift;
  destruct (ToPropertyKey _) as [?key| |]; try reflexivity;
  destruct (lookup_member _ _); try reflexivity;
  (rewrite ?bind_lift; destruct (call_member _ _ _) as [[[? ?]|]| |]; reflexivity).

Lemma sendMessage_close (s : conn) :
  closed s = false ->
  sendMessage (VObject [(js "type", VString (js "close"))]) s =
    Result s [Write [129]; Write [16]; Write close_text] (Normal tt).
Proof.
  intros Hc.
  rewrite (sendMessage_open s (VObject [(js "type", VString (js "close"))]) close_text Hc eq_refl).
  reflexivity.
Qed.

Lemma close_open (needToCloseSocket : bool) (s : conn) :
  closed s = false ->
  close needToCloseSocket s =
    Result (set_dataReceived [] (set_closed true s))
           (close_events needToCloseSocket s) (Normal tt).
Proof.
  intros Hc. unfold close, close_events. rewrite bind_gets, Hc.
  destruct needToCloseSocket.
  - rewrite bind_result, (sendMessage_close s Hc). cbn [outcome state trace].
    rewrite !bind_modify, bind_gets. cbn [closeHandler set_dataReceived set_closed].
    destruct (closeHandler s); reflexivity.
  - rewrite bind_ret, !bind_modify, bind_gets. cbn [closeHandler set_dataReceived set_closed].
    destruct (closeHandler s); reflexivity.
Qed.

Lemma close_closed (needToCloseSocket : bool) (s : conn) :
  closed s = true -> close needToCloseSocket s = Result s [] (Normal tt).
Proof. intros Hc. unfold close. rewrite bind_gets, Hc. reflexivity. Qed.

Lemma close_more (needToCloseSocket : bool) (s : conn) (b : Buffer.buffer) :
  closed s = false -> close needToCloseSocket (more b s) = close needToCloseSocket s.
Proof.
  intros Hc. rewrite !close_open by exact Hc. reflexivity.
Qed.

Section Turns.
Variable JSON_parse : jsstring -> option value.
Variable toString : Buffer.buffer -> jsstring.
Local Open Scope eff_scope.

(** [dispatch] reads and writes [started] and reads the handlers. *)
Lemma dispatch_state (v : value) (s : conn) :
  state (dispatch v s) = s \/ state (dispatch v s) = set_started true s.
Proof.
  unfold dispatch. rewrite bind_lift. destruct (get v _) as [type| |]; auto.
  destruct (strict_eq_string type _).
  { rewrite bind_gets. destruct (started s); auto. }
  destruct (strict_eq_string type _).
  { rewrite bind_gets. destruct (started s); auto.
    rewrite bind_modify, bind_lift. destruct (get v _); auto. }
  destruct (strict_eq_string type _); auto.
  rewrite bind_lift. destruct (get v _) as [mt| |]; auto.
  rewrite bind_gets, bind_lift. destruct (ToPropertyKey mt) as [key| |]; auto.
  destruct (lookup_member _ key); auto;
    (rewrite bind_lift; destruct (get v _); auto;
     rewrite bind_lift; destruct (call_member _ _ _) as [[[f' a']|]| |]; auto).
Qed.

Lemma dispatch_more (v : value) (s : conn) (b : Buffer.buffer) :
  dispatch v (more b s) = mapstate (more b) (dispatch v s).
Proof.
  unfold dispatch. rewrite !bind_lift. destruct (get v _) as [type| |]; try reflexivity.
  destruct (strict_eq_string type _).
  { rewrite !bind_gets. change (started (more b s)) with (started s).
    destruct (started s); reflexivity. }
  destruct (strict_eq_string type _).
  { rewrite !bind_gets. change (started (more b s)) with (started s).
    destruct (started s); [reflexivity|].
    rewrite !bind_modify, !bind_lift. destruct (get v _); reflexivity. }
  destruct (strict_eq_string type _); [|reflexivity].
  rewrite !bind_lift. destruct (get v _) as [mt| |]; try reflexivity.
  rewrite !bind_gets. change (messageHandlers (more b s)) with (messageHandlers s).
  rewrite !bind_lift. destruct (ToPropertyKey mt) as [key| |]; try reflexivity.
  destruct (lookup_member _ key); try reflexivity;
    (rewrite !bind_lift; destruct (get v _); try reflexivity;
     rewrite !bind_lift; destruct (call_member _ _ _) as [[[f' a']|]| |]; reflexivity).
Qed.

Lemma dispatch_fields (v : value) (s : conn) :
  closed (state (dispatch v s)) = closed s /\
  dataReceived (state (dispatch v s)) = dataReceived s /\
  payloadReceived (state (dispatch v s)) = payloadReceived s /\
  closeHandler (state (dispatch v s)) = closeHandler s /\
  messageHandlers (state (dispatch v s)) = messageHandlers s.
Proof. destruct (dispatch_state v s) as [-> | ->]; repeat split. Qed.

(** What [deliver] leaves behind, by the way it ends. *)
Lemma deliver_ends (opcode : Z) (s : conn) :
  closed s = false ->
  let r := deliver JSON_parse toString opcode s in
  match outcome r with
  | Normal true =>
      closed (state r) = false /\ dataReceived (state r) = dataReceived s /\
      payloadReceived (state r) = []
  | Normal false => closed (state r) = true
  | _ =>
      closed (state r) = false /\ dataReceived (state r) = dataReceived s /\
      payloadReceived (state r) = payloadReceived s
  end.
Proof.
  intros Hc. unfold deliver. cbv zeta. destruct (opcode =? 1).
  - rewrite bind_bind, bind_gets.
    destruct (JSON_parse _) as [v|].
    + rewrite bind_bind. rewrite bind_result.
      pose proof (dispatch_fields v s) as (H1 & H2 & H3 & _).
      destruct (outcome (dispatch v s)) as [[]| |]; cbn [outcome state prepend];
        rewrite ?bind_ret, ?bind_modify; cbn [outcome state ret];
        fields; rewrite ?H1, ?H2, ?H3; auto.
    + rewrite bind_bind, bind_result, (close_open true s Hc). cbn [outcome state trace].
      rewrite !bind_ret. reflexivity.
  - rewrite bind_ret, bind_modify. cbn. auto.
Qed.

Lemma deliver_more (opcode : Z) (s : conn) (b : Buffer.buffer) :
  closed s = false ->
  deliver JSON_parse toString opcode (more b s) =
    after b (deliver JSON_parse toString opcode s).
Proof.
  intros Hc. unfold deliver. destruct (opcode =? 1).
  - rewrite !bind_bind, !bind_gets. change (payloadReceived (more b s)) with (payloadReceived s).
    destruct (JSON_parse _) as [v|].
    + rewrite !bind_bind. rewrite !(bind_result (dispatch v)), dispatch_more.
      pose proof (dispatch_fields v s) as (H1 & _).
      unfold after, mapstate.
      destruct (dispatch v s) as [s1 t1 [[]| |]]; cbn [outcome state trace prepend] in *;
        rewrite ?bind_ret, ?bind_modify; cbn [outcome state trace ret];
        change (closed (set_payloadReceived (Buffer.alloc 0) s1)) with (closed s1);
        rewrite ?H1, ?Hc; reflexivity.
    + rewrite !bind_bind, !(bind_result (close true)), close_more by exact Hc.
      rewrite (close_open true s Hc). cbn [outcome state trace].
      rewrite !bind_ret. reflexivity.
  - rewrite !bind_ret, !bind_modify. unfold after. cbn. rewrite Hc. reflexivity.
Qed.

Lemma free_inner (x : Z) (s : conn) :
  0 <= x <= Buffer.length (dataReceived s) ->
  free x s = Result (set_dataReceived (skipn (Z.to_nat x) (dataReceived s)) s) [] (Normal tt).
Proof.
  intros H. unfold free. rewrite bind_gets.
  destruct (Z.eqb_spec (Buffer.length (dataReceived s)) x) as [E|E].
  - unfold modify. rewrite skipn_all2 by (unfold Buffer.length in E; lia). reflexivity.
  - unfold modify. rewrite slice_from_inner by lia. reflexivity.
Qed.

Lemma free_more (x : Z) (s : conn) (b : Buffer.buffer) :
  0 <= x <= Buffer.length (dataReceived s) ->
  free x (more b s) = mapstate (more b) (free x s).
Proof.
  intros H. pose proof (length_nonneg b).
  rewrite !free_inner by (cbn; rewrite ?length_app_Z; lia).
  unfold mapstate, more. cbn. rewrite skipn_app.
  replace (Z.to_nat x - List.length (dataReceived s))%nat with 0%nat
    by (unfold Buffer.length in *; lia).
  reflexivity.
Qed.


Lemma after_open {A} (b : Buffer.buffer) (r : result conn event A) :
  closed (state r) = false -> after b r = mapstate (more b) r.
Proof. intros H. unfold after. rewrite H. reflexivity. Qed.

Lemma after_closed {A} (b : Buffer.buffer) (r : result conn event A) :
  closed (state r) = true -> after b r = r.
Proof. intros H. unfold after. rewrite H. reflexivity. Qed.

Lemma decrypt_state (h : head) (s : conn) :
  exists d1, state (decrypt h s) = set_dataReceived d1 s /\
             List.length d1 = List.length (dataReceived s) /\
             (0 <= h_start h ->
              skipn (Z.to_nat (h_start h) + Z.to_nat (h_length h)) d1 =
              skipn (Z.to_nat (h_start h) + Z.to_nat (h_length h)) (dataReceived s)).
Proof.
  unfold decrypt. destruct (h_mask h).
  - rewrite bind_gets, bind_lift.
    destruct (unmask _ _ _ _ _) as [d1| |] eqn:Hu.
    + exists d1. split; [reflexivity|]. split; [eapply unmask_length, Hu|].
      intros H0. apply (unmask_rest _ 0 _ _ _ _) in Hu; [|lia].
      rewrite Z.add_0_r in Hu. exact Hu.
    + exists (dataReceived s). destruct s; repeat split; reflexivity.
    + exists (dataReceived s). destruct s; repeat split; reflexivity.
  - exists (dataReceived s). destruct s; repeat split; reflexivity.
Qed.

Lemma decrypt_more (h : head) (s : conn) (b : Buffer.buffer) :
  0 <= h_length h -> 0 <= h_start h ->
  h_start h + h_length h <= Buffer.length (dataReceived s) ->
  decrypt h (more b s) = mapstate (more b) (decrypt h s).
Proof.
  intros Hl Hs Hd. unfold decrypt. destruct (h_mask h); [|reflexivity].
  rewrite !bind_gets, !bind_lift. fields.
  rewrite unmask_app by lia.
  destruct (unmask _ _ _ _ (dataReceived s)); reflexivity.
Qed.

Lemma take_more (h : head) (s : conn) (b : Buffer.buffer) :
  closed s = false ->
  0 <= h_length h -> 0 <= h_start h ->
  h_start h + h_length h <= Buffer.length (dataReceived s) ->
  take JSON_parse toString h (more b s) = after b (take JSON_parse toString h s).
Proof.
  intros Hc Hl Hs Hd. unfold take. rewrite !bind_gets. fields.
  rewrite slice_app by lia. rewrite !bind_lift.
  destruct (Buffer.concat _ _) as [p'| |];
    [|rewrite after_open by exact Hc; reflexivity..].
  rewrite !bind_modify.
  change (set_payloadReceived p' (more b s))
    with (more b (set_payloadReceived p' s)).
  set (s1 := set_payloadReceived p' s).
  assert (Hc1 : closed s1 = false) by exact Hc.
  destruct (h_fin h).
  - rewrite !(bind_result (deliver _ _ _)), deliver_more by exact Hc1.
    pose proof (deliver_ends (h_opcode h) s1 Hc1) as He. cbv zeta in He.
    destruct (deliver JSON_parse toString (h_opcode h) s1) as [s2 t2 [[]| |]];
      cbn [outcome state trace] in *.
    + destruct He as (H1 & H2 & H3).
      rewrite after_open by exact H1. cbn [mapstate outcome state trace].
      rewrite !(bind_result (free _)), free_more
        by (rewrite H2; unfold s1; fields; lia).
      rewrite free_inner by (rewrite H2; unfold s1; fields; lia).
      cbn [mapstate outcome state trace].
      rewrite after_open by exact H1. reflexivity.
    + rewrite (after_closed b (Result s2 t2 _)) by exact He.
      cbn [outcome state trace]. rewrite after_closed by exact He. reflexivity.
    + destruct He as (H1 & _). rewrite !after_open by exact H1. reflexivity.
    + destruct He as (H1 & _). rewrite !after_open by exact H1. reflexivity.
  - rewrite !bind_ret.
    rewrite !(bind_result (free _)), free_more by (unfold s1; fields; lia).
    rewrite free_inner by (unfold s1; fields; lia).
    cbn [mapstate outcome state trace].
    rewrite after_open by exact Hc1. reflexivity.
Qed.

Lemma body_more (h : head) (s : conn) (b : Buffer.buffer) :
  closed s = false ->
  0 <= h_length h -> 0 <= h_start h ->
  h_start h + h_length h <= Buffer.length (dataReceived s) ->
  body JSON_parse toString h (more b s) = after b (body JSON_parse toString h s).
Proof.
  intros Hc Hl Hs Hd. unfold body.
  rewrite !(bind_result (decrypt h)), decrypt_more by assumption.
  destruct (decrypt_state h s) as (d1 & Hst & Hlen & _).
  destruct (decrypt h s) as [s1 t1 [[]| |]]; cbn [mapstate outcome state trace] in *; subst s1.
  - rewrite take_more by (fields; unfold Buffer.length in *; (assumption || lia)).
    destruct (take JSON_parse toString h (set_dataReceived d1 s)) as [s2 t2 o2].
    unfold after, prepend, mapstate. cbn [outcome state trace].
    destruct (closed s2); reflexivity.
  - rewrite after_open by exact Hc. reflexivity.
  - rewrite after_open by exact Hc. reflexivity.
Qed.

(** *** Every turn shortens the buffers *)

Lemma free_length (x : Z) (s : conn) :
  (List.length (dataReceived (state (free x s))) <= List.length (dataReceived s))%nat /\
  payloadReceived (state (free x s)) = payloadReceived s.
Proof.
  unfold free. rewrite bind_gets. destruct (_ =? _); cbn [state modify]; fields.
  - split; [change (Buffer.alloc 0) with (@nil Z); cbn; lia|reflexivity].
  - split; [apply slice_length_le|reflexivity].
Qed.

Lemma take_shortens (h : head) (s : conn) :
  closed s = false ->
  2 <= h_start h ->
  h_start h + h_length h <= Buffer.length (dataReceived s) ->
  let r := take JSON_parse toString h s in
  outcome r = Normal true ->
  (List.length (dataReceived (state r)) + List.length (payloadReceived (state r)) <
   List.length (dataReceived s) + List.length (payloadReceived s))%nat.
Proof.
  intros Hc Hs Hd. unfold take. rewrite !bind_gets, bind_lift. cbv zeta.
  destruct (Buffer.concat _ _) as [p'| |] eqn:Hp; [|discriminate..].
  apply concat_length in Hp as (Hp & Hp0).
  rewrite bind_modify. set (s1 := set_payloadReceived p' s).
  assert (Hc1 : closed s1 = false) by exact Hc.
  assert (Hgo : forall s2 : conn,
    closed s2 = false -> dataReceived s2 = dataReceived s ->
    (List.length (payloadReceived s2) <= List.length p')%nat ->
    let r := (free (h_start h + h_length h) ;; ret true)%eff s2 in
    outcome r = Normal true ->
    (List.length (dataReceived (state r)) + List.length (payloadReceived (state r)) <
     List.length (dataReceived s) + List.length (payloadReceived s))%nat).
  { intros s2 H1 H2 H3. cbv zeta. rewrite bind_result.
    destruct (Z.le_gt_cases 0 (h_length h)) as [Hl|Hl].
    - rewrite free_inner by (rewrite H2; lia). cbn [outcome state trace prepend ret].
      intros _. fields. rewrite length_skipn, H2.
      unfold Buffer.length in *. lia.
    - pose proof (free_length (h_start h + h_length h) s2) as (F1 & F2).
      destruct (free _ s2) as [s3 t3 [[]| |]]; cbn [outcome state trace prepend ret] in *;
        try discriminate.
      intros _. rewrite F2, H2 in *. unfold Buffer.length in *. lia. }
  destruct (h_fin h).
  - rewrite (bind_result (deliver _ _ _)).
    pose proof (deliver_ends (h_opcode h) s1 Hc1) as He. cbv zeta in He.
    destruct (deliver JSON_parse toString (h_opcode h) s1) as [s2 t2 [[]| |]];
      cbn [outcome state trace prepend] in *; try discriminate.
    destruct He as (H1 & H2 & H3). apply Hgo; try assumption. rewrite H3. cbn. lia.
  - rewrite bind_ret. apply Hgo; try assumption; reflexivity.
Qed.

Lemma frame_shortens (s : conn) :
  closed s = false ->
  outcome (frame JSON_parse toString s) = Normal true ->
  (turns (state (frame JSON_parse toString s)) < turns s)%nat.
Proof.
  intros Hc. rewrite frame_scan.
  destruct (scan (dataReceived s)) as [| |h] eqn:Hscan.
  - discriminate.
  - rewrite bind_result, (close_open true s Hc). discriminate.
  - apply scan_ready in Hscan as (Hs & Hd).
    unfold body. rewrite bind_result.
    destruct (decrypt_state h s) as (d1 & Hst & Hlen & _).
    destruct (decrypt h s) as [s1 t1 [[]| |]]; cbn [outcome state trace prepend] in *;
      try discriminate.
    subst s1. intros Ho.
    pose proof (take_shortens h (set_dataReceived d1 s) Hc (proj1 Hs)) as T.
    cbv zeta in T. fields. unfold turns.
    specialize (T ltac:(unfold Buffer.length in *; lia) Ho). lia.
Qed.

Lemma take_open (h : head) (s : conn) :
  closed s = false ->
  outcome (take JSON_parse toString h s) = Normal true ->
  closed (state (take JSON_parse toString h s)) = false.
Proof.
  intros Hc. unfold take. rewrite !bind_gets, bind_lift.
  destruct (Buffer.concat _ _) as [p'| |]; [|discriminate..].
  rewrite bind_modify. set (s1 := set_payloadReceived p' s).
  assert (Hc1 : closed s1 = false) by exact Hc.
  assert (Hfree : forall s2 : conn, closed s2 = false ->
    closed (state ((free (h_start h + h_length h) ;; ret true)%eff s2)) = false).
  { intros s2 H2. unfold free. rewrite bind_bind, bind_gets.
    destruct (_ =? _); rewrite bind_modify; exact H2. }
  destruct (h_fin h).
  - rewrite (bind_result (deliver _ _ _)).
    pose proof (deliver_ends (h_opcode h) s1 Hc1) as He. cbv zeta in He.
    destruct (deliver JSON_parse toString (h_opcode h) s1) as [s2 t2 [[]| |]];
      cbn [outcome state trace prepend] in *; try discriminate.
    intros _. apply Hfree. tauto.
  - rewrite bind_ret. intros _. apply Hfree. exact Hc1.
Qed.

Lemma frame_open (s : conn) :
  closed s = false ->
  outcome (frame JSON_parse toString s) = Normal true ->
  closed (state (frame JSON_parse toString s)) = false.
Proof.
  intros Hc. rewrite frame_scan.
  destruct (scan (dataReceived s)) as [| |h].
  - discriminate.
  - rewrite bind_result, (close_open true s Hc). discriminate.
  - unfold body. rewrite bind_result.
    destruct (decrypt_state h s) as (d1 & Hst & _).
    destruct (decrypt h s) as [s1 t1 [[]| |]]; cbn [outcome state trace prepend] in *;
      try discriminate.
    subst s1. apply take_open. exact Hc.
Qed.

(** *** Fuel *)

Lemma frames_step (n : nat) (s : conn) :
  frames JSON_parse toString (S n) s =
    let r := frame JSON_parse toString s in
    match outcome r with
    | Normal true => prepend (trace r) (frames JSON_parse toString n (state r))
    | Normal false => Result (state r) (trace r) (Normal tt)
    | Throw e => Result (state r) (trace r) (Throw e)
    | Timeout => Result (state r) (trace r) Timeout
    end.
Proof.
  cbn [frames]. rewrite bind_result. cbv zeta.
  destruct (outcome (frame JSON_parse toString s)) as [[]| |]; try reflexivity.
  unfold prepend, ret. cbn. rewrite app_nil_r. reflexivity.
Qed.

Lemma frames_fuel (n : nat) : forall (m : nat) (s : conn),
  closed s = false -> (turns s <= n)%nat -> (turns s <= m)%nat ->
  frames JSON_parse toString n s = frames JSON_parse toString m s.
Proof.
  induction n as [|n IH]; intros m s Hc Hn Hm.
  - unfold turns in Hn. lia.
  - destruct m as [|m]; [unfold turns in Hm; lia|].
    rewrite !frames_step. cbv zeta.
    pose proof (frame_shortens s Hc) as Hs. pose proof (frame_open s Hc) as Ho.
    destruct (outcome (frame JSON_parse toString s)) as [[]| |]; try reflexivity.
    specialize (Hs eq_refl). specialize (Ho eq_refl).
    rewrite (IH m) by (assumption || lia). reflexivity.
Qed.

Lemma loop_unfold (s : conn) :
  closed s = false ->
  loop JSON_parse toString s =
    let r := frame JSON_parse toString s in
    match outcome r with
    | Normal true => prepend (trace r) (loop JSON_parse toString (state r))
    | Normal false => Result (state r) (trace r) (Normal tt)
    | Throw e => Result (state r) (trace r) (Throw e)
    | Timeout => Result (state r) (trace r) Timeout
    end.
Proof.
  intros Hc. unfold loop at 1. unfold turns at 1. rewrite frames_step. cbv zeta.
  pose proof (frame_shortens s Hc) as Hs. pose proof (frame_open s Hc) as Ho.
  destruct (outcome (frame JSON_parse toString s)) as [[]| |]; try reflexivity.
  specialize (Hs eq_refl). specialize (Ho eq_refl). unfold loop.
  rewrite (frames_fuel _ (turns (state (frame JSON_parse toString s))));
    [reflexivity|assumption|unfold turns in *; lia|lia].
Qed.

Lemma on_data_open (c : Buffer.buffer) (s : conn) :
  closed s = false -> on_data JSON_parse toString c s = loop JSON_parse toString (more c s).
Proof.
  intros Hc. unfold on_data. rewrite bind_gets, Hc, bind_gets, concat_exact, bind_lift.
  rewrite bind_modify. reflexivity.
Qed.

Lemma on_data_closed (c : Buffer.buffer) (s : conn) :
  closed s = true -> on_data JSON_parse toString c s = Result s [] (Normal tt).
Proof. intros Hc. unfold on_data. rewrite bind_gets, Hc. reflexivity. Qed.


Lemma take_closed (h : head) (s : conn) :
  closed s = false ->
  outcome (take JSON_parse toString h s) = Normal false ->
  closed (state (take JSON_parse toString h s)) = true.
Proof.
  intros Hc. unfold take. rewrite !bind_gets, bind_lift.
  destruct (Buffer.concat _ _) as [p'| |]; [|discriminate..].
  rewrite bind_modify. set (s1 := set_payloadReceived p' s).
  assert (Hc1 : closed s1 = false) by exact Hc.
  assert (Hfree : forall s2 : conn,
    outcome ((free (h_start h + h_length h) ;; ret true)%eff s2) <> Normal false).
  { intros s2. unfold free. rewrite bind_bind, bind_gets.
    destruct (_ =? _); rewrite bind_modify; discriminate. }
  destruct (h_fin h).
  - rewrite (bind_result (deliver _ _ _)).
    pose proof (deliver_ends (h_opcode h) s1 Hc1) as He. cbv zeta in He.
    destruct (deliver JSON_parse toString (h_opcode h) s1) as [s2 t2 [[]| |]];
      cbn [outcome state trace prepend] in *; try discriminate.
    + intros H. destruct (Hfree _ H).
    + intros _. exact He.
  - rewrite bind_ret. intros H. destruct (Hfree _ H).
Qed.

Lemma body_closed (h : head) (s : conn) :
  closed s = false ->
  outcome (body JSON_parse toString h s) = Normal false ->
  closed (state (body JSON_parse toString h s)) = true.
Proof.
  intros Hc. unfold body. rewrite bind_result.
  destruct (decrypt_state h s) as (d1 & Hst & _).
  destruct (decrypt h s) as [s1 t1 [[]| |]]; cbn [outcome state trace prepend] in *;
    try discriminate.
  subst s1. apply take_closed. exact Hc.
Qed.

Lemma loop_wait (s : conn) :
  closed s = false -> scan (dataReceived s) = Incomplete ->
  loop JSON_parse toString s = Result s [] (Normal tt).
Proof.
  intros Hc Hs. rewrite loop_unfold by exact Hc. rewrite frame_scan, Hs. reflexivity.
Qed.

Lemma loop_close (s : conn) :
  closed s = false -> scan (dataReceived s) = CloseFrame ->
  loop JSON_parse toString s = (close true) s.
Proof.
  intros Hc Hs. rewrite loop_unfold by exact Hc. rewrite frame_scan, Hs.
  rewrite bind_result, (close_open true s Hc). cbv zeta.
  cbn [outcome state trace prepend ret]. rewrite app_nil_r. reflexivity.
Qed.

Lemma loop_ready (s : conn) (h : head) :
  closed s = false -> scan (dataReceived s) = Ready h ->
  loop JSON_parse toString s =
    let r := body JSON_parse toString h s in
    match outcome r with
    | Normal true => prepend (trace r) (loop JSON_parse toString (state r))
    | Normal false => Result (state r) (trace r) (Normal tt)
    | Throw e => Result (state r) (trace r) (Throw e)
    | Timeout => Result (state r) (trace r) Timeout
    end.
Proof.
  intros Hc Hs. rewrite loop_unfold by exact Hc. rewrite frame_scan, Hs. reflexivity.
Qed.

(** *** Runs in which every frame has a length of zero or more *)

Lemma after_outcome {A} (b : Buffer.buffer) (r : result conn event A) :
  outcome (after b r) = outcome r.
Proof. unfold after. destruct (closed _); reflexivity. Qed.

Lemma loop_more (s2 : conn) :
  regular JSON_parse toString s2 ->
  forall (s : conn) (b : Buffer.buffer),
    closed s = false -> s2 = more b s ->
    outcome (loop JSON_parse toString s) = Normal tt /\
    loop JSON_parse toString s2 =
      (if closed (state (loop JSON_parse toString s)) then loop JSON_parse toString s
       else prepend (trace (loop JSON_parse toString s)) (loop JSON_parse toString (more b (state (loop JSON_parse toString s))))) /\
    (closed (state (loop JSON_parse toString s)) = false ->
     regular JSON_parse toString (more b (state (loop JSON_parse toString s))) /\
     scan (dataReceived (state (loop JSON_parse toString s))) = Incomplete).
Proof.
  intros Hreg. pose proof Hreg as Hreg0.
  induction Hreg as [s2 Hs2|s2 Hs2|s2 h Hs2 Hl Ho|s2 h Hs2 Hl Ho Hreg IH];
    intros s b Hc ->; fields.
  all: destruct (scan (dataReceived s)) as [| |h'] eqn:Hs;
    [ rewrite (loop_wait s Hc Hs); cbn [outcome state trace]; rewrite Hc, prepend_nil;
      repeat split; assumption
    | try (apply (scan_close_app _ b) in Hs; congruence)
    | try (apply (scan_ready_app _ b) in Hs; congruence) ].
  - (* a close frame *)
    rewrite (loop_close s Hc Hs).
    rewrite (loop_close (more b s) Hc Hs2), close_more by exact Hc.
    rewrite (close_open true s Hc). cbn [outcome state trace]. fields.
    repeat split; discriminate.
  - (* the last frame: it closes the connection *)
    pose proof (scan_ready _ _ Hs) as (Hst & Hd).
    pose proof (scan_ready_app _ b _ Hs) as Hs'. fields.
    assert (h' = h) by congruence. subst h'.
    rewrite (body_more h s b) in Ho by (assumption || lia).
    rewrite after_outcome in Ho.
    pose proof (body_closed h s Hc Ho) as Hcl.
    rewrite (loop_ready s h Hc Hs), (loop_ready (more b s) h Hc Hs2). cbv zeta.
    rewrite (body_more h s b) by (assumption || lia).
    rewrite after_closed by exact Hcl. rewrite Ho. cbn [outcome state trace].
    rewrite Hcl. repeat split; discriminate.
  - (* a frame followed by others *)
    pose proof (scan_ready _ _ Hs) as (Hst & Hd).
    pose proof (scan_ready_app _ b _ Hs) as Hs'. fields.
    assert (h' = h) by congruence. subst h'.
    rewrite (body_more h s b) in Ho, IH, Hreg by (assumption || lia).
    rewrite after_outcome in Ho.
    assert (Hop : closed (state (body JSON_parse toString h s)) = false).
    { pose proof (frame_open s Hc) as F. rewrite frame_scan, Hs in F. exact (F Ho). }
    rewrite after_open in IH, Hreg by exact Hop. cbn [mapstate state] in IH, Hreg.
    specialize (IH Hreg _ b Hop eq_refl) as (I1 & I2 & I3).
    rewrite (loop_ready s h Hc Hs), (loop_ready (more b s) h Hc Hs2). cbv zeta.
    rewrite (body_more h s b) by (assumption || lia).
    rewrite after_open by exact Hop. cbn [mapstate outcome state trace].
    rewrite Ho. cbn [prepend outcome state trace].
    split; [exact I1|]. split; [|exact I3].
    rewrite I2. destruct (closed (state (loop JSON_parse toString (state (body JSON_parse toString h s))))).
    + reflexivity.
    + rewrite prepend_app. reflexivity.
Qed.

(** *** Chunks *)

Lemma feed_closed (chunks : list Buffer.buffer) (s : conn) :
  closed s = true -> feed JSON_parse toString chunks s = Result s [] (Normal tt).
Proof.
  intros Hc. induction chunks as [|c cs IH]; [reflexivity|].
  cbn [feed]. rewrite bind_result, on_data_closed by exact Hc.
  cbn [outcome state trace]. rewrite IH. reflexivity.
Qed.

Lemma more_more (a b : Buffer.buffer) (s : conn) :
  more b (more a s) = more (a ++ b) s.
Proof. unfold more. fields. rewrite app_assoc. reflexivity. Qed.

Lemma more_nil (s : conn) : more [] s = s.
Proof. unfold more. rewrite app_nil_r. destruct s; reflexivity. Qed.

Lemma feed_loop (chunks : list Buffer.buffer) : forall s : conn,
  closed s = false ->
  scan (dataReceived s) = Incomplete ->
  regular JSON_parse toString (more (List.concat chunks) s) ->
  feed JSON_parse toString chunks s = loop JSON_parse toString (more (List.concat chunks) s).
Proof.
  induction chunks as [|c cs IH]; intros s Hc Hs Hreg.
  - cbn [List.concat feed]. rewrite more_nil, (loop_wait s Hc Hs). reflexivity.
  - cbn [List.concat feed] in *. rewrite bind_result, on_data_open by exact Hc.
    rewrite <- more_more in Hreg.
    destruct (loop_more _ Hreg (more c s) (List.concat cs) Hc eq_refl) as (L1 & L2 & L3).
    rewrite <- more_more, L2.
    destruct (loop JSON_parse toString (more c s)) as [s1 t1 o1]. cbn [outcome state trace] in *. subst o1.
    destruct (closed s1) eqn:Hcl.
    + rewrite feed_closed by exact Hcl. unfold prepend. cbn. rewrite app_nil_r. reflexivity.
    + destruct (L3 eq_refl) as (R1 & R2). rewrite IH by assumption. reflexivity.
Qed.

End Turns.

(** *** Frames on the wire *)

Lemma ToInt32_small (x : Z) : 0 <= x < 2 ^ 31 -> ToInt32 x = x.
Proof. intros H. unfold ToInt32. rewrite Z.mod_small by lia. lia. Qed.

Lemma band_15 (x : Z) : 0 <= x < 256 -> band x 15 = x mod 16.
Proof.
  intros H. unfold band. rewrite (ToInt32_small x), (ToInt32_small 15) by lia.
  change 15 with (Z.ones 4). rewrite Z.land_ones by lia. change (2 ^ 4) with 16.
  apply ToInt32_small. pose proof (Z.mod_pos_bound x 16). lia.
Qed.

Lemma band_127 (x : Z) : 0 <= x < 256 -> band x 127 = x mod 128.
Proof.
  intros H. unfold band. rewrite (ToInt32_small x), (ToInt32_small 127) by lia.
  change 127 with (Z.ones 7). rewrite Z.land_ones by lia. change (2 ^ 7) with 128.
  apply ToInt32_small. pose proof (Z.mod_pos_bound x 128). lia.
Qed.

Lemma shr_7 (x : Z) : 0 <= x < 256 -> shr x 7 = x / 128.
Proof.
  intros H. unfold shr. rewrite ToInt32_small by lia.
  change (ToUint32 7 mod 32) with 7. rewrite Z.shiftr_div_pow2 by lia. reflexivity.
Qed.

Lemma bxor_bytes (x k : Z) : 0 <= x < 256 -> 0 <= k < 256 -> bxor x k = Z.lxor x k.
Proof.
  intros Hx Hk. unfold bxor. rewrite (ToInt32_small x), (ToInt32_small k) by lia.
  apply ToInt32_small.
  assert (0 <= Z.lxor x k < 2 ^ 8); [|lia].
  destruct (Z.eq_dec (Z.lxor x k) 0) as [->|Hne]; [lia|].
  assert (0 <= Z.lxor x k) by (apply Z.lxor_nonneg; lia).
  split; [assumption|]. apply Z.log2_lt_cancel.
  eapply Z.le_lt_trans; [apply Z.log2_lxor; lia|].
  change (Z.log2 (2 ^ 8)) with 8.
  assert (Z.log2 x < 8).
  { destruct (Z.eq_dec x 0) as [->|]; [cbn; lia|]. apply Z.log2_lt_pow2; lia. }
  assert (Z.log2 k < 8).
  { destruct (Z.eq_dec k 0) as [->|]; [cbn; lia|]. apply Z.log2_lt_pow2; lia. }
  lia.
Qed.

Lemma lxor_byte (x k : Z) : 0 <= x < 256 -> 0 <= k < 256 -> 0 <= Z.lxor x k < 256.
Proof.
  intros Hx Hk.
  assert (0 <= Z.lxor x k) by (apply Z.lxor_nonneg; lia).
  split; [assumption|].
  destruct (Z.eq_dec (Z.lxor x k) 0) as [->|Hne]; [lia|].
  change 256 with (2 ^ 8). apply Z.log2_lt_cancel.
  eapply Z.le_lt_trans; [apply Z.log2_lxor; lia|].
  change (Z.log2 (2 ^ 8)) with 8.
  assert (Z.log2 x < 8).
  { destruct (Z.eq_dec x 0) as [->|]; [cbn; lia|]. apply Z.log2_lt_pow2; lia. }
  assert (Z.log2 k < 8).
  { destruct (Z.eq_dec k 0) as [->|]; [cbn; lia|]. apply Z.log2_lt_pow2; lia. }
  lia.
Qed.

Lemma be_2 (n : Z) : Wire.be 2 n = [(n / 256) mod 256; n mod 256].
Proof. unfold Wire.be. cbn. rewrite Z.div_1_r. reflexivity. Qed.

Lemma be_8 (n : Z) :
  Wire.be 8 n =
    [(n / 72057594037927936) mod 256; (n / 281474976710656) mod 256;
     (n / 1099511627776) mod 256; (n / 4294967296) mod 256;
     (n / 16777216) mod 256; (n / 65536) mod 256; (n / 256) mod 256; n mod 256].
Proof. unfold Wire.be. cbn. rewrite Z.div_1_r. reflexivity. Qed.

Lemma encode_header (f : Wire.frame) :
  Wire.encode f =
    header f ++
    match Wire.masking_key f with
    | None => Wire.payload f
    | Some key => Wire.mask key (Wire.payload f)
    end.
Proof.
  unfold Wire.encode, header. cbv zeta. destruct (Wire.masking_key f).
  - cbn [app]. rewrite <- app_assoc. reflexivity.
  - reflexivity.
Qed.

Lemma mask_length (key bytes : list Z) :
  List.length (Wire.mask key bytes) = List.length bytes.
Proof. unfold Wire.mask. apply length_imap. Qed.

Lemma scan_header (b0 b1 : Z) (ext key body_ : list Z) (m : bool) (n : Z) :
  0 <= b0 < 256 -> band b0 15 <> 8 ->
  b1 = (if m then 128 else 0) + Wire.length_code n ->
  ext = Wire.extended_length n ->
  (if m then List.length key = 4%nat else key = []) ->
  0 <= n < 2 ^ 32 ->
  n <= Buffer.length body_ ->
  scan (b0 :: b1 :: ext ++ key ++ body_) =
    Ready (Head (shr b0 7 =? 1) (band b0 15) m key n
                (2 + Buffer.length ext + Buffer.length key)).
Proof.
  intros Hb0 Hop -> -> Hkey Hn Hbody.
  pose proof (length_nonneg body_) as Hb. pose proof (length_nonneg key) as Hk.
  assert (Hkl : Buffer.length key = if m then 4 else 0).
  { unfold Buffer.length. destruct m; [rewrite Hkey; reflexivity|subst key; reflexivity]. }
  assert (Hc : 0 <= Wire.length_code n < 128).
  { unfold Wire.length_code. destruct (n <? 126) eqn:E; [apply Z.ltb_lt in E; lia|].
    destruct (n <? 65536); lia. }
  set (b1 := (if m then 128 else 0) + Wire.length_code n).
  assert (Hb1 : 0 <= b1 < 256) by (unfold b1; destruct m; lia).
  assert (Hm : (shr b1 7 =? 1) = m).
  { rewrite shr_7 by exact Hb1. unfold b1. destruct m.
    - replace ((128 + Wire.length_code n) / 128) with 1; [reflexivity|].
      apply Z.div_unique with (r := Wire.length_code n); lia.
    - rewrite Z.add_0_l, Z.div_small by lia. reflexivity. }
  assert (Hcode : band b1 127 = Wire.length_code n).
  { rewrite band_127 by exact Hb1. unfold b1. destruct m.
    - symmetry. apply Z.mod_unique with (q := 1); lia.
    - rewrite Z.add_0_l. apply Z.mod_small. lia. }
  unfold scan.
  assert (Hlen : Buffer.length (b0 :: b1 :: Wire.extended_length n ++ key ++ body_) =
                 2 + Buffer.length (Wire.extended_length n) + Buffer.length key +
                 Buffer.length body_).
  { unfold Buffer.length. cbn [List.length]. rewrite !length_app. lia. }
  pose proof (length_nonneg (Wire.extended_length n)) as He.
  rewrite Hlen.
  destruct (Z.ltb_spec (2 + Buffer.length (Wire.extended_length n) + Buffer.length key +
                        Buffer.length body_) 1); [lia|].
  change (Buffer.at_ (b0 :: b1 :: Wire.extended_length n ++ key ++ body_) 0) with b0.
  destruct (Z.eqb_spec (band b0 15) 8); [contradiction|].
  destruct (Z.ltb_spec (2 + Buffer.length (Wire.extended_length n) + Buffer.length key +
                        Buffer.length body_) 2); [lia|].
  change (Buffer.at_ (b0 :: b1 :: Wire.extended_length n ++ key ++ body_) 1) with b1.
  rewrite Hm.
  assert (Hsl : scan_length (b0 :: b1 :: Wire.extended_length n ++ key ++ body_) =
                Some (n, 2 + Buffer.length (Wire.extended_length n))).
  { unfold scan_length.
    change (Buffer.at_ (b0 :: b1 :: Wire.extended_length n ++ key ++ body_) 1) with b1.
    rewrite Hcode, Hlen. unfold Wire.length_code, Wire.extended_length in *.
    destruct (Z.ltb_spec n 126).
    - destruct (Z.ltb_spec n 126); [|lia]. reflexivity.
    - destruct (Z.ltb_spec n 65536).
      + change (126 <? 126) with false. change (126 =? 126) with true. cbv iota.
        rewrite be_2 in *. change (Buffer.length [_; _]) with 2 in *.
        destruct (Z.ltb_spec (2 + 2 + Buffer.length key + Buffer.length body_) 4); [lia|].
        cbv [Buffer.at_ Z.to_nat Pos.to_nat Pos.iter_op Init.Nat.add nth app].
        do 2 f_equal. 
        rewrite Z.mod_small with (a := n / 256)
          by (split; [apply Z.div_pos; lia|apply Z.div_lt_upper_bound; lia]).
        pose proof (Z.div_mod n 256). lia.
      + change (127 <? 126) with false. change (127 =? 126) with false. cbv iota.
        rewrite be_8 in *. change (Buffer.length [_; _; _; _; _; _; _; _]) with 8 in *.
        destruct (Z.ltb_spec (2 + 8 + Buffer.length key + Buffer.length body_) 10); [lia|].
        cbv [Buffer.at_ Z.to_nat Pos.to_nat Pos.iter_op Init.Nat.add nth app].
        do 2 f_equal.
        rewrite (Z.div_small n 72057594037927936), (Z.div_small n 281474976710656),
          (Z.div_small n 1099511627776), (Z.div_small n 4294967296) by lia.
        change (0 mod 256 * 16777216 + 0 mod 256 * 65536 + 0 mod 256 * 256 + 0 mod 256) with 0.
        change (shl 0 32) with 0.
        Z.to_euclidean_division_equations. lia. }
  rewrite Hsl.
  assert (Hrk : read_key m (b0 :: b1 :: Wire.extended_length n ++ key ++ body_)
                  (2 + Buffer.length (Wire.extended_length n)) =
                Some (key, 2 + Buffer.length (Wire.extended_length n) + Buffer.length key)).
  { unfold read_key. destruct m.
    - rewrite Hlen.
      destruct (Z.ltb_spec (2 + Buffer.length (Wire.extended_length n) + Buffer.length key +
                            Buffer.length body_)
                           (2 + Buffer.length (Wire.extended_length n) + 4)); [lia|].
      rewrite Hkl. do 2 f_equal.
      rewrite slice_inner by (rewrite ?Hlen; lia).
      replace (2 + Buffer.length (Wire.extended_length n) + 4 -
               (2 + Buffer.length (Wire.extended_length n))) with 4 by lia.
      replace (Z.to_nat (2 + Buffer.length (Wire.extended_length n)))
        with (2 + List.length (Wire.extended_length n))%nat by (unfold Buffer.length; lia).
      cbn [skipn Init.Nat.add]. rewrite skipn_app, skipn_all, Nat.sub_diag. cbn [skipn app].
      change (Z.to_nat 4) with 4%nat. rewrite ?drop_0.
      rewrite firstn_app, <- Hkey, firstn_all, Nat.sub_diag. cbn. apply app_nil_r.
    - subst key. rewrite Z.add_0_r. reflexivity. }
  rewrite Hrk.
  destruct (Z.ltb_spec (2 + Buffer.length (Wire.extended_length n) + Buffer.length key +
                        Buffer.length body_)
                       (2 + Buffer.length (Wire.extended_length n) + Buffer.length key + n));
    [lia|].
  reflexivity.
Qed.

Lemma first_byte (fin : bool) (op : Z) :
  0 <= op < 16 ->
  let b0 := (if fin then 128 else 0) + op in
  0 <= b0 < 256 /\ band b0 15 = op /\ (shr b0 7 =? 1) = fin.
Proof.
  intros H b0. assert (Hb : 0 <= b0 < 256) by (unfold b0; destruct fin; lia).
  split; [exact Hb|]. rewrite band_15, shr_7 by exact Hb. unfold b0. split.
  - destruct fin.
    + symmetry. apply Z.mod_unique with (q := 8); lia.
    + rewrite Z.add_0_l. apply Z.mod_small. lia.
  - destruct fin.
    + replace ((128 + op) / 128) with 1; [reflexivity|].
      apply Z.div_unique with (r := op); lia.
    + rewrite Z.add_0_l, Z.div_small by lia. reflexivity.
Qed.

Lemma header_length (f : Wire.frame) :
  Buffer.length (header f) =
    2 + Buffer.length (Wire.extended_length (Z.of_nat (List.length (Wire.payload f)))) +
    Buffer.length (match Wire.masking_key f with Some key => key | None => [] end).
Proof.
  unfold header, Buffer.length. cbv zeta.
  destruct (Wire.masking_key f); cbn [List.length]; rewrite ?length_app; cbn [List.length]; lia.
Qed.

Lemma scan_encode (f : Wire.frame) (rest : list Z) :
  Wire.valid (2 ^ 32) f -> Wire.opcode f <> 8 ->
  scan (Wire.encode f ++ rest) = Ready (head_of f).
Proof.
  intros (Hop & _ & Hn & Hkey) Hne.
  destruct (first_byte (Wire.fin f) (Wire.opcode f) Hop) as (Hb0 & Hband & Hshr).
  unfold head_of. rewrite header_length.
  unfold Wire.encode. cbv zeta.
  destruct (Wire.masking_key f) as [key|].
  - cbn [app]. rewrite <- !app_assoc.
    rewrite (scan_header _ _ _ key _ true (Z.of_nat (List.length (Wire.payload f))));
      try reflexivity; try tauto; try lia.
    + rewrite Hband, Hshr. reflexivity.
    + rewrite length_app_Z. unfold Buffer.length at 1. rewrite mask_length.
      pose proof (length_nonneg rest). lia.
  - cbn [app]. rewrite <- !app_assoc.
    pose proof (scan_header ((if Wire.fin f then 128 else 0) + Wire.opcode f)
                  (Wire.length_code (Z.of_nat (List.length (Wire.payload f))))
                  (Wire.extended_length (Z.of_nat (List.length (Wire.payload f))))
                  [] (Wire.payload f ++ rest) false
                  (Z.of_nat (List.length (Wire.payload f))) Hb0) as H.
    cbn [app] in H. rewrite H; try reflexivity; try lia.
    + rewrite Hband, Hshr. reflexivity.
    + rewrite length_app_Z. unfold Buffer.length at 1.
      pose proof (length_nonneg rest). lia.
Qed.

Lemma scan_close_byte (b0 : Z) (tl : list Z) :
  band b0 15 = 8 -> scan (b0 :: tl) = CloseFrame.
Proof.
  intros H. unfold scan.
  destruct (Z.ltb_spec (Buffer.length (b0 :: tl)) 1) as [L|_];
    [unfold Buffer.length in L; cbn [List.length] in L; lia|].
  change (Buffer.at_ (b0 :: tl) 0) with b0. rewrite H. reflexivity.
Qed.

Lemma scan_encode_close (f : Wire.frame) (rest : list Z) :
  Wire.valid (2 ^ 32) f -> Wire.opcode f = 8 ->
  scan (Wire.encode f ++ rest) = CloseFrame.
Proof.
  intros (Hop & _) H8.
  destruct (first_byte (Wire.fin f) (Wire.opcode f) Hop) as (Hb0 & Hband & Hshr).
  unfold Wire.encode. cbv zeta. cbn [app]. apply scan_close_byte.
  rewrite Hband. exact H8.
Qed.

Lemma encode_length (f : Wire.frame) :
  Wire.valid (2 ^ 32) f ->
  Buffer.length (Wire.encode f) =
    Buffer.length (header f) + Z.of_nat (List.length (Wire.payload f)).
Proof.
  intros _. rewrite encode_header, length_app_Z. f_equal.
  unfold Buffer.length. destruct (Wire.masking_key f); [rewrite mask_length|]; reflexivity.
Qed.

Section Stream.
Variable JSON_parse : jsstring -> option value.
Variable toString : Buffer.buffer -> jsstring.
Local Open Scope eff_scope.

Lemma take_rest (h : head) (s : conn) :
  closed s = false ->
  0 <= h_length h -> 0 <= h_start h ->
  h_start h + h_length h <= Buffer.length (dataReceived s) ->
  outcome (take JSON_parse toString h s) = Normal true ->
  dataReceived (state (take JSON_parse toString h s)) =
    skipn (Z.to_nat (h_start h + h_length h)) (dataReceived s).
Proof.
  intros Hc Hl Hs Hd. unfold take. rewrite !bind_gets, bind_lift.
  destruct (Buffer.concat _ _) as [p'| |]; [|discriminate..].
  rewrite bind_modify. set (s1 := set_payloadReceived p' s).
  assert (Hc1 : closed s1 = false) by exact Hc.
  destruct (h_fin h).
  - rewrite (bind_result (deliver _ _ _)).
    pose proof (deliver_ends JSON_parse toString (h_opcode h) s1 Hc1) as He. cbv zeta in He.
    destruct (deliver JSON_parse toString (h_opcode h) s1) as [s2 t2 [[]| |]];
      cbn [outcome state trace prepend] in *; try discriminate.
    destruct He as (H1 & H2 & H3). intros _.
    rewrite bind_result, free_inner by (rewrite H2; unfold s1; fields; lia).
    cbn [outcome state trace prepend ret]. fields. rewrite H2. reflexivity.
  - rewrite bind_ret. intros _.
    rewrite bind_result, free_inner by (unfold s1; fields; lia).
    reflexivity.
Qed.

Lemma body_rest (h : head) (s : conn) :
  closed s = false ->
  0 <= h_length h -> 0 <= h_start h ->
  h_start h + h_length h <= Buffer.length (dataReceived s) ->
  outcome (body JSON_parse toString h s) = Normal true ->
  dataReceived (state (body JSON_parse toString h s)) =
    skipn (Z.to_nat (h_start h + h_length h)) (dataReceived s).
Proof.
  intros Hc Hl Hs Hd. unfold body. rewrite bind_result.
  destruct (decrypt_state h s) as (d1 & Hst & Hlen & Hrest).
  destruct (decrypt h s) as [s1 t1 [[]| |]]; cbn [outcome state trace prepend] in *;
    try discriminate.
  subst s1. intros Ho.
  rewrite take_rest by (fields; unfold Buffer.length in *; (assumption || lia)).
  fields. rewrite Z2Nat.inj_add by lia. apply Hrest. exact Hs.
Qed.

Lemma regular_stream (fs : list Wire.frame) : forall s : conn,
  Forall (Wire.valid (2 ^ 32)) fs ->
  closed s = false ->
  dataReceived s = stream fs ->
  outcome (loop JSON_parse toString s) = Normal tt ->
  regular JSON_parse toString s.
Proof.
  induction fs as [|f fs IH]; intros s Hv Hc Hd Ho.
  - apply regular_wait. rewrite Hd. reflexivity.
  - apply Forall_cons_1 in Hv as (Hf & Hv).
    unfold stream in Hd. cbn [map List.concat] in Hd. fold (stream fs) in Hd.
    destruct (Z.eq_dec (Wire.opcode f) 8) as [H8|H8].
    { apply regular_close. rewrite Hd. apply scan_encode_close; assumption. }
    pose proof (scan_encode f (stream fs) Hf H8) as Hs. rewrite <- Hd in Hs.
    pose proof (scan_ready _ _ Hs) as (Hst & Hle).
    assert (Hl : 0 <= h_length (head_of f)) by (cbn; lia).
    rewrite (loop_ready JSON_parse toString s _ Hc Hs) in Ho. cbv zeta in Ho.
    destruct (outcome (body JSON_parse toString (head_of f) s)) as [[]| |] eqn:Hb;
      try discriminate.
    + apply (regular_turn _ _ s (head_of f) Hs Hl Hb).
      assert (Hop : closed (state (body JSON_parse toString (head_of f) s)) = false).
      { pose proof (frame_open JSON_parse toString s Hc) as F.
        rewrite frame_scan, Hs in F. exact (F Hb). }
      apply IH; try assumption.
      rewrite body_rest by (assumption || lia).
      rewrite Hd. cbn [h_start h_length head_of].
      pose proof (encode_length f Hf) as He.
      replace (Z.to_nat (Buffer.length (header f) + Z.of_nat (List.length (Wire.payload f))))
        with (List.length (Wire.encode f)) by (unfold Buffer.length in *; lia).
      rewrite skipn_app, skipn_all, Nat.sub_diag. reflexivity.
    + apply (regular_end _ _ s (head_of f) Hs Hl Hb).
Qed.

(** The bytes a regular run leaves in the buffer are the end of those it
    started from. *)
Lemma regular_suffix (s : conn) :
  regular JSON_parse toString s ->
  closed s = false ->
  closed (state (loop JSON_parse toString s)) = false ->
  exists n : nat,
    dataReceived (state (loop JSON_parse toString s)) = skipn n (dataReceived s).
Proof.
  intros Hreg. induction Hreg as [s Hs|s Hs|s h Hs Hl Ho|s h Hs Hl Ho Hreg IH]; intros Hc.
  - rewrite (loop_wait _ _ s Hc Hs). intros _. exists 0%nat. reflexivity.
  - rewrite (loop_close _ _ s Hc Hs), (close_open true s Hc). discriminate.
  - rewrite (loop_ready _ _ s h Hc Hs). cbv zeta. rewrite Ho. cbn [state].
    rewrite (body_closed _ _ h s Hc Ho). discriminate.
  - rewrite (loop_ready _ _ s h Hc Hs). cbv zeta. rewrite Ho. cbn [state prepend].
    assert (Hop : closed (state (body JSON_parse toString h s)) = false).
    { pose proof (frame_open JSON_parse toString s Hc) as F.
      rewrite frame_scan, Hs in F. exact (F Ho). }
    intros Hcl. destruct (IH Hop Hcl) as (n & Hn).
    pose proof (scan_ready _ _ Hs) as (Hst & Hle).
    rewrite body_rest in Hn by (assumption || lia).
    rewrite skipn_skipn in Hn. eexists. exact Hn.
Qed.

End Stream.

(** *** Decrypting what was encrypted *)

Lemma at_middle (a b : list Z) (c : Z) (r : list Z) :
  Buffer.at_ (a ++ b ++ c :: r) (Z.of_nat (List.length a) + Z.of_nat (List.length b)) = c.
Proof.
  unfold Buffer.at_. rewrite app_assoc.
  replace (Z.to_nat (Z.of_nat (List.length a) + Z.of_nat (List.length b)))
    with (List.length (a ++ b) + 0)%nat by (rewrite length_app; lia).
  rewrite app_nth2_plus. reflexivity.
Qed.

Lemma set_middle (a b : list Z) (c x : Z) (r : list Z) :
  Buffer.set_ (a ++ b ++ c :: r) (Z.of_nat (List.length a) + Z.of_nat (List.length b)) x =
    a ++ b ++ x :: r.
Proof.
  unfold Buffer.set_. rewrite !app_assoc.
  replace (Z.to_nat (Z.of_nat (List.length a) + Z.of_nat (List.length b)))
    with (List.length (a ++ b) + 0)%nat by (rewrite length_app; lia).
  rewrite insert_app_r. reflexivity.
Qed.

Lemma unmask_mask (key hdr rest : list Z) :
  List.length key = 4%nat -> Forall Wire.is_byte key ->
  forall todo done : list Z,
    Forall Wire.is_byte todo ->
    unmask (List.length todo) (Z.of_nat (List.length done)) key (Z.of_nat (List.length hdr))
      (hdr ++ done ++
       imap (fun j b => Z.lxor b (nth ((List.length done + j) mod 4) key 0)) todo ++ rest) =
    Normal (hdr ++ done ++ todo ++ rest).
Proof.
  intros Hk Hkb todo. induction todo as [|x todo IH]; intros done Hb; [reflexivity|].
  apply Forall_cons_1 in Hb as (Hx & Hb).
  cbn [List.length unmask imap app]. rewrite Nat.add_0_r.
  set (k := nth (List.length done mod 4) key 0).
  assert (Hkr : Wire.is_byte k).
  { unfold k. assert (Hlt : (List.length done mod 4 < List.length key)%nat).
    { rewrite Hk. apply Nat.mod_upper_bound. lia. }
    apply (proj1 (List.Forall_forall _ _) Hkb). apply nth_In. exact Hlt. }
  unfold Wire.is_byte in *.
  set (d := hdr ++ done ++ Z.lxor x k :: _).
  assert (Hin : Buffer.in_range d (Z.of_nat (List.length hdr) + Z.of_nat (List.length done)) 1 = true).
  { unfold Buffer.in_range, Buffer.length, d. rewrite !length_app. cbn [List.length].
    apply andb_true_iff. split; apply Z.leb_le; lia. }
  unfold Buffer.readUInt8 at 1. rewrite Hin. cbn [and_then].
  unfold d at 1. rewrite at_middle.
  assert (Hmod : 0 <= Z.of_nat (List.length done) mod 4 < 4) by (apply Z.mod_pos_bound; lia).
  assert (Hkey : Buffer.readUInt8 key (Z.of_nat (List.length done) mod 4) = Normal k).
  { unfold Buffer.readUInt8, Buffer.in_range, Buffer.length. rewrite Hk.
    destruct (Z.leb_spec 0 (Z.of_nat (List.length done) mod 4)); [|lia].
    destruct (Z.leb_spec (Z.of_nat (List.length done) mod 4 + 1) (Z.of_nat 4)); [|lia].
    cbn [andb]. unfold Buffer.at_, k. do 2 f_equal.
    change 4 with (Z.of_nat 4). rewrite <- Nat2Z.inj_mod. apply Nat2Z.id. }
  rewrite Hkey. cbn [and_then].
  rewrite bxor_bytes by (try apply lxor_byte; lia).
  rewrite Z.lxor_assoc, Z.lxor_nilpotent, Z.lxor_0_r.
  unfold Buffer.writeUInt8. rewrite Hin.
  destruct (Z.leb_spec 0 x); [|lia]. destruct (Z.leb_spec x 255); [|lia].
  cbn [andb and_then]. unfold d. rewrite set_middle.
  specialize (IH (done ++ [x]) Hb).
  rewrite length_app in IH. cbn [List.length] in IH.
  rewrite <- !app_assoc in IH. cbn [app] in IH.
  replace (Z.of_nat (List.length done) + 1) with (Z.of_nat (List.length done + 1)) by lia.
  rewrite <- IH. do 2 f_equal. do 3 f_equal.
  apply imap_ext. intros j y _. cbv beta. unfold compose.
  replace (List.length done + S j)%nat with (List.length done + 1 + j)%nat by lia.
  reflexivity.
Qed.

Section Decode.
Variable JSON_parse : jsstring -> option value.
Variable toString : Buffer.buffer -> jsstring.
Local Open Scope eff_scope.

Lemma slice_payload (hdr payload rest : list Z) :
  Buffer.slice (hdr ++ payload ++ rest) (Buffer.length hdr)
    (Buffer.length hdr + Z.of_nat (List.length payload)) = payload.
Proof.
  pose proof (length_nonneg hdr).
  rewrite slice_inner
    by (rewrite ?length_app_Z; unfold Buffer.length in *; rewrite ?length_app; lia).
  replace (Buffer.length hdr + Z.of_nat (List.length payload) - Buffer.length hdr)
    with (Z.of_nat (List.length payload)) by lia.
  unfold Buffer.length. rewrite !Nat2Z.id.
  rewrite skipn_app, skipn_all, Nat.sub_diag. rewrite drop_0. cbn [app].
  rewrite firstn_app, firstn_all, Nat.sub_diag. cbn. apply app_nil_r.
Qed.

Lemma frame_encode (f : Wire.frame) (rest : list Z) (s : conn) :
  Wire.valid (2 ^ 32) f -> Wire.opcode f <> 8 ->
  dataReceived s = Wire.encode f ++ rest ->
  frame JSON_parse toString s = accept JSON_parse toString f rest s.
Proof.
  intros Hv H8 Hd. rewrite frame_scan, Hd, (scan_encode f rest Hv H8).
  destruct Hv as (Hop & Hpb & Hn & Hkey).
  unfold body, accept.
  assert (Hdec : decrypt (head_of f) s =
                 Result (set_dataReceived (header f ++ Wire.payload f ++ rest) s) [] (Normal tt)).
  { unfold decrypt, head_of. cbn [h_mask h_key h_length h_start].
    rewrite encode_header, <- app_assoc in Hd.
    destruct (Wire.masking_key f) as [key|].
    - rewrite bind_gets, Hd, Nat2Z.id.
      pose proof (unmask_mask key (header f) rest (proj1 Hkey) (proj2 Hkey)
                    (Wire.payload f) [] Hpb) as U.
      cbn [List.length app Init.Nat.add] in U. change (Z.of_nat 0) with 0 in U.
      unfold Wire.mask, Buffer.length. rewrite U. reflexivity.
    - rewrite <- Hd. destruct s; reflexivity. }
  rewrite (bind_result (decrypt _)), Hdec. cbn [outcome state trace]. rewrite prepend_nil.
  rewrite bind_modify.
  unfold take. rewrite !bind_gets. fields. cbn [head_of h_start h_length h_fin h_opcode].
  rewrite slice_payload.
  change (Z.of_nat (List.length (Wire.payload f))) with (Buffer.length (Wire.payload f)).
  rewrite concat_exact, bind_lift, !bind_modify. fields.
  set (s1 := set_payloadReceived _ _).
  assert (Hfree : forall s2 : conn, dataReceived s2 = header f ++ Wire.payload f ++ rest ->
    (free (Buffer.length (header f) + Buffer.length (Wire.payload f)) ;; ret true) s2 =
    (modify (set_dataReceived rest) ;; ret true) s2).
  { intros s2 H2. rewrite !(bind_result _ (fun _ => ret true)).
    rewrite free_inner
      by (rewrite H2, !length_app_Z; pose proof (length_nonneg (header f));
          pose proof (length_nonneg (Wire.payload f)); pose proof (length_nonneg rest); lia).
    rewrite H2. unfold Buffer.length. rewrite <- Nat2Z.inj_add, Nat2Z.id.
    rewrite app_assoc, skipn_app, skipn_all2 by (rewrite length_app; lia).
    rewrite length_app, Nat.sub_diag. reflexivity. }
  destruct (Wire.fin f).
  - rewrite !(bind_result (deliver _ _ _)).
    pose proof (deliver_ends JSON_parse toString (Wire.opcode f) s1) as He.
    destruct (closed s1) eqn:Hc1.
    + (* a closed connection: [deliver] goes its way all the same *)
      clear He.
      assert (Hdd : dataReceived (state (deliver JSON_parse toString (Wire.opcode f) s1)) =
                    dataReceived s1 \/
                    outcome (deliver JSON_parse toString (Wire.opcode f) s1) = Normal false).
      { unfold deliver. destruct (_ =? 1).
        - rewrite bind_bind, bind_gets. destruct (JSON_parse _) as [v|].
          + rewrite bind_bind, bind_result.
            pose proof (dispatch_fields v s1) as (_ & D & _).
            destruct (dispatch v s1) as [s3 t3 [[]| |]]; cbn [outcome state trace prepend] in *;
              rewrite ?bind_ret, ?bind_modify; cbn [state ret]; fields; auto.
          + rewrite bind_bind, bind_result, close_closed by exact Hc1.
            cbn [outcome state trace prepend]. rewrite bind_ret. auto.
        - rewrite bind_ret, bind_modify. auto. }
      destruct (deliver JSON_parse toString (Wire.opcode f) s1) as [s2 t2 [[]| |]];
        cbn [outcome state trace prepend] in *; try reflexivity.
      destruct Hdd as [Hdd|Hdd]; [|discriminate]. rewrite Hfree by exact Hdd. reflexivity.
    + specialize (He eq_refl). cbv zeta in He.
      destruct (deliver JSON_parse toString (Wire.opcode f) s1) as [s2 t2 [[]| |]];
        cbn [outcome state trace prepend] in *; try reflexivity.
      destruct He as (_ & H2 & _). rewrite Hfree by exact H2. reflexivity.
  - rewrite !bind_ret. apply Hfree. reflexivity.
Qed.

End Decode.
End Framing.

(* ================================================================== *)
(** ** Counting callbacks against a flag *)
(* ================================================================== *)

(** [tracks] follows the structure of a computation, for a relation
    that is reflexive and that composes along a sequence. *)
Module Tracking.
Import Observe.

Section Tracking.
Context {S E : Type}.
Variable p : E -> bool.
Variable w : S -> nat.
Variable R : nat -> nat -> Prop.
Hypothesis R_refl : forall n : nat, R n n.
Hypothesis R_step : forall a b x y z : nat, R (a + x) y -> R (b + y) z -> R (a + b + x) z.

Lemma count_app (t t' : list E) : count p (t ++ t') = (count p t + count p t')%nat.
Proof. unfold count. rewrite List.filter_app, length_app. reflexivity. Qed.

Lemma tracks_ret {A} (a : A) : tracks p w R (ret a).
Proof using R_refl. intros s. apply R_refl. Qed.

Lemma tracks_lift {A} (c : completion A) : tracks p w R (lift c).
Proof using R_refl. intros s. apply R_refl. Qed.

Lemma tracks_throw {A} (e : exn) : tracks p w R (throw (A:=A) e).
Proof using R_refl. intros s. apply R_refl. Qed.

Lemma tracks_gets {A} (f : S -> A) : tracks p w R (gets f).
Proof using R_refl. intros s. apply R_refl. Qed.

Lemma tracks_modify (f : S -> S) : (forall s, w (f s) = w s) -> tracks p w R (modify f).
Proof using R_refl. intros H s. cbn. rewrite H. apply R_refl. Qed.

Lemma tracks_emit (e : E) : p e = false -> tracks p w R (emit e).
Proof using R_refl. intros H s. unfold count. cbn. rewrite H. apply R_refl. Qed.

Lemma tracks_bind {A B} (m : M S E A) (k : A -> M S E B) :
  tracks p w R m -> (forall a, tracks p w R (k a)) -> tracks p w R (bind m k).
Proof using R_step.
  intros Hm Hk s. unfold bind. specialize (Hm s).
  destruct (m s) as [s1 t1 [a| |]]; cbn [outcome state trace] in *; try exact Hm.
  specialize (Hk a s1). rewrite count_app. eapply R_step; eassumption.
Qed.

End Tracking.
End Tracking.

(** The rules applied along a definition; [known] closes what the
    definition at hand needs beyond them. *)
Ltac track_with known :=
  let side := solve [assumption | known] in
  repeat first
    [ known
    | apply Tracking.tracks_ret; side
    | apply Tracking.tracks_gets; side
    | apply Tracking.tracks_lift; side
    | apply Tracking.tracks_throw; side
    | apply Tracking.tracks_modify; [side|]
    | apply Tracking.tracks_emit; [side|]
    | apply Tracking.tracks_bind; [side| |intros ?]
    | match goal with
      | |- Observe.tracks _ _ _ (if ?b then _ else _) => destruct b
      | |- Observe.tracks _ _ _ (match ?x with _ => _ end) => destruct x
      end ].

(** What the listeners and the methods of the server track, given what
    [close] and [dispatch] do. *)
Module ServerTracking.
Import Server Observe.

Section Facts.
Variable JSON_parse : jsstring -> option value.
Variable toString : Buffer.buffer -> jsstring.
Variable p : event -> bool.
Variable w : conn -> nat.
Variable R : nat -> nat -> Prop.
Hypothesis R_refl : forall n : nat, R n n.
Hypothesis R_step : forall a b x y z : nat, R (a + x) y -> R (b + y) z -> R (a + b + x) z.
Hypothesis p_write : forall b, p (Write b) = false.
Hypothesis p_message : forall f v, p (MessageHandler f v) = false.
Hypothesis w_data : forall d s, w (set_dataReceived d s) = w s.
Hypothesis w_payload : forall d s, w (set_payloadReceived d s) = w s.
Hypothesis w_handlers : forall d s, w (set_messageHandlers d s) = w s.
Hypothesis w_close_handler : forall d s, w (set_closeHandler d s) = w s.

Abbreviation tracks := (Observe.tracks p w R).

Ltac known :=
  first [ apply p_write | apply p_message | intros; apply w_data | intros; apply w_payload
        | intros; apply w_handlers | intros; apply w_close_handler ].

Lemma tracks_sendMessage (m : value) : tracks (sendMessage m).
Proof using R_refl R_step p_write.
  unfold sendMessage. track_with ltac:(apply p_write).
Qed.

Hypothesis tracks_close : forall b, tracks (close b).
Hypothesis tracks_dispatch : forall v, tracks (dispatch v).

Lemma tracks_frame : tracks (frame JSON_parse toString).
Proof using All.
  unfold frame, deliver, free.
  track_with ltac:(first [apply tracks_close | apply tracks_dispatch | known]).
Qed.

Lemma tracks_frames (n : nat) : tracks (frames JSON_parse toString n).
Proof using All.
  induction n as [|n IH]; cbn [frames]; [apply Tracking.tracks_lift, R_refl|].
  apply Tracking.tracks_bind; [assumption|apply tracks_frame|].
  intros []; [exact IH|apply Tracking.tracks_ret, R_refl].
Qed.

Lemma tracks_on_data (c : Buffer.buffer) : tracks (on_data JSON_parse toString c).
Proof using All.
  unfold on_data.
  track_with ltac:(first [known | intros s; apply tracks_frames]).
Qed.

Lemma tracks_step (o : op) : tracks (step JSON_parse toString o).
Proof using All.
  destruct o; cbn [step].
  - apply tracks_on_data.
  - apply tracks_close.
  - unfold send. track_with ltac:(apply tracks_sendMessage).
  - unfold receive. track_with known.
  - unfold close_. destruct handler; track_with ltac:(first [apply tracks_close | known]).
Qed.

Lemma tracks_run (ops : list op) : forall s : conn,
  R (count p (fst (run JSON_parse toString ops s)) + w s)
    (w (snd (run JSON_parse toString ops s))).
Proof using All.
  induction ops as [|o ops IH]; intros s; cbn [run].
  - apply R_refl.
  - pose proof (tracks_step o s) as H1. specialize (IH (state (step JSON_parse toString o s))).
    destruct (run JSON_parse toString ops _) as [t s']. cbn [fst snd] in *.
    rewrite Tracking.count_app. eapply R_step; eassumption.
Qed.

End Facts.
End ServerTracking.

(* ================================================================== *)
(** ** The server session *)
(* ================================================================== *)

Module ServerProps.
Import Server Analysis Observe Framing ServerTracking.

Section Props.
Variable JSON_parse : jsstring -> option value.
Variable toString : Buffer.buffer -> jsstring.
Local Open Scope eff_scope.

(** *** The connection handler against [started] *)

Lemma eq_step (a b x y z : nat) : (a + x = y -> b + y = z -> a + b + x = z)%nat.
Proof. lia. Qed.

Lemma le_step (a b x y z : nat) : (a + x <= y -> b + y <= z -> a + b + x <= z)%nat.
Proof. lia. Qed.

Lemma handler_close (b : bool) : tracks is_handler started_weight eq (close b).
Proof.
  unfold close.
  track_with ltac:(first [ apply tracks_sendMessage; [reflexivity|exact eq_step|reflexivity]
                         | exact (@eq_refl nat) | exact eq_step | reflexivity ]).
Qed.

Lemma get_object (props : list (jsstring * value)) (k : jsstring) :
  get (VObject props) k = Normal (lookup_prop k props).
Proof. reflexivity. Qed.

Lemma handler_dispatch (v : value) :
  tracks is_handler started_weight eq (dispatch v).
Proof.
  intros s. unfold dispatch, started_weight, start.
  destruct v; try reflexivity. rewrite !get_object, bind_lift.
  destruct (strict_eq_string _ _).
  { rewrite bind_gets. destruct (started s) eqn:E; [cbn; rewrite ?E; reflexivity|].
    rewrite bind_modify. cbn. rewrite ?E. reflexivity. }
  destruct (strict_eq_string _ _).
  { rewrite bind_gets. destruct (started s) eqn:E; [cbn; rewrite ?E; reflexivity|].
    rewrite bind_modify, bind_lift. cbn. rewrite ?E. reflexivity. }
  destruct (strict_eq_string _ _); [|reflexivity].
  rewrite bind_lift, bind_gets. looked_up.
Qed.

Lemma handler_run (ops : list op) (s : conn) :
  (count is_handler (fst (run JSON_parse toString ops s)) + flag (started s) =
   flag (started (snd (run JSON_parse toString ops s))))%nat.
Proof.
  apply (tracks_run JSON_parse toString is_handler started_weight eq);
    try reflexivity; try exact eq_step; try exact handler_close; exact handler_dispatch.
Qed.

(** *** The close callback against [closed] *)

Lemma closer_close (b : bool) : tracks is_close_handler closed_weight le (close b).
Proof.
  intros s. unfold closed_weight. destruct (closed s) eqn:Hc.
  - rewrite close_closed by exact Hc. cbn. rewrite Hc. cbn. lia.
  - rewrite close_open by exact Hc. cbn [state trace]. unfold close_events, count.
    destruct b, (closeHandler s); cbn; lia.
Qed.

Lemma closer_dispatch (v : value) :
  tracks is_close_handler closed_weight le (dispatch v).
Proof.
  unfold dispatch, start.
  track_with ltac:(first [ exact Nat.le_refl | exact le_step | reflexivity ]).
Qed.

Lemma closer_run (ops : list op) (s : conn) :
  (count is_close_handler (fst (run JSON_parse toString ops s)) + flag (closed s) <=
   flag (closed (snd (run JSON_parse toString ops s))))%nat.
Proof.
  apply (tracks_run JSON_parse toString is_close_handler closed_weight le);
    try reflexivity; try exact le_step; try exact Nat.le_refl;
    try exact closer_close; exact closer_dispatch.
Qed.


(** *** One frame, one message *)

Lemma dispatch_buffers (v : value) (s : conn) (d q : Buffer.buffer) :
  dispatch v (set_dataReceived d (set_payloadReceived q s)) =
    mapstate (fun x => set_dataReceived d (set_payloadReceived q x)) (dispatch v s).
Proof.
  unfold dispatch. destruct v; try reflexivity. rewrite !get_object, !bind_lift.
  destruct (strict_eq_string _ _).
  { rewrite !bind_gets. fields. destruct (started s); reflexivity. }
  destruct (strict_eq_string _ _).
  { rewrite !bind_gets. fields. destruct (started s); reflexivity. }
  destruct (strict_eq_string _ _); [|reflexivity].
  rewrite !bind_lift, !bind_gets. fields. looked_up.
Qed.

Lemma on_data_frame (f : Wire.frame) (rest : list Z) (s : conn) :
  Wire.valid (2 ^ 32) f -> Wire.opcode f <> 8 ->
  closed s = false -> dataReceived s = [] ->
  on_data JSON_parse toString (Wire.encode f ++ rest) s =
    let r := accept JSON_parse toString f rest (more (Wire.encode f ++ rest) s) in
    match outcome r with
    | Normal true => prepend (trace r) (loop JSON_parse toString (state r))
    | Normal false => Result (state r) (trace r) (Normal tt)
    | Throw e => Result (state r) (trace r) (Throw e)
    | Timeout => Result (state r) (trace r) Timeout
    end.
Proof.
  intros Hv H8 Hc Hd. rewrite on_data_open by exact Hc.
  rewrite loop_unfold by exact Hc.
  rewrite (frame_encode JSON_parse toString f rest) by (fields; rewrite ?Hd; auto).
  reflexivity.
Qed.

Lemma on_data_message (f : Wire.frame) (s : conn) (v : value) :
  Wire.valid (2 ^ 32) f -> Wire.fin f = true -> Wire.opcode f = 1 ->
  closed s = false -> dataReceived s = [] ->
  JSON_parse (toString (payloadReceived s ++ Wire.payload f)) = Some v ->
  outcome (dispatch v s) = Normal tt ->
  on_data JSON_parse toString (Wire.encode f) s =
    Result (set_payloadReceived [] (state (dispatch v s))) (trace (dispatch v s)) (Normal tt).
Proof.
  intros Hv Hfin Hop Hc Hd Hp Ho.
  rewrite <- (app_nil_r (Wire.encode f)).
  rewrite on_data_frame by (assumption || lia). cbv zeta.
  unfold accept. rewrite !bind_modify, Hfin, Hop. fields.
  unfold deliver. change (1 =? 1) with true. cbv iota.
  rewrite !bind_bind, bind_gets. fields. rewrite Hp.
  rewrite !bind_bind, (bind_result (dispatch v)).
  change (set_payloadReceived (payloadReceived s ++ Wire.payload f)
            (set_dataReceived (header f ++ Wire.payload f ++ [])
               (more (Wire.encode f ++ []) s)))
    with (set_dataReceived (header f ++ Wire.payload f ++ [])
            (set_payloadReceived (payloadReceived s ++ Wire.payload f) s)).
  rewrite dispatch_buffers.
  pose proof (dispatch_fields v s) as (F1 & F2 & F3 & F4 & F5).
  destruct (dispatch_state v s) as [Hs|Hs].
  all: destruct (dispatch v s) as [s1 t1 o1]; cbn [outcome state trace mapstate] in *;
    subst o1 s1; cbv iota;
    rewrite bind_ret, bind_bind, bind_modify, bind_ret, bind_modify;
    cbn [outcome state trace prepend ret]; fields.
  all: rewrite loop_wait by (fields; auto);
    unfold prepend; cbn [outcome state trace]; rewrite ?app_nil_r; destruct s; fields; subst;
    reflexivity.
Qed.

(** *** Ending of a text message that is not JSON, passing of other frames *)

Lemma on_data_not_json (f : Wire.frame) (rest : list Z) (s : conn) :
  Wire.valid (2 ^ 32) f -> Wire.fin f = true -> Wire.opcode f = 1 ->
  closed s = false -> dataReceived s = [] ->
  JSON_parse (toString (payloadReceived s ++ Wire.payload f)) = None ->
  on_data JSON_parse toString (Wire.encode f ++ rest) s =
    Result (set_closed true (set_payloadReceived (payloadReceived s ++ Wire.payload f) s))
           ([Write [129]; Write [16]; Write close_text] ++
            match closeHandler s with Some h => [CloseHandler h] | None => [] end)
           (Normal tt).
Proof.
  intros Hv Hfin Hop Hc Hd Hp.
  rewrite on_data_frame by (assumption || lia). cbv zeta.
  unfold accept. rewrite !bind_modify, Hfin, Hop. fields.
  unfold deliver. change (1 =? 1) with true. cbv iota.
  rewrite !bind_bind, bind_gets. fields. rewrite Hp.
  rewrite !bind_bind, (bind_result (close true)), close_open by exact Hc.
  cbn [outcome state trace]. rewrite !bind_ret. cbn [outcome state trace prepend ret].
  unfold close_events. fields. rewrite ?app_nil_r. destruct s; fields; subst. reflexivity.
Qed.

Lemma on_data_other (f : Wire.frame) (rest : list Z) (s : conn) :
  Wire.valid (2 ^ 32) f -> Wire.fin f = true ->
  Wire.opcode f <> 1 -> Wire.opcode f <> 8 ->
  closed s = false -> dataReceived s = [] ->
  on_data JSON_parse toString (Wire.encode f ++ rest) s =
    on_data JSON_parse toString rest (set_payloadReceived [] s).
Proof.
  intros Hv Hfin H1 H8 Hc Hd.
  rewrite on_data_frame by assumption. cbv zeta.
  unfold accept. rewrite !bind_modify, Hfin. fields.
  unfold deliver. destruct (Z.eqb_spec (Wire.opcode f) 1) as [|_]; [contradiction|].
  repeat (progress (rewrite ?bind_bind, ?bind_ret, ?bind_modify; cbv iota)).
  cbn [outcome state trace prepend ret].
  rewrite (on_data_open _ _ rest) by exact Hc.
  unfold more, prepend. fields. rewrite Hd. cbn [app].
  destruct (loop _ _ _); reflexivity.
Qed.

End Props.
End ServerProps.

(* ================================================================== *)
(** ** The client session *)
(* ================================================================== *)

Module ClientProps.
Import Client Observe.

Abbreviation tracks := (Observe.tracks is_client_close_handler client_closed_weight le).

Ltac basics :=
  first [ exact Nat.le_refl | exact ServerProps.le_step | reflexivity ].

Section Props.
Variable JSON_parse : jsstring -> option value.
Local Open Scope eff_scope.

Lemma closer_transmit_all (q : list value) : tracks (transmit_all q).
Proof.
  induction q as [|x q IH]; cbn [transmit_all]; [track_with basics|].
  unfold transmit. track_with ltac:(first [exact IH | basics]).
Qed.

Lemma closer_flush : tracks flushOutgoingQueue.
Proof.
  unfold flushOutgoingQueue, splice0.
  track_with ltac:(first [apply closer_transmit_all | basics]).
Qed.

Lemma client_close_open (s : session) :
  permanentlyClosed s = false ->
  close s =
    Result
      (match websocket s with
       | CLOSING | CLOSED => set_permanentlyClosed true s
       | _ => set_websocket CLOSING (set_permanentlyClosed true s)
       end)
      (match websocket s with
       | CLOSING | CLOSED => []
       | _ => [WsClose]
       end ++
       match closeHandler s with
       | Some f => [CloseHandler f]
       | None => []
       end)
      (Normal tt).
Proof.
  intros Hc. unfold close. rewrite bind_gets, Hc, bind_modify, bind_gets.
  destruct s as [ws pc td mh dh rh ch q n]. cbn in *. subst pc.
  destruct ws, ch; reflexivity.
Qed.

Lemma client_close_closed (s : session) :
  permanentlyClosed s = true -> close s = Result s [] (Normal tt).
Proof. intros Hc. unfold close. rewrite bind_gets, Hc. reflexivity. Qed.

Lemma client_closer_close : tracks close.
Proof.
  intros s. unfold client_closed_weight. destruct (permanentlyClosed s) eqn:Hc.
  - rewrite client_close_closed by exact Hc. cbn. rewrite Hc. cbn. lia.
  - rewrite client_close_open by exact Hc. cbn [state trace]. unfold count.
    destruct (websocket s), (closeHandler s); cbn; lia.
Qed.

Lemma client_closer_step (o : op) : tracks (step JSON_parse o).
Proof.
  destruct o; cbn [step].
  - unfold onSocketOpen, splice0, push.
    track_with ltac:(first [apply closer_flush | basics]).
  - unfold onSocketMessage.
    track_with ltac:(first [apply client_closer_close | basics]).
  - unfold onSocketClose. track_with basics.
  - unfold onInterval. track_with basics.
  - unfold send, push. track_with ltac:(first [apply closer_flush | basics]).
  - unfold receive. track_with basics.
  - unfold disconnect. track_with basics.
  - unfold reconnect. track_with basics.
  - unfold close_. destruct handler; track_with ltac:(first [apply client_closer_close | basics]).
Qed.

Lemma client_closer_run (ops : list op) : forall s : session,
  (count is_client_close_handler (fst (run JSON_parse ops s)) + flag (permanentlyClosed s) <=
   flag (permanentlyClosed (snd (run JSON_parse ops s))))%nat.
Proof.
  induction ops as [|o ops IH]; intros s; cbn [run].
  - cbn. lia.
  - pose proof (client_closer_step o s) as H1. specialize (IH (state (step JSON_parse o s))).
    destruct (run JSON_parse ops _) as [t s']. cbn [fst snd] in *.
    rewrite Tracking.count_app. unfold client_closed_weight in H1. lia.
Qed.

(** *** The outgoing queue *)

Lemma transmit_all_state (q : list value) (s : session) :
  state (transmit_all q s) = s /\ outcome (transmit_all q s) = Normal tt.
Proof.
  revert s. induction q as [|x q IH]; intros s; [split; reflexivity|].
  cbn [transmit_all]. rewrite bind_result.
  assert (Ht : state (transmit x s) = s /\ outcome (transmit x s) = Normal tt).
  { unfold transmit. destruct (JSON.stringify x); split; reflexivity. }
  destruct Ht as (H1 & H2). rewrite H2, H1. cbn [state outcome prepend]. apply IH.
Qed.

Lemma flush_empties (s : session) :
  permanentlyClosed s || temporarilyDisconnected s = true \/ websocket s = OPEN ->
  outgoingQueue (state (flushOutgoingQueue s)) = [].
Proof.
  intros H. unfold flushOutgoingQueue. rewrite !bind_gets.
  assert (Hsplice : forall s' : session, outgoingQueue s' = outgoingQueue s ->
    outgoingQueue (state ((if (0 <? List.length (outgoingQueue s))%nat
                           then splice0 (List.length (outgoingQueue s))
                           else ret tt) s')) = []).
  { intros s' Hq. destruct (Nat.ltb_spec 0 (List.length (outgoingQueue s))).
    - cbn. rewrite Hq. apply skipn_all.
    - cbn. rewrite Hq. destruct (outgoingQueue s); [reflexivity|cbn in *; lia]. }
  destruct (permanentlyClosed s || temporarilyDisconnected s) eqn:Hdown.
  - apply Hsplice. reflexivity.
  - destruct H as [H|H]; [discriminate|]. rewrite bind_gets, H.
    rewrite bind_result.
    destruct (transmit_all_state (outgoingQueue s) s) as (H1 & H2).
    rewrite H2. cbn [state prepend]. rewrite H1. apply Hsplice. reflexivity.
Qed.

Lemma opened_empties (returned : value) (s : session) :
  outgoingQueue (state (step JSON_parse (Opened returned) s)) = [].
Proof.
  cbn [step]. rewrite bind_modify. set (s1 := set_websocket OPEN s).
  assert (Hws : websocket s1 = OPEN) by reflexivity. clearbody s1.
  unfold onSocketOpen. rewrite bind_gets.
  assert (Hflush : forall s2 : session, websocket s2 = OPEN ->
            outgoingQueue (state (flushOutgoingQueue s2)) = []).
  { intros s2 H2. apply flush_empties. right. exact H2. }
  destruct (temporarilyDisconnected s1).
  - mnorm.
    set (s2 := set_temporarilyDisconnected false s1).
    assert (Hq : exists s3, (if (0 <? List.length (outgoingQueue s2))%nat
                             then splice0 (List.length (outgoingQueue s2))
                             else ret tt) s2 = Result s3 [] (Normal tt) /\
                            outgoingQueue s3 = [] /\ websocket s3 = OPEN).
    { destruct (Nat.ltb_spec 0 (List.length (outgoingQueue s2))).
      - eexists. split; [reflexivity|]. split; [apply skipn_all|exact Hws].
      - exists s2. split; [reflexivity|]. split; [|exact Hws].
        destruct (outgoingQueue s2); [reflexivity|cbn in *; lia]. }
    destruct Hq as (s3 & Hs3 & Hq3 & Hw3).
    rewrite (bind_result _ _ s2), Hs3. cbn [outcome state trace]. rewrite prepend_nil.
    mnorm. destruct (reconnectHandler s3).
    + mnorm. rewrite bind_emit. cbn [state prepend].
      destruct (negb (jsonConvertible _)).
      * rewrite bind_throw. exact Hq3.
      * mnorm. unfold push. mnorm. apply Hflush. exact Hw3.
    + mnorm. unfold push. mnorm. apply Hflush. exact Hw3.
  - mnorm. apply Hflush. exact Hws.
Qed.

End Props.
End ClientProps.

(* ================================================================== *)
(** ** Chunks *)
(* ================================================================== *)

Module Chunks.
Import Server Analysis Observe Framing.

Section Chunks.
Variable JSON_parse : jsstring -> option value.
Variable toString : Buffer.buffer -> jsstring.

(** A run that is regular with more bytes is regular with fewer. *)
Lemma regular_prefix (s2 : conn) :
  regular JSON_parse toString s2 ->
  forall (s : conn) (b : Buffer.buffer),
    closed s = false -> s2 = more b s -> regular JSON_parse toString s.
Proof.
  intros Hreg.
  induction Hreg as [s2 Hs2|s2 Hs2|s2 h Hs2 Hl Ho|s2 h Hs2 Hl Ho Hreg IH];
    intros s b Hc ->; fields.
  all: destruct (scan (dataReceived s)) as [| |h'] eqn:Hs;
    [ apply regular_wait; exact Hs
    | apply regular_close; exact Hs
    | try (apply (scan_ready_app _ b) in Hs; congruence) ].
  - pose proof (scan_ready _ _ Hs) as (Hst & Hd).
    pose proof (scan_ready_app _ b _ Hs) as Hs'. fields.
    assert (h' = h) by congruence. subst h'.
    rewrite (body_more JSON_parse toString h s b) in Ho by (assumption || lia).
    rewrite after_outcome in Ho.
    eapply regular_end; eassumption.
  - pose proof (scan_ready _ _ Hs) as (Hst & Hd).
    pose proof (scan_ready_app _ b _ Hs) as Hs'. fields.
    assert (h' = h) by congruence. subst h'.
    rewrite (body_more JSON_parse toString h s b) in Ho, IH by (assumption || lia).
    rewrite after_outcome in Ho.
    assert (Hop : closed (state (body JSON_parse toString h s)) = false).
    { pose proof (frame_open JSON_parse toString s Hc) as F.
      rewrite frame_scan, Hs in F. exact (F Ho). }
    rewrite after_open in IH by exact Hop. cbn [mapstate state] in IH.
    eapply regular_turn; try eassumption.
    exact (IH _ b Hop eq_refl).
Qed.

(** What a regular run leaves in the buffer is no whole frame. *)
Lemma loop_rest (s : conn) :
  regular JSON_parse toString s ->
  closed s = false ->
  closed (state (loop JSON_parse toString s)) = false ->
  scan (dataReceived (state (loop JSON_parse toString s))) = Incomplete.
Proof.
  intros Hreg Hc Hl.
  destruct (loop_more JSON_parse toString s Hreg s [] Hc) as (_ & _ & H).
  { symmetry. apply more_nil. }
  exact (proj2 (H Hl)).
Qed.

Lemma concat_app_more (pre post : list Buffer.buffer) (s : conn) :
  more (List.concat (pre ++ post)) s = more (List.concat post) (more (List.concat pre) s).
Proof. rewrite List.concat_app, more_more. reflexivity. Qed.

(** Chunks of a stream of frames, fed to a connection with nothing in
    its buffer: the whole of it, and every part fed so far. *)
Lemma feed_stream (fs : list Wire.frame) (pre post : list Buffer.buffer) (s : conn) :
  Forall (Wire.valid (2 ^ 32)) fs ->
  closed s = false ->
  dataReceived s = [] ->
  List.concat (pre ++ post) = stream fs ->
  outcome (on_data JSON_parse toString (stream fs) s) = Normal tt ->
  feed JSON_parse toString pre s = loop JSON_parse toString (more (List.concat pre) s) /\
  regular JSON_parse toString (more (List.concat pre) s).
Proof.
  intros Hfs Hc Hd Hcat Ho.
  rewrite on_data_open in Ho by exact Hc.
  assert (Hreg : regular JSON_parse toString (more (stream fs) s)).
  { apply (regular_stream JSON_parse toString fs); try assumption.
    unfold more. fields. rewrite Hd. reflexivity. }
  rewrite <- Hcat, concat_app_more in Hreg.
  assert (Hpre : regular JSON_parse toString (more (List.concat pre) s)).
  { apply (regular_prefix _ Hreg _ (List.concat post)); [exact Hc|reflexivity]. }
  split; [|exact Hpre].
  apply feed_loop; try assumption.
  rewrite Hd. reflexivity.
Qed.

End Chunks.
End Chunks.

(* ================================================================== *)
(** ** The decoder fed in chunks *)
(* ================================================================== *)

Section Chunked.
Variable JSON_parse : jsstring -> option value.
Variable toString : Buffer.buffer -> jsstring.

(** X25: the decoder fed in chunks, when nothing throws.  A stream of
    frames on which the listener returns normally when it is fed whole
    to a connection with an empty buffer gives, fed in chunks cut at any
    offsets, the same result: the same events (the payloads handed to
    the application, in order), the same final state, the same outcome.
    After every chunk the listener has returned normally and, while the
    connection is open, the buffer holds an end of the bytes fed so far,
    which is no whole frame. *)
Theorem chunked_feed (fs : list Wire.frame) (chunks : list Buffer.buffer) (s : Server.conn) :
  Forall (Wire.valid (2 ^ 32)) fs ->
  Server.dataReceived s = [] ->
  List.concat chunks = Analysis.stream fs ->
  outcome (Server.on_data JSON_parse toString (Analysis.stream fs) s) = Normal tt ->
  Server.feed JSON_parse toString chunks s =
    Server.on_data JSON_parse toString (Analysis.stream fs) s /\
  forall pre post : list Buffer.buffer, chunks = pre ++ post ->
    let r := Server.feed JSON_parse toString pre s in
    outcome r = Normal tt /\
    (Server.closed (state r) = false ->
     (exists n : nat, Server.dataReceived (state r) = skipn n (List.concat pre)) /\
     Analysis.scan (Server.dataReceived (state r)) = Analysis.Incomplete).
Proof.
  intros Hfs Hd Hcat Ho.
  destruct (Server.closed s) eqn:Hc.
  - split.
    + rewrite Framing.feed_closed, Framing.on_data_closed by exact Hc. reflexivity.
    + intros pre post _. cbv zeta. rewrite Framing.feed_closed by exact Hc.
      cbn [outcome state]. split; [reflexivity|congruence].
  - split.
    + destruct (Chunks.feed_stream JSON_parse toString fs chunks [] s) as [Hf _];
        try assumption.
      { rewrite app_nil_r. exact Hcat. }
      rewrite Hf, Hcat, Framing.on_data_open by exact Hc. reflexivity.
    + intros pre post ->. cbv zeta.
      destruct (Chunks.feed_stream JSON_parse toString fs pre post s) as [Hf Hreg];
        try assumption.
      rewrite Hf.
      assert (Hc' : Server.closed (Analysis.more (List.concat pre) s) = false) by exact Hc.
      split.
      * destruct (Framing.loop_more JSON_parse toString _ Hreg _ [] Hc') as (H & _).
        { symmetry. apply Framing.more_nil. }
        exact H.
      * intros Hl. split.
        -- destruct (Framing.regular_suffix JSON_parse toString _ Hreg Hc' Hl) as [n Hn].
           exists n. rewrite Hn. unfold Analysis.more. cbn. rewrite Hd. reflexivity.
        -- apply Chunks.loop_rest; assumption.
Qed.

End Chunked.

(** The decided validity of a frame is its validity. *)
Lemma bytes_check (bs : list Z) : forallb Wire.is_byteb bs = true -> Forall Wire.is_byte bs.
Proof.
  intros H. apply List.Forall_forall. intros b Hb.
  apply (proj1 (forallb_forall _ _) H) in Hb.
  unfold Wire.is_byteb in Hb. apply andb_true_iff in Hb as [H0 H1].
  apply Z.leb_le in H0. apply Z.ltb_lt in H1. split; assumption.
Qed.

Lemma valid_check (limit : Z) (f : Wire.frame) :
  Wire.validb limit f = true -> Wire.valid limit f.
Proof.
  unfold Wire.validb, Wire.valid. intros H.
  repeat (apply andb_true_iff in H as [H ?]).
  repeat split.
  - apply Z.leb_le. assumption.
  - apply Z.ltb_lt. assumption.
  - apply bytes_check. assumption.
  - apply Z.ltb_lt. assumption.
  - destruct (Wire.masking_key f) as [key|]; [|exact I].
    match goal with K : _ && _ = true |- _ => apply andb_true_iff in K as [K1 K2] end.
    split; [apply Nat.eqb_eq; assumption|apply bytes_check; assumption].
Qed.

Lemma valid_all (limit : Z) (fs : list Wire.frame) :
  forallb (Wire.validb limit) fs = true -> Forall (Wire.valid limit) fs.
Proof.
  intros H. apply List.Forall_forall. intros f Hf.
  apply valid_check. exact (proj1 (forallb_forall _ _) H f Hf).
Qed.

Lemma chunked_feed_witness :
  Server.feed JSON.parse Buffer.toString Examples.three_chunks Examples.listening =
    Server.on_data JSON.parse Buffer.toString (Analysis.stream Examples.two_frames)
      Examples.listening /\
  trace (Server.feed JSON.parse Buffer.toString Examples.three_chunks Examples.listening) =
    [Server.Handler VNull; Server.MessageHandler 3%nat (VString (js "hi"))] /\
  let r := Server.feed JSON.parse Buffer.toString (firstn 3 Examples.three_chunks)
             Examples.listening in
  outcome r = Normal tt /\
  (exists n : nat,
     Server.dataReceived (state r) = skipn n (List.concat (firstn 3 Examples.three_chunks))) /\
  Analysis.scan (Server.dataReceived (state r)) = Analysis.Incomplete.
Proof.
  destruct (chunked_feed JSON.parse Buffer.toString Examples.two_frames
              Examples.three_chunks Examples.listening) as [Hwhole Hparts].
  - apply valid_all. vm_compute. reflexivity.
  - vm_compute. reflexivity.
  - vm_compute. reflexivity.
  - vm_compute. reflexivity.
  - split; [exact Hwhole|]. split; [vm_compute; reflexivity|].
    destruct (Hparts (firstn 3 Examples.three_chunks) (skipn 3 Examples.three_chunks))
      as [Ho Hrest].
    + symmetry. apply firstn_skipn.
    + cbv zeta. split; [exact Ho|]. apply Hrest. vm_compute. reflexivity.
Defined.


(* ================================================================== *)
(** ** The connection handler *)
(* ================================================================== *)

Module Starting.
Import Server Observe.

(** The envelopes that start a connection, dispatched. *)
Lemma dispatch_start (props : list (jsstring * value)) (t : jsstring) (s : conn) :
  lookup_prop (js "type") props = VString t ->
  t = js "connect" \/ t = js "reconnect" ->
  dispatch (VObject props) s =
    if started s then Result s [] (Normal tt)
    else Result (set_started true s)
           [Handler (if bool_decide (t = js "connect") then VNull
                     else lookup_prop (js "reconnectData") props)]
           (Normal tt).
Proof.
  intros Ht [-> | ->]; unfold dispatch; cbn [get]; rewrite bind_lift, Ht.
  - change (strict_eq_string (VString (js "connect")) (js "connect")) with true. cbv iota.
    rewrite bind_gets. destruct (started s); [reflexivity|].
    rewrite bind_modify. reflexivity.
  - change (strict_eq_string (VString (js "reconnect")) (js "connect")) with false.
    change (strict_eq_string (VString (js "reconnect")) (js "reconnect")) with true.
    cbv iota. rewrite bind_gets. destruct (started s); [reflexivity|].
    rewrite bind_modify, bind_lift. reflexivity.
Qed.

End Starting.

Section Sessions.
Variable JSON_parse : jsstring -> option value.
Variable toString : Buffer.buffer -> jsstring.

(** X26: the start of a connection.  A text frame with FIN set whose
    accumulated payload is an envelope of type
    [connect] or [reconnect] calls the connection handler once if the
    connection has not started, with [null] for [connect] and with the
    [reconnectData] of the envelope for [reconnect], and starts the
    connection; if the connection has started the envelope is ignored.
    Whatever happens afterwards, the handler is not called again: over
    any run of a connection, it is called once if the connection has
    started and never otherwise. *)
Theorem handler_once (f : Wire.frame) (props : list (jsstring * value)) (t : jsstring)
    (s : Server.conn) (later all : list Server.op) :
  Wire.valid (2 ^ 32) f -> Wire.fin f = true -> Wire.opcode f = 1 ->
  Server.closed s = false -> Server.dataReceived s = [] ->
  JSON_parse (toString (Server.payloadReceived s ++ Wire.payload f)) = Some (VObject props) ->
  lookup_prop (js "type") props = VString t ->
  t = js "connect" \/ t = js "reconnect" ->
  let r := Server.on_data JSON_parse toString (Wire.encode f) s in
  let reconnectData :=
    if bool_decide (t = js "connect") then VNull
    else lookup_prop (js "reconnectData") props in
  r = (if Server.started s
       then Result (Server.set_payloadReceived [] s) [] (Normal tt)
       else Result (Server.set_payloadReceived [] (Server.set_started true s))
              [Server.Handler reconnectData] (Normal tt)) /\
  Observe.handler_calls (fst (Server.run JSON_parse toString later (state r))) = 0%nat /\
  Observe.handler_calls (fst (Server.run JSON_parse toString all Server.init)) =
    Observe.flag (Server.started (snd (Server.run JSON_parse toString all Server.init))).
Proof.
  intros Hf Hfin Hop Hc Hd Hp Ht Hty. cbv zeta.
  pose proof (Starting.dispatch_start props t s Ht Hty) as Hdis.
  assert (Hr : Server.on_data JSON_parse toString (Wire.encode f) s =
               Result (Server.set_payloadReceived [] (state (Server.dispatch (VObject props) s)))
                      (trace (Server.dispatch (VObject props) s)) (Normal tt)).
  { apply ServerProps.on_data_message; try assumption.
    rewrite Hdis. destruct (Server.started s); reflexivity. }
  assert (Hnone : forall s1 : Server.conn, Server.started s1 = true ->
            Observe.handler_calls (fst (Server.run JSON_parse toString later s1)) = 0%nat).
  { intros s1 Hs1. pose proof (ServerProps.handler_run JSON_parse toString later s1) as H.
    unfold Observe.handler_calls. rewrite Hs1 in H. cbn [Observe.flag] in H.
    destruct (Server.started (snd (Server.run JSON_parse toString later s1)));
      cbn [Observe.flag] in H; lia. }
  rewrite Hr, Hdis. split; [destruct (Server.started s); reflexivity|]. split.
  - apply Hnone. destruct (Server.started s) eqn:E; cbn; [exact E|reflexivity].
  - pose proof (ServerProps.handler_run JSON_parse toString all Server.init) as H.
    unfold Observe.handler_calls.
    change (Observe.flag (Server.started Server.init)) with 0%nat in H. lia.
Qed.

End Sessions.

Lemma handler_once_witness :
  let s := Examples.listening in
  let r := Server.on_data JSON.parse Buffer.toString (Wire.encode Examples.connect_frame) s in
  r = Result (Server.set_payloadReceived [] (Server.set_started true s))
        [Server.Handler VNull] (Normal tt) /\
  Observe.handler_calls
    (fst (Server.run JSON.parse Buffer.toString
            [Server.Data (Wire.encode Examples.connect_frame);
             Server.Data (Wire.encode Examples.greeting_frame)] (state r))) = 0%nat.
Proof.
  destruct (handler_once JSON.parse Buffer.toString Examples.connect_frame
              [(js "type", VString (js "connect"))] (js "connect") Examples.listening
              [Server.Data (Wire.encode Examples.connect_frame);
               Server.Data (Wire.encode Examples.greeting_frame)] [])
    as (H1 & H2 & _).
  - apply valid_check. vm_compute. reflexivity.
  - reflexivity.
  - reflexivity.
  - reflexivity.
  - reflexivity.
  - vm_compute. reflexivity.
  - reflexivity.
  - left. reflexivity.
  - split; [exact H1|exact H2].
Defined.

(** C7: the [connect] envelope sent in two frames the way the protocol
    fragments a message: a text frame without FIN, then a continuation
    frame (opcode 0) with FIN.  The two payloads together are the JSON
    text of the envelope, the first complete envelope of the connection,
    yet the handler is not called and the connection has not started:
    line 174 looks at the opcode of the frame that carries FIN and
    parses nothing unless it is 1.  The same two payloads with opcode 1
    in the last frame call the handler. *)
Theorem fragmented_connect_not_heard :
  let first := Examples.first_fragment in
  let last := Examples.last_fragment 0 in
  JSON.parse (Buffer.toString (Wire.payload first ++ Wire.payload last)) =
    Some Examples.connect_envelope /\
  Server.on_data JSON.parse Buffer.toString (Wire.encode first ++ Wire.encode last)
    Server.init = Result Server.init [] (Normal tt) /\
  Server.on_data JSON.parse Buffer.toString
    (Wire.encode first ++ Wire.encode (Examples.last_fragment 1)) Server.init =
    Result (Server.set_started true Server.init) [Server.Handler VNull] (Normal tt).
Proof. vm_compute. repeat split. Qed.

(* ================================================================== *)
(** ** Closing *)
(* ================================================================== *)

Module Closing.
Import Observe.

(** Once closed, both sessions refuse to send. *)
Lemma server_send_closed (type message : value) (s : Server.conn) :
  Server.closed s = true ->
  exists e : exn, Server.send type message s = Result s [] (Throw e).
Proof.
  intros Hc. unfold Server.send.
  destruct (negb (is_string type)); [eexists; reflexivity|].
  destruct (negb (Server.jsonConvertible message)); [eexists; reflexivity|].
  rewrite bind_gets, Hc. eexists. reflexivity.
Qed.

Lemma client_send_closed (type message : value) (s : Client.session) :
  Client.permanentlyClosed s = true ->
  exists e : exn, Client.send type message s = Result s [] (Throw e).
Proof.
  intros Hc. unfold Client.send.
  destruct (negb (is_string type)); [eexists; reflexivity|].
  destruct (negb (Client.jsonConvertible message)); [eexists; reflexivity|].
  rewrite bind_gets, Hc. eexists. reflexivity.
Qed.

Lemma flag_true (b : bool) : (1 <= flag b)%nat -> b = true.
Proof. destruct b; cbn; [reflexivity|lia]. Qed.

Lemma flag_le (b : bool) : (flag b <= 1)%nat.
Proof. destruct b; cbn; lia. Qed.

End Closing.

Section Closed.
Variable JSON_parse : jsstring -> option value.
Variable toString : Buffer.buffer -> jsstring.

(** C8: on the server and on the client, the close of an open session
    with a registered close callback calls it once; whatever happens
    afterwards (closing again, by the application, the peer or the
    socket, among any other steps) the callback is not called again, the
    session stays closed, closing it is a step without effect, and
    [send] throws. *)
Theorem close_once (needToCloseSocket again : bool) (h h' : fn)
    (s : Server.conn) (ops : list Server.op)
    (c : Client.session) (cops : list Client.op) (type message : value) :
  Server.closed s = false -> Server.closeHandler s = Some h ->
  Client.permanentlyClosed c = false -> Client.closeHandler c = Some h' ->
  let r := Server.close needToCloseSocket s in
  let after := Server.run JSON_parse toString ops (state r) in
  let r' := Client.close c in
  let after' := Client.run JSON_parse cops (state r') in
  (Observe.close_calls (trace r) = 1%nat /\
   Observe.close_calls (fst after) = 0%nat /\
   Server.closed (snd after) = true /\
   Server.close again (snd after) = Result (snd after) [] (Normal tt) /\
   exists e : exn, Server.send type message (snd after) = Result (snd after) [] (Throw e)) /\
  (Observe.client_close_calls (trace r') = 1%nat /\
   Observe.client_close_calls (fst after') = 0%nat /\
   Client.permanentlyClosed (snd after') = true /\
   Client.close (snd after') = Result (snd after') [] (Normal tt) /\
   exists e : exn, Client.send type message (snd after') = Result (snd after') [] (Throw e)).
Proof.
  intros Hc Hh Hc' Hh'. cbv zeta. split.
  - rewrite (Framing.close_open needToCloseSocket s Hc). cbn [state trace].
    pose proof (ServerProps.closer_run JSON_parse toString ops
                  (Server.set_dataReceived [] (Server.set_closed true s))) as H.
    change (Observe.flag (Server.closed (Server.set_dataReceived []
              (Server.set_closed true s)))) with 1%nat in H.
    pose proof (Closing.flag_le (Server.closed (snd (Server.run JSON_parse toString ops
                  (Server.set_dataReceived [] (Server.set_closed true s)))))) as Hle.
    assert (Hfinal : Server.closed (snd (Server.run JSON_parse toString ops
                       (Server.set_dataReceived [] (Server.set_closed true s)))) = true).
    { apply Closing.flag_true. lia. }
    split.
    { unfold Analysis.close_events. rewrite Hh.
      destruct needToCloseSocket; reflexivity. }
    split; [unfold Observe.close_calls; lia|].
    split; [exact Hfinal|].
    split; [apply Framing.close_closed; exact Hfinal|].
    apply Closing.server_send_closed. exact Hfinal.
  - rewrite (ClientProps.client_close_open c Hc'). cbn [state trace].
    set (c1 := match Client.websocket c with
               | Client.CLOSING | Client.CLOSED => Client.set_permanentlyClosed true c
               | _ => Client.set_websocket Client.CLOSING (Client.set_permanentlyClosed true c)
               end).
    assert (Hc1 : Client.permanentlyClosed c1 = true).
    { unfold c1. destruct (Client.websocket c); reflexivity. }
    pose proof (ClientProps.client_closer_run JSON_parse cops c1) as H.
    rewrite Hc1 in H. cbn [Observe.flag] in H.
    pose proof (Closing.flag_le (Client.permanentlyClosed
                  (snd (Client.run JSON_parse cops c1)))) as Hle.
    assert (Hfinal : Client.permanentlyClosed (snd (Client.run JSON_parse cops c1)) = true).
    { apply Closing.flag_true. lia. }
    split.
    { rewrite Hh'. destruct (Client.websocket c); reflexivity. }
    split; [unfold Observe.client_close_calls; lia|].
    split; [exact Hfinal|].
    split; [apply ClientProps.client_close_closed; exact Hfinal|].
    apply Closing.client_send_closed. exact Hfinal.
Qed.

End Closed.

Lemma close_once_witness :
  let after :=
    Server.run JSON.parse Buffer.toString
      [Server.Close_ VUndefined; Server.SocketClosed;
       Server.Data (Wire.encode Examples.letters_frame)]
      (state (Server.close true Examples.listening)) in
  let after' :=
    Client.run JSON.parse
      [Client.Close_ VUndefined; Client.Message (JSON.Quote (js "x")); Client.Closed]
      (state (Client.close Examples.open_session)) in
  (Observe.close_calls (trace (Server.close true Examples.listening)) = 1%nat /\
   Observe.close_calls (fst after) = 0%nat /\
   Server.closed (snd after) = true /\
   Server.close false (snd after) = Result (snd after) [] (Normal tt) /\
   exists e : exn,
     Server.send (VString (js "greeting")) VNull (snd after) =
       Result (snd after) [] (Throw e)) /\
  (Observe.client_close_calls (trace (Client.close Examples.open_session)) = 1%nat /\
   Observe.client_close_calls (fst after') = 0%nat /\
   Client.permanentlyClosed (snd after') = true /\
   Client.close (snd after') = Result (snd after') [] (Normal tt) /\
   exists e : exn,
     Client.send (VString (js "greeting")) VNull (snd after') =
       Result (snd after') [] (Throw e)).
Proof.
  apply (close_once JSON.parse Buffer.toString true false 5%nat 5%nat
           Examples.listening
           [Server.Close_ VUndefined; Server.SocketClosed;
            Server.Data (Wire.encode Examples.letters_frame)]
           Examples.open_session
           [Client.Close_ VUndefined; Client.Message (JSON.Quote (js "x")); Client.Closed]
           (VString (js "greeting")) VNull); reflexivity.
Defined.

(* ================================================================== *)
(** ** Frames the server does not understand *)
(* ================================================================== *)

(** C9, as it is written, fails: a complete frame with the reserved
    opcode 3 is passed over, the connection stays open, nothing is
    written to the client, and the frame after it is handled. *)
Lemma reserved_opcode_skipped :
  let r := Server.on_data JSON.parse Buffer.toString
             (Wire.encode Examples.reserved_frame ++ Wire.encode Examples.connect_frame)
             Server.init in
  Wire.encode Examples.reserved_frame = [131; 1; 120] /\
  r = Result (Server.set_started true Server.init) [Server.Handler VNull] (Normal tt) /\
  Server.closed (state r) = false /\
  Observe.written (trace r) = [].
Proof. vm_compute. repeat split. Qed.

Section Unparsed.
Variable JSON_parse : jsstring -> option value.
Variable toString : Buffer.buffer -> jsstring.

(** C9, amended: a complete message whose last frame is a text frame
    (FIN set, opcode 1) and whose accumulated payload is not a JSON
    text ends the connection instead of being passed over: the [close]
    envelope is written as an unmasked text frame, the connection is
    closed, the close callback is called, and the bytes after the frame
    are dropped. *)
Theorem not_json_closes (f : Wire.frame) (rest : list Z) (s : Server.conn) :
  Wire.valid (2 ^ 32) f -> Wire.fin f = true -> Wire.opcode f = 1 ->
  Server.closed s = false -> Server.dataReceived s = [] ->
  JSON_parse (toString (Server.payloadReceived s ++ Wire.payload f)) = None ->
  Server.on_data JSON_parse toString (Wire.encode f ++ rest) s =
    Result (Server.set_closed true
              (Server.set_payloadReceived (Server.payloadReceived s ++ Wire.payload f) s))
           ([Server.Write [129]; Server.Write [16]; Server.Write Analysis.close_text] ++
            match Server.closeHandler s with
            | Some h => [Server.CloseHandler h]
            | None => []
            end)
           (Normal tt) /\
  [129; 16] ++ Analysis.close_text =
    Wire.encode (Wire.Frame true 1 None
                   (Wire.text (VObject [(js "type", VString (js "close"))]))).
Proof.
  intros Hf Hfin Hop Hc Hd Hp. split; [|vm_compute; reflexivity].
  apply ServerProps.on_data_not_json; auto.
Qed.

End Unparsed.

Lemma not_json_closes_witness :
  Server.on_data JSON.parse Buffer.toString
    (Wire.encode Examples.letters_frame ++ Wire.encode Examples.connect_frame)
    Examples.listening =
  Result (Server.set_closed true (Server.set_payloadReceived [97; 98; 99] Examples.listening))
    [Server.Write [129]; Server.Write [16]; Server.Write Analysis.close_text;
     Server.CloseHandler 5%nat]
    (Normal tt).
Proof.
  destruct (not_json_closes JSON.parse Buffer.toString Examples.letters_frame
              (Wire.encode Examples.connect_frame) Examples.listening) as [H _].
  - apply valid_check. vm_compute. reflexivity.
  - reflexivity.
  - reflexivity.
  - reflexivity.
  - reflexivity.
  - vm_compute. reflexivity.
  - exact H.
Defined.

(* ================================================================== *)
(** ** Sending from the client *)
(* ================================================================== *)

Module Sending.
Import Client Observe.

Lemma transmit_result (x : value) (s : session) :
  transmit x s = Result s (trace (transmit x s)) (Normal tt).
Proof. unfold transmit. destruct (JSON.stringify x); reflexivity. Qed.

Lemma transmit_anywhere (x : value) (s s' : session) :
  trace (transmit x s) = trace (transmit x s').
Proof. unfold transmit. destruct (JSON.stringify x); reflexivity. Qed.

Lemma transmit_all_result (q : list value) (s : session) :
  transmit_all q s = Result s (trace (transmit_all q s)) (Normal tt).
Proof.
  destruct (ClientProps.transmit_all_state q s) as (H1 & H2).
  destruct (transmit_all q s) as [s1 t1 o1]. cbn [state trace outcome] in *.
  subst. reflexivity.
Qed.

Lemma transmit_all_cons (x : value) (q : list value) (s : session) :
  trace (transmit_all (x :: q) s) = trace (transmit x s) ++ trace (transmit_all q s).
Proof.
  cbn [transmit_all]. rewrite bind_result, transmit_result. reflexivity.
Qed.

Lemma transmit_all_anywhere (q : list value) (s s' : session) :
  trace (transmit_all q s) = trace (transmit_all q s').
Proof.
  induction q as [|x q IH]; [reflexivity|].
  rewrite !transmit_all_cons, IH, (transmit_anywhere x s s'). reflexivity.
Qed.

Lemma transmit_all_last (q : list value) (x : value) (s : session) :
  trace (transmit_all (q ++ [x]) s) = trace (transmit_all q s) ++ trace (transmit x s).
Proof.
  induction q as [|y q IH].
  - cbn [app]. rewrite transmit_all_cons. cbn. rewrite app_nil_r. reflexivity.
  - cbn [app]. rewrite !transmit_all_cons, IH, app_assoc. reflexivity.
Qed.

(** A queue that is not empty, flushed through an open socket. *)
Lemma flush_open (s : session) :
  permanentlyClosed s = false -> temporarilyDisconnected s = false ->
  websocket s = OPEN -> outgoingQueue s <> [] ->
  flushOutgoingQueue s =
    Result (set_outgoingQueue [] s) (trace (transmit_all (outgoingQueue s) s)) (Normal tt).
Proof.
  intros Hp Ht Hw Hq. unfold flushOutgoingQueue.
  rewrite !bind_gets, Hp, Ht. cbn [orb]. rewrite bind_gets, Hw.
  rewrite bind_result, transmit_all_result. cbn [state trace outcome].
  destruct (outgoingQueue s) as [|x q] eqn:E; [congruence|].
  change (0 <? List.length (x :: q))%nat with true. cbv iota.
  unfold splice0, modify, prepend. cbn [state trace outcome].
  rewrite E, skipn_all, app_nil_r. reflexivity.
Qed.

(** A flush before the socket is open leaves the queue as it is. *)
Lemma flush_waiting (s : session) :
  permanentlyClosed s = false -> temporarilyDisconnected s = false ->
  websocket s <> OPEN ->
  flushOutgoingQueue s = Result s [] (Normal tt).
Proof.
  intros Hp Ht Hw. unfold flushOutgoingQueue.
  rewrite !bind_gets, Hp, Ht. cbn [orb]. rewrite bind_gets.
  destruct (websocket s); try reflexivity. congruence.
Qed.

End Sending.

Section Sent.
Variable JSON_parse : jsstring -> option value.

(** C6: [send] with a string type and a message that has a JSON text.
    On a permanently closed session it throws and changes nothing.  On a
    temporarily disconnected one it returns with no effect at all, so
    that every later run is the run without the call, and after the
    next [open] of a socket the queue is empty.  Otherwise the envelope
    joins the queue and the queue is flushed: through an open socket
    everything queued is sent, the envelope last, and the queue is empty;
    before the socket is open the envelope waits in the queue. *)
Theorem send_cases (t m : jsstring) (message returned : value)
    (s : Client.session) (later : list Client.op) :
  JSON.stringify message = Some m ->
  let envelope := VObject [(js "type", VString (js "message"));
                           (js "messageType", VString t);
                           (js "message", message)] in
  let text := js "{" ++
              join (js ",") [JSON.Quote (js "type") ++ js ":" ++ JSON.Quote (js "message");
                             JSON.Quote (js "messageType") ++ js ":" ++ JSON.Quote t;
                             JSON.Quote (js "message") ++ js ":" ++ m] ++
              js "}" in
  let r := Client.send (VString t) message s in
  r = (if Client.permanentlyClosed s
       then Result s []
              (Throw (Thrown "Attempted to transmit after the connection has been closed"))
       else if Client.temporarilyDisconnected s then Result s [] (Normal tt)
       else Eff.bind (Client.push envelope) (fun _ => Client.flushOutgoingQueue) s) /\
  r = (if Client.permanentlyClosed s
       then Result s []
              (Throw (Thrown "Attempted to transmit after the connection has been closed"))
       else if Client.temporarilyDisconnected s then Result s [] (Normal tt)
       else match Client.websocket s with
            | Client.OPEN =>
                Result (Client.set_outgoingQueue [] s)
                  (trace (Client.transmit_all (Client.outgoingQueue s) s) ++
                   [Client.WsSend text])
                  (Normal tt)
            | _ =>
                Result (Client.set_outgoingQueue (Client.outgoingQueue s ++ [envelope]) s)
                  [] (Normal tt)
            end) /\
  (Client.permanentlyClosed s = false -> Client.temporarilyDisconnected s = true ->
   Client.run JSON_parse later (state r) = Client.run JSON_parse later s) /\
  Client.outgoingQueue (state (Client.step JSON_parse (Client.Opened returned) (state r))) = [].
Proof.
  intros Hm. cbv zeta.
  set (envelope := VObject [(js "type", VString (js "message"));
                            (js "messageType", VString t);
                            (js "message", message)]).
  assert (Hsend : Client.send (VString t) message s =
            if Client.permanentlyClosed s
            then Result s []
                   (Throw (Thrown "Attempted to transmit after the connection has been closed"))
            else if Client.temporarilyDisconnected s then Result s [] (Normal tt)
            else Eff.bind (Client.push envelope) (fun _ => Client.flushOutgoingQueue) s).
  { unfold Client.send, Client.jsonConvertible. rewrite Hm. cbn [is_string negb].
    rewrite bind_gets. destruct (Client.permanentlyClosed s); [reflexivity|].
    rewrite bind_gets. destruct (Client.temporarilyDisconnected s); reflexivity. }
  split; [exact Hsend|]. split; [|split].
  - rewrite Hsend.
    destruct (Client.permanentlyClosed s) eqn:Hp; [reflexivity|].
    destruct (Client.temporarilyDisconnected s) eqn:Ht; [reflexivity|].
    unfold Client.push. rewrite bind_modify.
    set (s1 := Client.set_outgoingQueue (Client.outgoingQueue s ++ [envelope]) s).
    destruct (Client.websocket s) eqn:Hw.
    2: { rewrite (Sending.flush_open s1); try assumption.
         - unfold s1 at 1 2.
           change (Client.outgoingQueue
                     (Client.set_outgoingQueue (Client.outgoingQueue s ++ [envelope]) s))
             with (Client.outgoingQueue s ++ [envelope]).
           rewrite Sending.transmit_all_last.
           rewrite (Sending.transmit_all_anywhere _ s1 s).
           unfold Client.transmit, envelope. cbn [JSON.stringify flat_map snd fst app].
           rewrite Hm. reflexivity.
         - cbn. destruct (Client.outgoingQueue s); discriminate. }
    all: apply Sending.flush_waiting; try assumption; unfold s1; cbn; congruence.
  - intros Hp Ht. rewrite Hsend, Hp, Ht. reflexivity.
  - apply ClientProps.opened_empties.
Qed.

End Sent.

Lemma send_cases_witness :
  let type := VString (js "greeting") in
  let message := VString (js "hi") in
  let text := JSON.stringify Examples.greeting_envelope in
  Client.send type message Examples.closed_session =
    Result Examples.closed_session []
      (Throw (Thrown "Attempted to transmit after the connection has been closed")) /\
  (Client.send type message Examples.disconnected_session =
     Result Examples.disconnected_session [] (Normal tt) /\
   Observe.sent
     (fst (Client.run JSON.parse [Client.Interval true; Client.Opened VUndefined]
             (state (Client.send type message Examples.disconnected_session)))) =
     Observe.sent
       (fst (Client.run JSON.parse [Client.Interval true; Client.Opened VUndefined]
               Examples.disconnected_session)) /\
   Client.outgoingQueue
     (state (Client.step JSON.parse (Client.Opened VUndefined)
               (state (Client.send type message Examples.disconnected_session)))) = []) /\
  option_map (fun text => Result Examples.open_session [Client.WsSend text] (Normal tt)) text =
    Some (Client.send type message Examples.open_session).
Proof.
  cbv zeta. split; [|split].
  - destruct (send_cases JSON.parse (js "greeting") (JSON.Quote (js "hi")) (VString (js "hi"))
                VUndefined Examples.closed_session []) as (_ & H & _).
    + reflexivity.
    + exact H.
  - destruct (send_cases JSON.parse (js "greeting") (JSON.Quote (js "hi")) (VString (js "hi"))
                VUndefined Examples.disconnected_session
                [Client.Interval true; Client.Opened VUndefined]) as (_ & H1 & H2 & H3).
    + reflexivity.
    + split; [exact H1|]. split; [|exact H3].
      rewrite (H2 eq_refl eq_refl). reflexivity.
  - destruct (send_cases JSON.parse (js "greeting") (JSON.Quote (js "hi")) (VString (js "hi"))
                VUndefined Examples.open_session []) as (_ & H & _).
    + reflexivity.
    + rewrite H. vm_compute. reflexivity.
Defined.

(* ================================================================== *)
(** ** The listener returns *)
(* ================================================================== *)

(** [Timeout] is the outcome of a loop that was given too little fuel.
    No step of a connection has it: the fuel of [on_data] is enough. *)
Module Termination.
Import Server Analysis Observe.

Section Returns.
Context {S E : Type}.

Lemma returns_ret {A} (a : A) : returns (S:=S) (E:=E) (ret a).
Proof. intros s. discriminate. Qed.

Lemma returns_gets {A} (f : S -> A) : returns (E:=E) (gets f).
Proof. intros s. discriminate. Qed.

Lemma returns_modify (f : S -> S) : returns (E:=E) (modify f).
Proof. intros s. discriminate. Qed.

Lemma returns_emit (e : E) : returns (S:=S) (emit e).
Proof. intros s. discriminate. Qed.

Lemma returns_throw {A} (e : exn) : returns (S:=S) (E:=E) (throw (A:=A) e).
Proof. intros s. discriminate. Qed.

Lemma returns_lift {A} (c : completion A) : c <> Timeout -> returns (S:=S) (E:=E) (lift c).
Proof. intros H s. exact H. Qed.

Lemma returns_bind {A B} (m : Eff.M S E A) (k : A -> Eff.M S E B) :
  returns m -> (forall a, returns (k a)) -> returns (bind m k).
Proof.
  intros Hm Hk s. rewrite bind_result. specialize (Hm s).
  destruct (outcome (m s)) as [a| |]; cbn [outcome prepend]; try discriminate.
  - apply Hk.
  - congruence.
Qed.

End Returns.

Lemma and_then_returns {A B} (c : completion A) (k : A -> completion B) :
  c <> Timeout -> (forall a, k a <> Timeout) -> and_then c k <> Timeout.
Proof. intros Hc Hk. destruct c; cbn; [apply Hk|discriminate|congruence]. Qed.

Lemma readUInt8_returns (d : Buffer.buffer) (i : Z) : Buffer.readUInt8 d i <> Timeout.
Proof. unfold Buffer.readUInt8. destruct (Buffer.in_range _ _ _); discriminate. Qed.

Lemma readUInt16BE_returns (d : Buffer.buffer) (i : Z) : Buffer.readUInt16BE d i <> Timeout.
Proof. unfold Buffer.readUInt16BE. destruct (Buffer.in_range _ _ _); discriminate. Qed.

Lemma readUInt32BE_returns (d : Buffer.buffer) (i : Z) : Buffer.readUInt32BE d i <> Timeout.
Proof. unfold Buffer.readUInt32BE. destruct (Buffer.in_range _ _ _); discriminate. Qed.

Lemma writeUInt8_returns (v i : Z) (d : Buffer.buffer) : Buffer.writeUInt8 v i d <> Timeout.
Proof. unfold Buffer.writeUInt8. destruct (_ && _); discriminate. Qed.

Lemma writeUInt16BE_returns (v i : Z) (d : Buffer.buffer) :
  Buffer.writeUInt16BE v i d <> Timeout.
Proof. unfold Buffer.writeUInt16BE. destruct (_ && _); discriminate. Qed.

Lemma concat_returns (bs : list Buffer.buffer) (n : Z) : Buffer.concat bs n <> Timeout.
Proof. unfold Buffer.concat. destruct (n <? 0); discriminate. Qed.

Lemma get_returns (o : value) (k : jsstring) : get o k <> Timeout.
Proof. destruct o; discriminate. Qed.

Lemma read_length_returns (d : Buffer.buffer) (i : Z) : read_length d i <> Timeout.
Proof.
  unfold read_length. apply and_then_returns; [apply readUInt8_returns|]. intros b1.
  repeat match goal with
         | |- (if ?b then _ else _) <> Timeout => destruct b
         | |- and_then _ _ <> Timeout =>
             apply and_then_returns;
             [first [apply readUInt16BE_returns | apply readUInt32BE_returns]|intros ?]
         | |- Normal _ <> Timeout => discriminate
         end.
Qed.

Lemma unmask_returns (n : nat) : forall (i : Z) (key : Buffer.buffer) (start : Z)
    (d : Buffer.buffer), unmask n i key start d <> Timeout.
Proof.
  induction n as [|n IH]; intros i key start d; cbn [unmask]; [discriminate|].
  apply and_then_returns; [apply readUInt8_returns|]. intros x.
  apply and_then_returns; [apply readUInt8_returns|]. intros k.
  apply and_then_returns; [apply writeUInt8_returns|]. intros d'.
  apply IH.
Qed.

Lemma payloadLengthBuffer_returns (n : Z) : payloadLengthBuffer n <> Timeout.
Proof.
  unfold payloadLengthBuffer.
  repeat match goal with
         | |- (if ?b then _ else _) <> Timeout => destruct b
         | |- and_then _ _ <> Timeout =>
             apply and_then_returns;
             [first [apply writeUInt8_returns | apply writeUInt16BE_returns]|intros ?]
         | |- Buffer.writeUInt16BE _ _ _ <> Timeout => apply writeUInt16BE_returns
         | |- Normal _ <> Timeout => discriminate
         end.
Qed.

Lemma ToPropertyKey_returns (x : value) : ToPropertyKey x <> Timeout.
Proof. unfold ToPropertyKey. destruct (unprintable x); discriminate. Qed.

Lemma call_member_returns (o : gmap jsstring fn) (m : member) (a : value) :
  call_member o m a <> Timeout.
Proof.
  destruct m as [f|[]|]; cbn [call_member]; try discriminate.
  - destruct (unprintable a); discriminate.
  - destruct (lookup_member o _) as [f|[]|]; discriminate.
Qed.

End Termination.

(** The rules applied along a definition. *)
Ltac returning known :=
  repeat first
    [ known
    | apply Termination.returns_ret
    | apply Termination.returns_gets
    | apply Termination.returns_modify
    | apply Termination.returns_emit
    | apply Termination.returns_throw
    | apply Termination.returns_lift;
      first [ apply Termination.readUInt8_returns | apply Termination.read_length_returns
            | apply Termination.unmask_returns | apply Termination.concat_returns
            | apply Termination.get_returns | apply Termination.payloadLengthBuffer_returns
            | discriminate ]
    | apply Termination.returns_bind; [|intros ?]
    | match goal with
      | |- Observe.returns (if ?b then _ else _) => destruct b
      | |- Observe.returns (match ?x with _ => _ end) => destruct x
      end ].

Module Returning.
Import Server Analysis Observe.

Lemma sendMessage_returns (m : value) : returns (sendMessage m).
Proof. unfold sendMessage. returning fail. Qed.

Lemma close_returns (b : bool) : returns (close b).
Proof. unfold close. returning ltac:(apply sendMessage_returns). Qed.

Lemma send_returns (type message : value) : returns (send type message).
Proof. unfold send. returning ltac:(apply sendMessage_returns). Qed.

Lemma receive_returns (type handler : value) : returns (receive type handler).
Proof. unfold receive. returning fail. Qed.

Lemma close__returns (handler : value) : returns (close_ handler).
Proof. unfold close_. destruct handler; returning ltac:(apply close_returns). Qed.

Lemma dispatch_returns (v : value) : returns (dispatch v).
Proof.
  unfold dispatch, start.
  returning ltac:(apply Termination.returns_lift;
                  first [ apply Termination.ToPropertyKey_returns
                        | apply Termination.call_member_returns ]).
Qed.

Section Listener.
Variable JSON_parse : jsstring -> option value.
Variable toString : Buffer.buffer -> jsstring.

Lemma frame_returns : returns (frame JSON_parse toString).
Proof.
  unfold frame, deliver, free. cbv zeta.
  returning ltac:(first [apply close_returns | apply dispatch_returns]).
Qed.

Lemma frames_returns (n : nat) : forall s : conn,
  closed s = false -> (turns s <= n)%nat ->
  outcome (frames JSON_parse toString n s) <> Timeout.
Proof.
  induction n as [|n IH]; intros s Hc Hn.
  - unfold turns in Hn. lia.
  - rewrite Framing.frames_step. cbv zeta.
    pose proof (frame_returns s) as Hr.
    pose proof (Framing.frame_open JSON_parse toString s Hc) as Ho.
    pose proof (Framing.frame_shortens JSON_parse toString s Hc) as Hs.
    destruct (outcome (frame JSON_parse toString s)) as [[|]| |];
      cbn [outcome prepend]; try discriminate; try congruence.
    apply IH; [apply Ho; reflexivity|]. specialize (Hs eq_refl). lia.
Qed.

Lemma on_data_returns (c : Buffer.buffer) : returns (on_data JSON_parse toString c).
Proof.
  intros s. unfold on_data. rewrite bind_gets.
  destruct (closed s) eqn:Hc; [discriminate|].
  rewrite bind_gets, bind_lift.
  destruct (Buffer.concat _ _) as [d'| |] eqn:E; cbn [outcome]; try discriminate.
  - rewrite bind_modify. apply frames_returns; [exact Hc|lia].
  - exfalso. exact (Termination.concat_returns _ _ E).
Qed.

Lemma step_returns (o : op) : returns (step JSON_parse toString o).
Proof.
  destruct o; cbn [step].
  - apply on_data_returns.
  - apply close_returns.
  - apply send_returns.
  - apply receive_returns.
  - apply close__returns.
Qed.

End Listener.
End Returning.

(* ================================================================== *)
(** ** What the encoder writes, read back *)
(* ================================================================== *)

Module Roundtrip.
Import Server Observe.

Lemma utf8_ascii (data : jsstring) :
  Forall (fun c => 0 <= c < 128) data -> utf8 data = data.
Proof.
  induction 1 as [|c data Hc _ IH]; [reflexivity|].
  cbn [utf8]. unfold is_high, is_low, utf8_point.
  destruct (Z.leb_spec 55296 c); [lia|]. cbn [andb].
  destruct (Z.leb_spec 56320 c); [lia|]. cbn [andb].
  destruct (Z.ltb_spec c 128); [|lia]. cbn [app]. rewrite IH. reflexivity.
Qed.

(** The bytes of a message whose JSON text is ASCII and shorter than
    65536 are the unmasked text frame of that text. *)
Lemma sendMessage_wire (s : conn) (message : value) (data : jsstring) :
  closed s = false ->
  JSON.stringify message = Some data ->
  Forall (fun c => 0 <= c < 128) data ->
  Z.of_nat (List.length data) < 65536 ->
  written (trace (sendMessage message s)) = Wire.encode (Wire.Frame true 1 None data).
Proof.
  intros Hc Hd Ha Hl.
  pose proof (sendMessage_header s message data Hc Hd Hl) as H. cbv zeta in H.
  rewrite H, (utf8_ascii data Ha). unfold written, Wire.encode.
  cbn [trace flat_map List.concat app Wire.fin Wire.opcode Wire.masking_key Wire.payload].
  rewrite app_nil_r. reflexivity.
Qed.

Section Back.
Variable JSON_parse : jsstring -> option value.
Variable toString : Buffer.buffer -> jsstring.

(** Such a message, read by the decoder of a connection with empty
    buffers, is parsed and dispatched. *)
Lemma roundtrip_ascii (sender s : conn) (message : value) (data : jsstring) (v : value) :
  closed sender = false ->
  JSON.stringify message = Some data ->
  Forall (fun c => 0 <= c < 128) data ->
  Z.of_nat (List.length data) < 65536 ->
  closed s = false -> dataReceived s = [] -> payloadReceived s = [] ->
  JSON_parse (toString data) = Some v ->
  outcome (dispatch v s) = Normal tt ->
  on_data JSON_parse toString (written (trace (sendMessage message sender))) s =
    Result (set_payloadReceived [] (state (dispatch v s))) (trace (dispatch v s)) (Normal tt).
Proof.
  intros Hcs Hd Ha Hl Hc Hb Hp Hv Ho.
  rewrite (sendMessage_wire sender message data Hcs Hd Ha Hl).
  apply ServerProps.on_data_message; try assumption; try reflexivity.
  - repeat split; cbn [Wire.opcode Wire.payload Wire.masking_key]; try lia.
    apply List.Forall_forall. intros c Hin.
    pose proof (proj1 (List.Forall_forall _ _) Ha c Hin) as Hc'. cbv beta in Hc'.
    unfold Wire.is_byte. lia.
  - rewrite Hp. exact Hv.
Qed.

End Back.
End Roundtrip.

(* ================================================================== *)
(** * Further properties of the server *)
(* ================================================================== *)

(** ** A closed connection *)

Module Inert.
Import Server Observe.

Section Inert.
Variable JSON_parse : jsstring -> option value.
Variable toString : Buffer.buffer -> jsstring.

(** A step on a closed connection has no event and leaves it closed. *)
Lemma step_closed (o : op) (s : conn) :
  closed s = true ->
  trace (step JSON_parse toString o s) = [] /\
  closed (state (step JSON_parse toString o s)) = true.
Proof.
  intros Hc. destruct o; cbn [step].
  - rewrite Framing.on_data_closed by exact Hc. split; [reflexivity|exact Hc].
  - unfold on_close. rewrite Framing.close_closed by exact Hc. split; [reflexivity|exact Hc].
  - destruct (Closing.server_send_closed type message s Hc) as [e ->].
    split; [reflexivity|exact Hc].
  - unfold receive. destruct type; try (split; [reflexivity|exact Hc]).
    destruct handler; split; try reflexivity; exact Hc.
  - unfold close_. destruct handler; try (split; [reflexivity|exact Hc]).
    rewrite Framing.close_closed by exact Hc. split; [reflexivity|exact Hc].
Qed.

End Inert.
End Inert.

Section AfterClose.
Variable JSON_parse : jsstring -> option value.
Variable toString : Buffer.buffer -> jsstring.

(** X1: once a connection of the server is closed, nothing that happens
    to it has an effect outside: whatever bytes arrive, whatever the
    socket does and whatever the application calls, nothing is written,
    no handler and no callback is called, and the connection stays
    closed. *)
Theorem closed_connection_inert (ops : list Server.op) (s : Server.conn) :
  Server.closed s = true ->
  fst (Server.run JSON_parse toString ops s) = [] /\
  Server.closed (snd (Server.run JSON_parse toString ops s)) = true.
Proof.
  revert s. induction ops as [|o ops IH]; intros s Hc; cbn [Server.run].
  - split; [reflexivity|exact Hc].
  - destruct (Inert.step_closed JSON_parse toString o s Hc) as [Ht Hc'].
    specialize (IH _ Hc').
    destruct (Server.run JSON_parse toString ops _) as [t s']. cbn [fst snd] in *.
    destruct IH as [-> Hs]. rewrite Ht. split; [reflexivity|exact Hs].
Qed.

(** X2: a frame with the opcode 8 closes the connection as soon as its
    first byte is at the head of the buffer, whatever follows it: the
    close envelope is written, the close callback is called, and the
    bytes received are dropped. *)
Theorem close_frame (b0 : Z) (rest data : list Z) (s : Server.conn) :
  Server.closed s = false ->
  Server.dataReceived s ++ data = b0 :: rest ->
  0 <= b0 < 256 -> b0 mod 16 = 8 ->
  Server.on_data JSON_parse toString data s =
    Result (Server.set_dataReceived [] (Server.set_closed true s))
           ([Server.Write [129]; Server.Write [16]; Server.Write Analysis.close_text] ++
            match Server.closeHandler s with
            | Some f => [Server.CloseHandler f]
            | None => []
            end)
           (Normal tt).
Proof.
  intros Hc Hd Hb H8.
  rewrite Framing.on_data_open by exact Hc.
  assert (Hc' : Server.closed (Analysis.more data s) = false) by exact Hc.
  rewrite (Framing.loop_close JSON_parse toString _ Hc').
  - rewrite Framing.close_more, Framing.close_open by exact Hc. reflexivity.
  - unfold Analysis.more.
    change (Server.dataReceived (Server.set_dataReceived (Server.dataReceived s ++ data) s))
      with (Server.dataReceived s ++ data).
    rewrite Hd. apply Framing.scan_close_byte. rewrite Framing.band_15 by exact Hb. exact H8.
Qed.

End AfterClose.

Lemma closed_connection_inert_witness :
  let s := state (Server.close true Examples.listening) in
  let ops := [Server.Data (Wire.encode Examples.greeting_frame);
              Server.Send (VString (js "greeting")) VNull;
              Server.Close_ VUndefined; Server.SocketClosed] in
  fst (Server.run JSON.parse Buffer.toString ops s) = [] /\
  Server.closed (snd (Server.run JSON.parse Buffer.toString ops s)) = true.
Proof.
  apply (closed_connection_inert JSON.parse Buffer.toString). reflexivity.
Defined.

Lemma close_frame_witness :
  Server.on_data JSON.parse Buffer.toString [136; 0; 1; 2] Examples.listening =
    Result (Server.set_dataReceived [] (Server.set_closed true Examples.listening))
           [Server.Write [129]; Server.Write [16]; Server.Write Analysis.close_text;
            Server.CloseHandler 5%nat]
           (Normal tt).
Proof.
  apply (close_frame JSON.parse Buffer.toString 136 [0; 1; 2]); try reflexivity. lia.
Defined.

(** ** Messages in several frames *)

Module Fragments.
Import Server Analysis Observe Framing.

Section Fragments.
Variable JSON_parse : jsstring -> option value.
Variable toString : Buffer.buffer -> jsstring.

(** A frame without FIN adds its payload to the payload received so
    far, and the listener goes on with the bytes after it. *)
Lemma on_data_fragment (f : Wire.frame) (rest : list Z) (s : conn) :
  Wire.valid (2 ^ 32) f -> Wire.fin f = false -> Wire.opcode f <> 8 ->
  closed s = false -> dataReceived s = [] ->
  on_data JSON_parse toString (Wire.encode f ++ rest) s =
    on_data JSON_parse toString rest
      (set_payloadReceived (payloadReceived s ++ Wire.payload f) s).
Proof.
  intros Hv Hfin H8 Hc Hd.
  rewrite ServerProps.on_data_frame by assumption. cbv zeta.
  unfold accept. rewrite !bind_modify, Hfin. fields.
  repeat (progress (rewrite ?bind_bind, ?bind_ret, ?bind_modify; cbv iota)).
  cbn [outcome state trace prepend ret].
  rewrite (on_data_open _ _ rest) by exact Hc.
  unfold more, prepend. fields. rewrite Hd. cbn [app].
  destruct (loop _ _ _); reflexivity.
Qed.

(** [dispatch] does not look at the payload received. *)
Lemma dispatch_payload (v : value) (s : conn) (q : Buffer.buffer) :
  dispatch v (set_payloadReceived q s) = mapstate (set_payloadReceived q) (dispatch v s).
Proof.
  unfold dispatch. destruct v; try reflexivity.
  rewrite !ServerProps.get_object, !bind_lift.
  destruct (strict_eq_string _ _).
  { rewrite !bind_gets. fields. destruct (started s); reflexivity. }
  destruct (strict_eq_string _ _).
  { rewrite !bind_gets. fields. destruct (started s); reflexivity. }
  destruct (strict_eq_string _ _); [|reflexivity].
  rewrite !bind_lift, !bind_gets. fields. looked_up.
Qed.

End Fragments.
End Fragments.

Section Fragmented.
Variable JSON_parse : jsstring -> option value.
Variable toString : Buffer.buffer -> jsstring.

(** X3: a message that comes in two frames.  The payload of a frame
    without FIN is kept; when the frame with FIN is a text frame (opcode
    1) the two payloads together are parsed and dispatched as one
    message; when it has another opcode (0, the continuation frame of
    the protocol, among them) the payloads are dropped and nothing is
    dispatched. *)
Theorem two_frames_one_message (f1 f2 : Wire.frame) (s : Server.conn) (v : value) :
  Wire.valid (2 ^ 32) f1 -> Wire.fin f1 = false -> Wire.opcode f1 <> 8 ->
  Wire.valid (2 ^ 32) f2 -> Wire.fin f2 = true -> Wire.opcode f2 <> 8 ->
  Server.closed s = false -> Server.dataReceived s = [] ->
  (Wire.opcode f2 = 1 ->
   JSON_parse (toString (Server.payloadReceived s ++ Wire.payload f1 ++ Wire.payload f2)) =
     Some v /\
   outcome (Server.dispatch v s) = Normal tt) ->
  Server.on_data JSON_parse toString (Wire.encode f1 ++ Wire.encode f2) s =
    if Wire.opcode f2 =? 1
    then Result (Server.set_payloadReceived [] (state (Server.dispatch v s)))
           (trace (Server.dispatch v s)) (Normal tt)
    else Result (Server.set_payloadReceived [] s) [] (Normal tt).
Proof.
  intros Hv1 Hf1 H81 Hv2 Hf2 H82 Hc Hd Hparsed.
  rewrite Fragments.on_data_fragment by assumption.
  set (s1 := Server.set_payloadReceived (Server.payloadReceived s ++ Wire.payload f1) s).
  assert (Hc1 : Server.closed s1 = false) by exact Hc.
  assert (Hd1 : Server.dataReceived s1 = []) by exact Hd.
  assert (Hs : Server.dispatch v s1 =
            Observe.mapstate
              (Server.set_payloadReceived (Server.payloadReceived s ++ Wire.payload f1))
              (Server.dispatch v s)) by apply Fragments.dispatch_payload.
  destruct (Z.eqb_spec (Wire.opcode f2) 1) as [H1|H1].
  - destruct (Hparsed H1) as [Hp Ho].
    rewrite (ServerProps.on_data_message JSON_parse toString f2 s1 v); try assumption.
    + rewrite Hs. destruct (Server.dispatch v s) as [s2 t2 o2].
      cbn [Observe.mapstate state trace]. reflexivity.
    + unfold s1. cbn [Server.payloadReceived Server.set_payloadReceived].
      rewrite <- app_assoc. exact Hp.
    + rewrite Hs. exact Ho.
  - rewrite <- (app_nil_r (Wire.encode f2)).
    rewrite ServerProps.on_data_other by assumption.
    rewrite Framing.on_data_open by exact Hc.
    rewrite Framing.loop_wait; [|exact Hc|].
    + unfold Analysis.more, s1. cbn. rewrite Hd. destruct s; cbn in *; subst; reflexivity.
    + unfold Analysis.more, s1. cbn. rewrite Hd. reflexivity.
Qed.

End Fragmented.

Lemma two_frames_one_message_witness :
  Server.on_data JSON.parse Buffer.toString
    (Wire.encode Examples.first_fragment ++ Wire.encode (Examples.last_fragment 1))
    Examples.listening =
    Result (Server.set_started true Examples.listening) [Server.Handler VNull] (Normal tt) /\
  Server.on_data JSON.parse Buffer.toString
    (Wire.encode Examples.first_fragment ++ Wire.encode (Examples.last_fragment 0))
    Examples.listening =
    Result Examples.listening [] (Normal tt).
Proof.
  split.
  - rewrite (two_frames_one_message JSON.parse Buffer.toString Examples.first_fragment
               (Examples.last_fragment 1) Examples.listening Examples.connect_envelope);
      try reflexivity; try discriminate; try (apply valid_check; vm_compute; reflexivity).
    intros _. split; vm_compute; reflexivity.
  - rewrite (two_frames_one_message JSON.parse Buffer.toString Examples.first_fragment
               (Examples.last_fragment 0) Examples.listening VNull);
      try reflexivity; try discriminate; apply valid_check; vm_compute; reflexivity.
Defined.

(** ** The header of a frame, read *)

Section Lengths.

(** X4: the length of a frame with the length code 127.  The decoder
    reads the eight bytes as two 32-bit words and computes
    [(hi << 32) + lo], which is [ToInt32(hi) + lo]; this is the number
    the eight bytes stand for exactly when the first four are zero,
    that is for the lengths below 4 GiB. *)
Theorem long_length (b0 b1 a0 a1 a2 a3 a4 a5 a6 a7 : Z) (rest : list Z) :
  0 <= b1 < 256 -> b1 mod 128 = 127 ->
  Forall Wire.is_byte [a0; a1; a2; a3; a4; a5; a6; a7] ->
  let hi := a0 * 16777216 + a1 * 65536 + a2 * 256 + a3 in
  let lo := a4 * 16777216 + a5 * 65536 + a6 * 256 + a7 in
  Server.read_length (b0 :: b1 :: a0 :: a1 :: a2 :: a3 :: a4 :: a5 :: a6 :: a7 :: rest) 1 =
    Normal (Some (ToInt32 hi + lo, 10)) /\
  (ToInt32 hi + lo = Wire.value_be [a0; a1; a2; a3; a4; a5; a6; a7] <-> hi = 0).
Proof.
  intros Hb1 H127 Hbytes hi lo.
  repeat match goal with
         | H : Forall _ (_ :: _) |- _ => apply Forall_cons_1 in H as [? H]
         end.
  unfold Wire.is_byte in *.
  set (d := b0 :: b1 :: a0 :: a1 :: a2 :: a3 :: a4 :: a5 :: a6 :: a7 :: rest).
  assert (Hlen : 10 <= Buffer.length d).
  { unfold Buffer.length, d. cbn [List.length]. lia. }
  split.
  - unfold Server.read_length.
    rewrite (Framing.read8 d 1) by lia. cbn [and_then].
    change (Buffer.at_ d 1) with b1.
    rewrite Framing.band_127 by exact Hb1. rewrite H127.
    change (127 <? 126) with false. change (127 =? 126) with false. cbv iota.
    destruct (Z.ltb_spec (Buffer.length d) (1 + 9)); [lia|].
    rewrite (Framing.read32 d 2), (Framing.read32 d 6) by lia. cbn [and_then].
    rewrite shl_32. reflexivity.
  - assert (Hv : Wire.value_be [a0; a1; a2; a3; a4; a5; a6; a7] = hi * 4294967296 + lo).
    { unfold Wire.value_be, hi, lo. cbn [fold_left]. ring. }
    rewrite Hv.
    assert (Hhi : 0 <= hi < 4294967296) by (unfold hi; lia).
    unfold ToInt32. change (2 ^ 31) with 2147483648. change (2 ^ 32) with 4294967296.
    destruct (Z.lt_ge_cases hi 2147483648).
    + rewrite Z.mod_small by lia. lia.
    + replace ((hi + 2147483648) mod 4294967296) with (hi - 2147483648).
      * lia.
      * apply Z.mod_unique with (q := 1); lia.
Qed.

End Lengths.

Lemma long_length_witness :
  Server.read_length [129; 255; 0; 0; 0; 0; 0; 1; 2; 3; 7; 7] 1 = Normal (Some (66051, 10)) /\
  (ToInt32 0 + 66051 = Wire.value_be [0; 0; 0; 0; 0; 1; 2; 3] <-> 0 = 0).
Proof.
  apply (long_length 129 255 0 0 0 0 0 1 2 3 [7; 7]).
  - lia.
  - reflexivity.
  - apply bytes_check. reflexivity.
Defined.

(** ** Decrypting *)

Section Decrypting.

(** X5: the loop that decrypts a payload where it lies in the buffer
    (lines 162-166) undoes the masking of the protocol, byte [i] XORed
    with byte [i mod 4] of the key, for every 4-byte key and every
    payload, and changes no byte before or after the payload. *)
Theorem decrypt_recovers (key before payload rest : list Z) :
  List.length key = 4%nat -> Forall Wire.is_byte key -> Forall Wire.is_byte payload ->
  Server.unmask (List.length payload) 0 key (Z.of_nat (List.length before))
    (before ++ Wire.mask key payload ++ rest) =
    Normal (before ++ payload ++ rest).
Proof.
  intros Hk Hkb Hp.
  exact (Framing.unmask_mask key before rest Hk Hkb payload [] Hp).
Qed.

End Decrypting.

Lemma decrypt_recovers_witness :
  Wire.mask [1; 2; 3; 4] [97; 98; 99; 100; 101] = [96; 96; 96; 96; 100] /\
  Server.unmask 5 0 [1; 2; 3; 4] 2 ([129; 133] ++ [96; 96; 96; 96; 100] ++ [7]) =
    Normal ([129; 133] ++ [97; 98; 99; 100; 101] ++ [7]).
Proof.
  split; [reflexivity|].
  apply (decrypt_recovers [1; 2; 3; 4] [129; 133] [97; 98; 99; 100; 101] [7]);
    [reflexivity|apply bytes_check; reflexivity|apply bytes_check; reflexivity].
Defined.

(** ** The length the encoder writes *)

Module Units.

Lemma point_length_pos (p : Z) : (1 <= List.length (utf8_point p))%nat.
Proof.
  unfold utf8_point.
  destruct (p <? 128); [cbn; lia|]. destruct (p <? 2048); [cbn; lia|].
  destruct (p <? 65536); cbn; lia.
Qed.

Lemma point_length_one (p : Z) : List.length (utf8_point p) = 1%nat <-> p < 128.
Proof.
  unfold utf8_point. destruct (Z.ltb_spec p 128); [cbn; lia|].
  destruct (p <? 2048); [cbn; lia|]. destruct (p <? 65536); cbn; lia.
Qed.

Lemma point_length_pair (p : Z) : 65536 <= p -> List.length (utf8_point p) = 4%nat.
Proof.
  intros H. unfold utf8_point.
  destruct (Z.ltb_spec p 128); [lia|]. destruct (Z.ltb_spec p 2048); [lia|].
  destruct (Z.ltb_spec p 65536); [lia|]. reflexivity.
Qed.

Lemma replacement_length : List.length (utf8_point 65533) = 3%nat.
Proof. reflexivity. Qed.

(** The UTF-8 bytes of a string are at least as many as its code
    units, and as many only if every unit is below 128. *)
Lemma utf8_length (n : nat) : forall data : jsstring,
  (List.length data <= n)%nat ->
  (List.length data <= List.length (utf8 data))%nat /\
  (List.length (utf8 data) = List.length data -> Forall (fun c => c < 128) data).
Proof.
  induction n as [|n IH]; intros data Hn.
  { destruct data; [split; [lia|constructor]|cbn in Hn; lia]. }
  destruct data as [|c rest]; [split; [cbn; lia|constructor]|].
  cbn [List.length] in Hn.
  destruct (IH rest ltac:(lia)) as [Hrest Hsame].
  cbn [utf8].
  destruct (is_high c) eqn:Hh.
  - destruct rest as [|d rest'].
    + rewrite replacement_length. cbn. split; [lia|intros; lia].
    + destruct (is_low d) eqn:Hl.
      * destruct (IH rest' ltac:(cbn [List.length] in Hn; lia)) as [Hrest' _].
        rewrite length_app, point_length_pair.
        -- cbn [List.length]. split; [lia|intros; lia].
        -- unfold is_high, is_low in Hh, Hl.
           apply andb_true_iff in Hh as [Hh _]. apply andb_true_iff in Hl as [Hl _].
           apply Z.leb_le in Hh, Hl. lia.
      * rewrite length_app, replacement_length. cbn [List.length] in *.
        split; [lia|intros; lia].
  - destruct (is_low c) eqn:Hl.
    + rewrite length_app, replacement_length. cbn [List.length]. split; [lia|intros; lia].
    + rewrite length_app. pose proof (point_length_pos c) as Hpos.
      cbn [List.length]. split; [lia|]. intros Heq.
      constructor.
      * apply point_length_one. lia.
      * apply Hsame. lia.
Qed.

Lemma utf8_below_128 (data : jsstring) :
  Forall (fun c => c < 128) data -> List.length (utf8 data) = List.length data.
Proof.
  induction 1 as [|c data Hc _ IH]; [reflexivity|].
  cbn [utf8]. unfold is_high, is_low.
  destruct (Z.leb_spec 55296 c); [lia|]. cbn [andb].
  destruct (Z.leb_spec 56320 c); [lia|]. cbn [andb].
  rewrite length_app, IH. cbn [List.length].
  rewrite (proj2 (point_length_one c) Hc). reflexivity.
Qed.

End Units.

Section LengthField.

(** X6: what [sendMessage] writes for a JSON text shorter than 65536:
    the byte 129, the length field of [data.length], which counts the
    UTF-16 code units of the text, and the UTF-8 bytes of the text.  The
    bytes are never fewer than the length field says, and they are as
    many exactly when every code unit of the text is below 128: for any
    other text the frame announces fewer bytes than follow. *)
Theorem length_field_counts_units (s : Server.conn) (message : value) (data : jsstring) :
  Server.closed s = false ->
  JSON.stringify message = Some data ->
  Z.of_nat (List.length data) < 65536 ->
  let n := Z.of_nat (List.length data) in
  Server.sendMessage message s =
    Result s [Server.Write [129];
              Server.Write (Wire.length_code n :: Wire.extended_length n);
              Server.Write (utf8 data)] (Normal tt) /\
  n <= Z.of_nat (List.length (utf8 data)) /\
  (Z.of_nat (List.length (utf8 data)) = n <-> Forall (fun c => c < 128) data).
Proof.
  intros Hc Hd Hl n.
  destruct (Units.utf8_length (List.length data) data (Nat.le_refl _)) as [Hle Hsame].
  split; [exact (sendMessage_header s message data Hc Hd Hl)|].
  split; [unfold n; lia|]. split.
  - intros H. apply Hsame. unfold n in H. lia.
  - intros H. unfold n. rewrite (Units.utf8_below_128 data H). reflexivity.
Qed.

End LengthField.

Lemma length_field_counts_units_witness :
  let message := VString [233] in
  Server.sendMessage message Server.init =
    Result Server.init
      [Server.Write [129]; Server.Write [3]; Server.Write [34; 195; 169; 34]] (Normal tt) /\
  ~ Forall (fun c => c < 128) [34; 233; 34].
Proof.
  destruct (length_field_counts_units Server.init (VString [233]) [34; 233; 34])
    as (H1 & _ & H3); try reflexivity.
  split; [exact H1|].
  intros H. apply H3 in H. discriminate H.
Defined.

Section BackAgain.
Variable JSON_parse : jsstring -> option value.
Variable toString : Buffer.buffer -> jsstring.

(** X7: the encoder and the decoder of the server agree on the texts
    of code units below 128 that are shorter than 65536: what
    [sendMessage] writes for such a text is its unmasked text frame,
    and the listener of a connection with empty buffers that receives
    these bytes parses the text and dispatches the message. *)
Theorem short_text_roundtrip (sender s : Server.conn) (message : value) (data : jsstring)
    (v : value) :
  Server.closed sender = false ->
  JSON.stringify message = Some data ->
  Forall (fun c => 0 <= c < 128) data ->
  Z.of_nat (List.length data) < 65536 ->
  Server.closed s = false -> Server.dataReceived s = [] -> Server.payloadReceived s = [] ->
  JSON_parse (toString data) = Some v ->
  outcome (Server.dispatch v s) = Normal tt ->
  let bytes := Observe.written (trace (Server.sendMessage message sender)) in
  bytes = Wire.encode (Wire.Frame true 1 None data) /\
  Server.on_data JSON_parse toString bytes s =
    Result (Server.set_payloadReceived [] (state (Server.dispatch v s)))
           (trace (Server.dispatch v s)) (Normal tt).
Proof.
  intros Hcs Hd Ha Hl Hc Hb Hp Hv Ho. cbv zeta. split.
  - apply Roundtrip.sendMessage_wire; assumption.
  - apply Roundtrip.roundtrip_ascii with (data := data); assumption.
Qed.

End BackAgain.

Lemma short_text_roundtrip_witness :
  let bytes :=
    Observe.written (trace (Server.sendMessage Examples.greeting_envelope Server.init)) in
  bytes = Wire.encode (Wire.Frame true 1 None (Wire.text Examples.greeting_envelope)) /\
  Server.on_data JSON.parse Buffer.toString bytes Examples.listening =
    Result Examples.listening [Server.MessageHandler 3%nat (VString (js "hi"))] (Normal tt).
Proof.
  destruct (short_text_roundtrip JSON.parse Buffer.toString Server.init Examples.listening
              Examples.greeting_envelope (Wire.text Examples.greeting_envelope)
              Examples.greeting_envelope) as [H1 H2]; try reflexivity.
  - apply List.Forall_forall. intros c Hc.
    assert (H : forallb (fun c => (0 <=? c) && (c <? 128))
                  (Wire.text Examples.greeting_envelope) = true) by (vm_compute; reflexivity).
    apply (proj1 (forallb_forall _ _) H) in Hc. apply andb_true_iff in Hc as [H0 H1].
    apply Z.leb_le in H0. apply Z.ltb_lt in H1. lia.
  - split; [exact H1|exact H2].
Defined.

(** ** What the listener does to the socket, and that it returns *)

Module Writes.
Import Server Analysis Observe.

Section Writes.
Variable JSON_parse : jsstring -> option value.
Variable toString : Buffer.buffer -> jsstring.

Lemma writes_close : tracks is_write close_writes eq (close true).
Proof.
  intros s. unfold close_writes. destruct (closed s) eqn:Hc.
  - rewrite Framing.close_closed by exact Hc. cbn. rewrite Hc. reflexivity.
  - rewrite Framing.close_open by exact Hc. cbn [state trace]. unfold close_events, count.
    destruct (closeHandler s); cbn; lia.
Qed.

Lemma writes_dispatch (v : value) : tracks is_write close_writes eq (dispatch v).
Proof.
  unfold dispatch, start.
  track_with ltac:(first [ exact (@eq_refl nat) | exact ServerProps.eq_step | reflexivity ]).
Qed.

Lemma writes_frame : tracks is_write close_writes eq (frame JSON_parse toString).
Proof.
  unfold frame, deliver, free.
  track_with ltac:(first [ apply writes_close | apply writes_dispatch
                         | exact (@eq_refl nat) | exact ServerProps.eq_step | reflexivity ]).
Qed.

Lemma writes_frames (n : nat) : tracks is_write close_writes eq (frames JSON_parse toString n).
Proof.
  induction n as [|n IH]; cbn [frames]; [apply Tracking.tracks_lift; reflexivity|].
  apply Tracking.tracks_bind; [exact ServerProps.eq_step|apply writes_frame|].
  intros []; [exact IH|apply Tracking.tracks_ret; reflexivity].
Qed.

Lemma writes_on_data (c : Buffer.buffer) :
  tracks is_write close_writes eq (on_data JSON_parse toString c).
Proof.
  unfold on_data.
  track_with ltac:(first [ intros s; apply writes_frames
                         | exact (@eq_refl nat) | exact ServerProps.eq_step | reflexivity ]).
Qed.

End Writes.
End Writes.

Section Listening.
Variable JSON_parse : jsstring -> option value.
Variable toString : Buffer.buffer -> jsstring.

(** X8: the listener of incoming data writes to the socket only when
    it closes the connection, and then three times (the three writes of
    the close envelope): on a connection that is open afterwards it has
    written nothing, whatever bytes it was given. *)
Theorem listener_writes_to_close (data : Buffer.buffer) (s : Server.conn) :
  let r := Server.on_data JSON_parse toString data s in
  Observe.count Observe.is_write (trace r) =
    (if Server.closed s then 0 else if Server.closed (state r) then 3 else 0)%nat.
Proof.
  cbv zeta. pose proof (Writes.writes_on_data JSON_parse toString data s) as H.
  unfold Observe.close_writes in H.
  destruct (Server.closed s) eqn:Hc.
  - rewrite Framing.on_data_closed in * by exact Hc. reflexivity.
  - destruct (Server.closed (state (Server.on_data JSON_parse toString data s)));
      cbn [Observe.flag] in H; lia.
Qed.

(** X9: the [while (true)] loop of the listener ends on every input.
    A turn that goes round again leaves fewer bytes in the two buffers
    taken together than it found; so the turns are at most one more
    than these bytes, more fuel than that changes nothing, and the
    listener never runs out of it. *)
Theorem listener_terminates (data : Buffer.buffer) (s : Server.conn) :
  (Server.closed s = false ->
   outcome (Server.frame JSON_parse toString s) = Normal true ->
   (Server.turns (state (Server.frame JSON_parse toString s)) < Server.turns s)%nat) /\
  (Server.closed s = false ->
   forall n : nat, (Server.turns (Analysis.more data s) <= n)%nat ->
     Server.frames JSON_parse toString n (Analysis.more data s) =
       Server.on_data JSON_parse toString data s) /\
  outcome (Server.on_data JSON_parse toString data s) <> Timeout.
Proof.
  split; [apply Framing.frame_shortens|]. split.
  - intros Hc n Hn. rewrite Framing.on_data_open by exact Hc. unfold Analysis.loop.
    apply Framing.frames_fuel; [exact Hc|exact Hn|lia].
  - apply Returning.on_data_returns.
Qed.

End Listening.

Lemma listener_terminates_witness :
  let s := Analysis.more (Analysis.stream Examples.two_frames) Examples.listening in
  (Server.turns (state (Server.frame JSON.parse Buffer.toString s)) < Server.turns s)%nat /\
  Server.frames JSON.parse Buffer.toString 200 s =
    Server.on_data JSON.parse Buffer.toString (Analysis.stream Examples.two_frames)
      Examples.listening.
Proof.
  cbv zeta.
  destruct (listener_terminates JSON.parse Buffer.toString
              (Analysis.stream Examples.two_frames)
              (Analysis.more (Analysis.stream Examples.two_frames) Examples.listening))
    as (H1 & _ & _).
  destruct (listener_terminates JSON.parse Buffer.toString
              (Analysis.stream Examples.two_frames) Examples.listening)
    as (_ & H2 & _).
  split.
  - apply H1; vm_compute; reflexivity.
  - apply H2; [reflexivity|]. apply Nat.leb_le. vm_compute. reflexivity.
Defined.

(** ** Handlers of messages *)

Section Registered.
Variable JSON_parse : jsstring -> option value.
Variable toString : Buffer.buffer -> jsstring.


End Registered.


(** ** The handshake, refused *)

Section Refused.

(** X11: the decision of the upgrade listener.  A request is answered
    with the 101 response, and a connection is set up for it, exactly
    when its [Upgrade] header is [websocket] in any case of the letters
    and its [Sec-WebSocket-Version] header is exactly [13]; for every
    other request the socket is ended, nothing is written to it and no
    connection is set up. *)
Theorem handshake_decision (headers : gmap jsstring jsstring) (u : jsstring) :
  headers !! js "upgrade" = Some u ->
  let accepted :=
    toLowerCase u = js "websocket" /\
    headers !! js "sec-websocket-version" = Some (js "13") in
  (accepted <->
   Server.upgrade headers =
     ([Server.Write (utf8 (Server.response (headers !! js "sec-websocket-key")))],
      Normal (Some Server.init))) /\
  (~ accepted <-> Server.upgrade headers = ([Server.End_], Normal None)).
Proof.
  intros Hu. cbv zeta. unfold Server.upgrade. rewrite Hu.
  destruct (bool_decide_reflect (toLowerCase u = js "websocket")) as [Hw|Hw];
    [destruct (bool_decide_reflect
                 (headers !! js "sec-websocket-version" = Some (js "13"))) as [Hv|Hv]|].
  - split; split; try (intros; reflexivity); try tauto; try discriminate.
  - split; split; try (intros; reflexivity); try tauto; try discriminate.
  - split; split; try (intros; reflexivity); try tauto; try discriminate.
Qed.

End Refused.

Lemma handshake_decision_witness :
  let headers : gmap jsstring jsstring :=
    <[js "upgrade" := js "WebSocket"]>
      (<[js "sec-websocket-version" := js "8"]>
         (<[js "sec-websocket-key" := js "dGhlIHNhbXBsZSBub25jZQ=="]> ∅)) in
  Server.upgrade headers = ([Server.End_], Normal None).
Proof.
  cbv zeta.
  apply (handshake_decision _ (js "WebSocket")).
  - reflexivity.
  - intros [_ H]. vm_compute in H. discriminate H.
Defined.

(** ** Calls that are refused *)

Module Refusals.
Import Observe.

Lemma payloadLengthBuffer_throws (n : Z) (e : exn) :
  Server.payloadLengthBuffer n = Throw e -> e = RangeError.
Proof.
  unfold Server.payloadLengthBuffer, Buffer.writeUInt8, Buffer.writeUInt16BE, Buffer.from_array.
  repeat match goal with
         | |- context [if ?b then _ else _] => destruct b; cbn [and_then]
         end; congruence.
Qed.

Lemma sendMessage_throws (m : value) (s : Server.conn) (text : string) :
  outcome (Server.sendMessage m s) <> Throw (Thrown text).
Proof.
  unfold Server.sendMessage. rewrite bind_gets.
  destruct (Server.closed s); [discriminate|].
  rewrite bind_emit. cbn [outcome prepend].
  destruct (JSON.stringify m) as [data|]; [|discriminate].
  rewrite bind_lift.
  destruct (Server.payloadLengthBuffer _) as [b|e|] eqn:E; cbn [outcome]; try discriminate.
  apply payloadLengthBuffer_throws in E. subst e. discriminate.
Qed.

Lemma close_outcome (b : bool) (s : Server.conn) : outcome (Server.close b s) = Normal tt.
Proof.
  destruct (Server.closed s) eqn:Hc.
  - rewrite Framing.close_closed by exact Hc. reflexivity.
  - rewrite Framing.close_open by exact Hc. reflexivity.
Qed.

Lemma flush_outcome (s : Client.session) : outcome (Client.flushOutgoingQueue s) = Normal tt.
Proof.
  unfold Client.flushOutgoingQueue. rewrite !bind_gets.
  destruct (_ || _).
  - destruct (0 <? _)%nat; reflexivity.
  - rewrite bind_gets. destruct (Client.websocket s); try reflexivity.
    rewrite bind_result, Sending.transmit_all_result. cbn [outcome state trace prepend].
    destruct (0 <? _)%nat; reflexivity.
Qed.

Lemma client_close_outcome (s : Client.session) : outcome (Client.close s) = Normal tt.
Proof.
  destruct (Client.permanentlyClosed s) eqn:Hc.
  - rewrite ClientProps.client_close_closed by exact Hc. reflexivity.
  - rewrite ClientProps.client_close_open by exact Hc. reflexivity.
Qed.

End Refusals.

(** A refused call, read off the definition of the method. *)
Ltac refused Ho :=
  unfold throw, lift, modify, ret in *; cbn in Ho |- *; congruence.

Section FailFast.
Variable JSON_parse : jsstring -> option value.
Variable toString : Buffer.buffer -> jsstring.

(** X12: the methods of the session handle of the server fail fast.  A
    call of [send], [receive] or [close] that throws one of the
    exceptions of the library (a bad type, message or handler, a send
    after the close) has done nothing before: the connection is as it
    was, nothing was written and nothing was called. *)
Theorem server_method_refused (o : Server.op) (s : Server.conn) (text : string) :
  Observe.is_method o = true ->
  outcome (Server.step JSON_parse toString o s) = Throw (Thrown text) ->
  Server.step JSON_parse toString o s = Result s [] (Throw (Thrown text)).
Proof.
  intros Hm Ho. destruct o; try discriminate Hm; cbn [Server.step] in *.
  - unfold Server.send in *.
    destruct (negb (is_string type)); [refused Ho|].
    destruct (negb (Server.jsonConvertible message)); [refused Ho|].
    rewrite bind_gets in *. destruct (Server.closed s); [refused Ho|].
    exfalso. exact (Refusals.sendMessage_throws _ _ _ Ho).
  - unfold Server.receive in *.
    destruct type; try (refused Ho).
    destruct handler; refused Ho.
  - unfold Server.close_ in *.
    destruct handler; try (refused Ho).
    rewrite Refusals.close_outcome in Ho. discriminate Ho.
Qed.

(** X13: the methods of the session object of the client fail fast in
    the same way: a call of [send], [receive], [disconnect], [reconnect]
    or [close] that throws one of the exceptions of the library leaves
    the session as it was, sends nothing and calls nothing. *)
Theorem client_method_refused (o : Client.op) (s : Client.session) (text : string) :
  Observe.is_client_method o = true ->
  outcome (Client.step JSON_parse o s) = Throw (Thrown text) ->
  Client.step JSON_parse o s = Result s [] (Throw (Thrown text)).
Proof.
  intros Hm Ho. destruct o; try discriminate Hm; cbn [Client.step] in *.
  - unfold Client.send in *.
    destruct (negb (is_string type)); [refused Ho|].
    destruct (negb (Client.jsonConvertible message)); [refused Ho|].
    rewrite bind_gets in *.
    destruct (Client.permanentlyClosed s); [refused Ho|].
    rewrite bind_gets in *.
    destruct (Client.temporarilyDisconnected s); [refused Ho|].
    exfalso. unfold Client.push in Ho. rewrite bind_modify in Ho.
    rewrite Refusals.flush_outcome in Ho. discriminate Ho.
  - unfold Client.receive in *.
    destruct type; try (refused Ho).
    destruct (Client.bad_handler handler); [refused Ho|].
    rewrite bind_gets in *.
    destruct (Client.permanentlyClosed s); [refused Ho|].
    destruct handler; refused Ho.
  - unfold Client.disconnect in *.
    destruct (Client.bad_handler handler); [refused Ho|].
    rewrite bind_gets in *.
    destruct (Client.permanentlyClosed s); refused Ho.
  - unfold Client.reconnect in *.
    destruct (Client.bad_handler handler); [refused Ho|].
    rewrite bind_gets in *.
    destruct (Client.permanentlyClosed s); refused Ho.
  - unfold Client.close_ in *.
    destruct handler; try (refused Ho).
    rewrite Refusals.client_close_outcome in Ho. discriminate Ho.
Qed.

End FailFast.

Lemma server_method_refused_witness :
  Server.step JSON.parse Buffer.toString (Server.Send (VNumber 5) VNull) Examples.listening =
    Result Examples.listening [] (Throw (Thrown "Invalid parameter: type")).
Proof.
  apply (server_method_refused JSON.parse Buffer.toString); reflexivity.
Defined.

Lemma client_method_refused_witness :
  Client.step JSON.parse (Client.Receive (VString (js "greeting")) (VNumber 1))
    Examples.open_session =
    Result Examples.open_session [] (Throw (Thrown "Invalid parameter: handler")).
Proof.
  apply (client_method_refused JSON.parse); reflexivity.
Defined.

(* ================================================================== *)
(** * Further properties of the client *)
(* ================================================================== *)

(** ** A closed session *)

Module Silence.
Import Client Observe.

Lemma silent_ret {A} (a : A) : silent (ret a).
Proof. intros s Hp. split; [exact Hp|reflexivity]. Qed.

Lemma silent_gets {A} (f : session -> A) : silent (gets f).
Proof. intros s Hp. split; [exact Hp|reflexivity]. Qed.

Lemma silent_throw {A} (e : exn) : silent (throw (A:=A) e).
Proof. intros s Hp. split; [exact Hp|reflexivity]. Qed.

Lemma silent_lift {A} (c : completion A) : silent (lift c).
Proof. intros s Hp. split; [exact Hp|reflexivity]. Qed.

Lemma silent_modify (f : session -> session) :
  (forall s, permanentlyClosed (f s) = permanentlyClosed s) -> silent (modify f).
Proof. intros H s Hp. split; [cbn; rewrite H; exact Hp|reflexivity]. Qed.

Lemma silent_emit (e : event) : is_socket_call e = false -> silent (emit e).
Proof. intros H s Hp. split; [exact Hp|]. unfold count. cbn. rewrite H. reflexivity. Qed.

Lemma silent_bind {A B} (m : M A) (k : A -> M B) :
  silent m -> (forall a, silent (k a)) -> silent (bind m k).
Proof.
  intros Hm Hk s Hp. rewrite bind_result. destruct (Hm s Hp) as [H1 H2].
  destruct (outcome (m s)) as [a| |]; cbn [state trace prepend]; try (split; assumption).
  destruct (Hk a _ H1) as [H3 H4]. split; [exact H3|].
  rewrite Tracking.count_app, H2, H4. reflexivity.
Qed.

(** What follows the test of [permanentlyClosed] only matters where
    the session is closed. *)
Lemma silent_closed {A} (k : bool -> M A) :
  silent (k true) -> silent (bind (gets permanentlyClosed) k).
Proof. intros Hk s Hp. rewrite bind_gets, Hp. exact (Hk s Hp). Qed.

Lemma silent_flush : silent flushOutgoingQueue.
Proof.
  unfold flushOutgoingQueue. apply silent_closed.
  apply silent_bind; [apply silent_gets|]. intros td.
  apply silent_bind; [apply silent_gets|]. intros q. cbn [orb].
  destruct (0 <? _)%nat; [|apply silent_ret].
  apply silent_modify. reflexivity.
Qed.

Lemma silent_close : silent close.
Proof. unfold close. apply silent_closed. apply silent_ret. Qed.

End Silence.

Ltac hush known :=
  repeat first
    [ known
    | apply Silence.silent_ret
    | apply Silence.silent_gets
    | apply Silence.silent_lift
    | apply Silence.silent_throw
    | apply Silence.silent_closed
    | apply Silence.silent_modify; reflexivity
    | apply Silence.silent_emit; reflexivity
    | apply Silence.silent_bind; [|intros ?]
    | match goal with
      | |- Observe.silent (if ?b then _ else _) => destruct b
      | |- Observe.silent (match ?x with _ => _ end) => destruct x
      end ].

Module Silent.
Import Client Observe.

Section Silent.
Variable JSON_parse : jsstring -> option value.

Lemma silent_step (o : op) : silent (step JSON_parse o).
Proof.
  destruct o; cbn [step].
  - unfold onSocketOpen, splice0, push. hush ltac:(apply Silence.silent_flush).
  - unfold onSocketMessage. hush ltac:(apply Silence.silent_close).
  - unfold onSocketClose. hush fail.
  - unfold onInterval. hush fail.
  - unfold send. hush fail.
  - unfold receive. hush fail.
  - unfold disconnect. hush fail.
  - unfold reconnect. hush fail.
  - unfold close_. hush ltac:(apply Silence.silent_close).
Qed.

Lemma run_silent (ops : list op) : forall s : session,
  permanentlyClosed s = true ->
  count is_socket_call (fst (run JSON_parse ops s)) = 0%nat /\
  permanentlyClosed (snd (run JSON_parse ops s)) = true.
Proof.
  induction ops as [|o ops IH]; intros s Hp; cbn [run].
  - split; [reflexivity|exact Hp].
  - destruct (silent_step o s Hp) as [H1 H2]. specialize (IH _ H1).
    destruct (run JSON_parse ops _) as [t s']. cbn [fst snd] in *.
    destruct IH as [H3 H4]. split; [|exact H4].
    rewrite Tracking.count_app, H2, H3. reflexivity.
Qed.

End Silent.
End Silent.

Section ClosedForGood.
Variable JSON_parse : jsstring -> option value.

(** X14: a permanently closed session of the client stays closed and
    leaves the network alone, whatever happens to it afterwards: it
    sends nothing, it closes no WebSocket and it makes no new one, so
    that it never reconnects. *)
Theorem closed_session_silent (ops : list Client.op) (s : Client.session) :
  Client.permanentlyClosed s = true ->
  Observe.count Observe.is_socket_call (fst (Client.run JSON_parse ops s)) = 0%nat /\
  Client.permanentlyClosed (snd (Client.run JSON_parse ops s)) = true.
Proof. apply Silent.run_silent. Qed.

End ClosedForGood.

Lemma closed_session_silent_witness :
  let ops := [Client.Closed; Client.Interval true; Client.Opened VUndefined;
              Client.Send (VString (js "greeting")) VNull; Client.Close_ VUndefined] in
  Observe.count Observe.is_socket_call
    (fst (Client.run JSON.parse ops Examples.closed_session)) = 0%nat /\
  Client.permanentlyClosed (snd (Client.run JSON.parse ops Examples.closed_session)) = true.
Proof.
  apply (closed_session_silent JSON.parse). reflexivity.
Defined.

(** ** The socket opens *)

Module Opening.
Import Client Observe.

Lemma transmit_all_sends (q : list value) (s : session) :
  trace (transmit_all q s) = map (fun x => WsSend (wire_text x)) q.
Proof.
  induction q as [|x q IH]; [reflexivity|].
  rewrite Sending.transmit_all_cons, IH. cbn [map]. unfold transmit, wire_text.
  destruct (JSON.stringify x); reflexivity.
Qed.

(** A flush through an open socket sends the queue in its order and
    empties it. *)
Lemma flush_sends (s : session) :
  permanentlyClosed s = false -> temporarilyDisconnected s = false ->
  websocket s = OPEN ->
  flushOutgoingQueue s =
    Result (set_outgoingQueue [] s) (map (fun x => WsSend (wire_text x)) (outgoingQueue s))
      (Normal tt).
Proof.
  intros Hp Ht Hw. destruct (outgoingQueue s) as [|x q] eqn:Hq.
  - unfold flushOutgoingQueue. rewrite !bind_gets, Hp, Ht, Hq. cbn [orb].
    rewrite bind_gets, Hw. cbn. destruct s; cbn in *; subst. reflexivity.
  - rewrite Sending.flush_open by (assumption || congruence).
    rewrite transmit_all_sends, Hq. reflexivity.
Qed.

End Opening.

Section Opened.
Variable JSON_parse : jsstring -> option value.

(** X15: the socket opens after an outage.  Whatever was in the queue
    is dropped unsent; the reconnect callback, if there is one, is
    called before anything is sent; then the [reconnect] envelope is
    the one thing sent, with what the callback returned ([null] for
    [undefined], and when there is no callback).  If what it returned
    has no JSON text, the listener throws after the callback and sends
    nothing, and the session is left connected with an empty queue. *)
Theorem reopened_after_outage (returned : value) (s : Client.session) :
  Client.permanentlyClosed s = false ->
  Client.temporarilyDisconnected s = true ->
  let reconnectData :=
    match Client.reconnectHandler s with
    | Some _ => match returned with VUndefined => VNull | _ => returned end
    | None => VNull
    end in
  let called :=
    match Client.reconnectHandler s with
    | Some f => [Client.ReconnectHandler f]
    | None => []
    end in
  let connected :=
    Client.set_outgoingQueue []
      (Client.set_temporarilyDisconnected false (Client.set_websocket Client.OPEN s)) in
  Client.step JSON_parse (Client.Opened returned) s =
    if Client.jsonConvertible reconnectData
    then Result connected
           (called ++ [Client.WsSend (Observe.wire_text
                                        (Observe.reconnect_envelope reconnectData))])
           (Normal tt)
    else Result connected called (Throw (Thrown "Invalid reconnectData")).
Proof.
  intros Hp Ht. cbv zeta. cbn [Client.step]. rewrite bind_modify.
  unfold Client.onSocketOpen. rewrite bind_gets.
  change (Client.temporarilyDisconnected (Client.set_websocket Client.OPEN s))
    with (Client.temporarilyDisconnected s). rewrite Ht.
  mnorm.
  set (s1 := Client.set_temporarilyDisconnected false (Client.set_websocket Client.OPEN s)).
  assert (Hsplice : forall (B : Type) (k : unit -> Client.M B),
            bind (if (0 <? List.length (Client.outgoingQueue s1))%nat
                  then Client.splice0 (List.length (Client.outgoingQueue s1))
                  else ret tt) k s1 = k tt (Client.set_outgoingQueue [] s1)).
  { intros B k. destruct (Client.outgoingQueue s1) as [|x q] eqn:Hq.
    - cbn [List.length Nat.ltb Nat.leb]. rewrite bind_ret. f_equal.
      unfold s1 in *. destruct s; cbn in *; subst. reflexivity.
    - change (0 <? List.length (x :: q))%nat with true. cbv iota.
      unfold Client.splice0. rewrite bind_modify. f_equal.
      rewrite Hq, skipn_all. reflexivity. }
  rewrite Hsplice. clear Hsplice.
  set (s2 := Client.set_outgoingQueue [] s1).
  mnorm.
  change (Client.reconnectHandler s2) with (Client.reconnectHandler s).
  assert (Hflush : forall x : value,
            bind (Client.push x) (fun _ => Client.flushOutgoingQueue) s2 =
              Result s2 [Client.WsSend (Observe.wire_text x)] (Normal tt)).
  { intros x. unfold Client.push. rewrite bind_modify.
    rewrite Opening.flush_sends by (try reflexivity; exact Hp). reflexivity. }
  destruct (Client.reconnectHandler s) as [f|].
  - rewrite bind_bind, bind_emit.
    destruct (Client.jsonConvertible _) eqn:Hj; cbn [negb].
    + rewrite bind_ret, Hflush. reflexivity.
    + reflexivity.
  - rewrite bind_ret, Hflush. reflexivity.
Qed.

End Opened.

Lemma reopened_after_outage_witness :
  let s := state (Client.reconnect (VFunction 4%nat) Examples.disconnected_session) in
  Client.step JSON.parse (Client.Opened (VNumber 7)) s =
    Result (Client.set_outgoingQueue []
              (Client.set_temporarilyDisconnected false
                 (Client.set_websocket Client.OPEN s)))
      [Client.ReconnectHandler 4%nat;
       Client.WsSend (Observe.wire_text (Observe.reconnect_envelope (VNumber 7)))]
      (Normal tt).
Proof.
  apply (reopened_after_outage JSON.parse (VNumber 7)); reflexivity.
Defined.

Module Queue.
Import Client Observe.

Section Queue.
Variable JSON_parse : jsstring -> option value.

(** A message sent before the socket is open waits in the queue. *)
Lemma send_waits (t : jsstring) (m : value) (s : session) :
  permanentlyClosed s = false -> temporarilyDisconnected s = false ->
  websocket s <> OPEN -> jsonConvertible m = true ->
  send (VString t) m s =
    Result (set_outgoingQueue (outgoingQueue s ++ [message_envelope t m]) s) [] (Normal tt).
Proof.
  intros Hp Ht Hw Hj. unfold send. cbn [is_string negb]. rewrite Hj. cbn [negb].
  rewrite bind_gets, Hp, bind_gets, Ht. unfold push. rewrite bind_modify.
  rewrite Sending.flush_waiting by assumption. reflexivity.
Qed.

(** The socket opens on a session that was not disconnected. *)
Lemma opened_sends (returned : value) (s : session) :
  permanentlyClosed s = false -> temporarilyDisconnected s = false ->
  step JSON_parse (Opened returned) s =
    Result (set_outgoingQueue [] (set_websocket OPEN s))
      (map (fun x => WsSend (wire_text x)) (outgoingQueue s)) (Normal tt).
Proof.
  intros Hp Ht. cbn [step]. rewrite bind_modify. unfold onSocketOpen.
  rewrite bind_gets.
  change (temporarilyDisconnected (set_websocket OPEN s)) with (temporarilyDisconnected s).
  rewrite Ht, bind_ret.
  rewrite Opening.flush_sends by first [assumption | reflexivity]. reflexivity.
Qed.

End Queue.
End Queue.

Section Queued.
Variable JSON_parse : jsstring -> option value.

(** X16: messages sent before the socket is open.  On a session that
    is neither closed nor disconnected and whose socket is not open
    yet, every [send] of a message that has a JSON text puts its
    envelope at the end of the queue and sends nothing; when the socket
    opens, all that is queued is sent, the oldest first and each once,
    and the queue is empty. *)
Theorem queued_until_open (messages : list (jsstring * value)) (returned : value)
    (s : Client.session) :
  Client.permanentlyClosed s = false -> Client.temporarilyDisconnected s = false ->
  Client.websocket s <> Client.OPEN ->
  Forall (fun tm => Client.jsonConvertible (snd tm) = true) messages ->
  Client.run JSON_parse
    (map (fun tm => Client.Send (VString (fst tm)) (snd tm)) messages ++
     [Client.Opened returned]) s =
    (map (fun x => Client.WsSend (Observe.wire_text x))
       (Client.outgoingQueue s ++
        map (fun tm => Observe.message_envelope (fst tm) (snd tm)) messages),
     Client.set_outgoingQueue [] (Client.set_websocket Client.OPEN s)).
Proof.
  intros Hp Ht Hw Hm. revert s Hp Ht Hw.
  induction Hm as [|[t m] messages Hj _ IH]; intros s Hp Ht Hw.
  - cbn [map app Client.run]. rewrite Queue.opened_sends by assumption.
    cbn [state trace]. rewrite !app_nil_r. reflexivity.
  - cbn [map app Client.run Client.step fst snd] in *.
    rewrite Queue.send_waits by assumption. cbn [state trace].
    rewrite IH by assumption. cbn [app].
    change (Client.outgoingQueue
              (Client.set_outgoingQueue
                 (Client.outgoingQueue s ++ [Observe.message_envelope t m]) s))
      with (Client.outgoingQueue s ++ [Observe.message_envelope t m]).
    rewrite <- app_assoc. reflexivity.
Qed.

End Queued.

Lemma queued_until_open_witness :
  Observe.sent
    (fst (Client.run JSON.parse
            [Client.Send (VString (js "greeting")) (VString (js "hi"));
             Client.Send (VString (js "count")) (VNumber 2);
             Client.Opened VUndefined]
            (state Client.connect))) =
    map Observe.wire_text
      [Examples.connect_envelope;
       Observe.message_envelope (js "greeting") (VString (js "hi"));
       Observe.message_envelope (js "count") (VNumber 2)].
Proof.
  assert (Hw : Client.websocket (state Client.connect) <> Client.OPEN) by discriminate.
  assert (Hm : Forall (fun tm : jsstring * value => Client.jsonConvertible (snd tm) = true)
                 [(js "greeting", VString (js "hi")); (js "count", VNumber 2)])
    by (repeat constructor).
  pose proof (queued_until_open JSON.parse
                [(js "greeting", VString (js "hi")); (js "count", VNumber 2)] VUndefined
                (state Client.connect) eq_refl eq_refl Hw Hm) as H.
  cbn [map app fst snd] in H. rewrite H. reflexivity.
Defined.

(** ** The socket closes *)

Module Loss.
Import Client Observe.

Section Loss.
Variable JSON_parse : jsstring -> option value.

(** Attempts that fail leave the session waiting for the next one. *)
Lemma attempts_fail (n : nat) (s : session) :
  permanentlyClosed s = false ->
  run JSON_parse (repeat (Interval false) n) s = ([], s).
Proof.
  intros Hp.
  assert (H1 : onInterval false s = Result s [] (Normal tt)).
  { unfold onInterval. rewrite bind_gets. destruct (reconnecting s); [reflexivity|].
    rewrite bind_gets, Hp. reflexivity. }
  induction n as [|n IH]; [reflexivity|].
  cbn [repeat run step]. rewrite H1. cbn [state trace]. rewrite IH. reflexivity.
Qed.

Lemma run_app (ops ops' : list op) (s : session) :
  run JSON_parse (ops ++ ops') s =
    (fst (run JSON_parse ops s) ++ fst (run JSON_parse ops' (snd (run JSON_parse ops s))),
     snd (run JSON_parse ops' (snd (run JSON_parse ops s)))).
Proof.
  revert s. induction ops as [|o ops IH]; intros s; cbn [app run].
  - cbn [fst snd app]. destruct (run JSON_parse ops' s); reflexivity.
  - rewrite IH. destruct (run JSON_parse ops _) as [t s1]. cbn [fst snd].
    rewrite app_assoc. reflexivity.
Qed.

End Loss.
End Loss.

Section Lost.
Variable JSON_parse : jsstring -> option value.

(** X17: the socket of a connected session is lost.  The disconnect
    callback, if there is one, is called once; then the session tries
    again at every firing of its interval, doing nothing when
    [new WebSocket] throws, until one call succeeds: that socket is the
    one new socket it makes, and the interval is cleared. *)
Theorem reconnects_after_loss (failures : nat) (s : Client.session) :
  Client.permanentlyClosed s = false ->
  Client.temporarilyDisconnected s = false ->
  Client.reconnecting s = 0%nat ->
  Client.run JSON_parse
    (Client.Closed :: repeat (Client.Interval false) failures ++ [Client.Interval true]) s =
    (match Client.disconnectHandler s with
     | Some f => [Client.DisconnectHandler f]
     | None => []
     end ++ [Client.WsNew],
     Client.set_websocket Client.CONNECTING (Client.set_temporarilyDisconnected true s)).
Proof.
  intros Hp Ht Hr.
  assert (Hlost : Client.step JSON_parse Client.Closed s =
            Result (Client.set_reconnecting 1
                      (Client.set_temporarilyDisconnected true
                         (Client.set_websocket Client.CLOSED s)))
              match Client.disconnectHandler s with
              | Some f => [Client.DisconnectHandler f]
              | None => []
              end (Normal tt)).
  { cbn [Client.step]. rewrite bind_modify. unfold Client.onSocketClose.
    rewrite bind_gets.
    change (Client.permanentlyClosed (Client.set_websocket Client.CLOSED s))
      with (Client.permanentlyClosed s). rewrite Hp.
    rewrite bind_gets.
    change (Client.temporarilyDisconnected (Client.set_websocket Client.CLOSED s))
      with (Client.temporarilyDisconnected s). rewrite Ht.
    mnorm.
    change (Client.disconnectHandler
              (Client.set_temporarilyDisconnected true
                 (Client.set_websocket Client.CLOSED s)))
      with (Client.disconnectHandler s).
    destruct (Client.disconnectHandler s).
    - rewrite bind_emit. unfold modify. cbn. rewrite Hr. reflexivity.
    - rewrite bind_ret. unfold modify. cbn. rewrite Hr. reflexivity. }
  set (s1 := Client.set_reconnecting 1
               (Client.set_temporarilyDisconnected true
                  (Client.set_websocket Client.CLOSED s))) in *.
  assert (Hp1 : Client.permanentlyClosed s1 = false) by exact Hp.
  assert (Hnew : Client.step JSON_parse (Client.Interval true) s1 =
            Result (Client.set_websocket Client.CONNECTING
                      (Client.set_temporarilyDisconnected true s))
              [Client.WsNew] (Normal tt)).
  { cbn [Client.step]. unfold Client.onInterval. rewrite bind_gets.
    change (Client.reconnecting s1) with 1%nat. cbv iota.
    rewrite bind_gets, Hp1, bind_emit, !bind_modify. unfold modify, Observe.prepend.
    cbn [state trace outcome app]. f_equal.
    unfold s1. destruct s; cbn in *; subst. reflexivity. }
  change (Client.Closed :: repeat (Client.Interval false) failures ++ [Client.Interval true])
    with ([Client.Closed] ++ repeat (Client.Interval false) failures ++ [Client.Interval true]).
  rewrite !(Loss.run_app JSON_parse).
  cbn [Client.run]. rewrite Hlost. cbn [fst snd state trace].
  rewrite (Loss.attempts_fail JSON_parse) by exact Hp1.
  cbn [fst snd]. rewrite Hnew. cbn [fst snd state trace app].
  rewrite !app_nil_r. reflexivity.
Qed.

(** X18: the server closes the session.  A message whose envelope has
    the type [close] does what [close()] does; the session is then
    closed for good, and whatever happens afterwards, the loss of the
    socket among it, it makes no new socket and sends nothing. *)
Theorem closed_by_server (data : jsstring) (props : list (jsstring * value))
    (s : Client.session) (later : list Client.op) :
  JSON_parse data = Some (VObject props) ->
  lookup_prop (js "type") props = VString (js "close") ->
  let r := Client.step JSON_parse (Client.Message data) s in
  r = Client.close s /\
  Client.permanentlyClosed (state r) = true /\
  Observe.count Observe.is_socket_call (fst (Client.run JSON_parse later (state r))) = 0%nat.
Proof.
  intros Hd Hty. cbv zeta.
  assert (Hr : Client.step JSON_parse (Client.Message data) s = Client.close s).
  { cbn [Client.step]. unfold Client.onSocketMessage. rewrite Hd.
    cbn [get]. rewrite bind_lift, Hty. reflexivity. }
  assert (Hp : Client.permanentlyClosed (state (Client.close s)) = true).
  { destruct (Client.permanentlyClosed s) eqn:E.
    - rewrite ClientProps.client_close_closed by exact E. exact E.
    - rewrite ClientProps.client_close_open by exact E. cbn [state].
      destruct (Client.websocket s); reflexivity. }
  rewrite Hr. split; [reflexivity|]. split; [exact Hp|].
  apply Silent.run_silent. exact Hp.
Qed.

End Lost.

Lemma reconnects_after_loss_witness :
  let s := state (Client.disconnect (VFunction 6%nat) Examples.open_session) in
  Client.run JSON.parse
    [Client.Closed; Client.Interval false; Client.Interval false; Client.Interval true] s =
    ([Client.DisconnectHandler 6%nat; Client.WsNew],
     Client.set_websocket Client.CONNECTING (Client.set_temporarilyDisconnected true s)).
Proof.
  apply (reconnects_after_loss JSON.parse 2); reflexivity.
Defined.

Lemma closed_by_server_witness :
  let data := Observe.wire_text (VObject [(js "type", VString (js "close"))]) in
  let r := Client.step JSON.parse (Client.Message data) Examples.open_session in
  r = Result Examples.closed_session [Client.WsClose; Client.CloseHandler 5%nat] (Normal tt) /\
  Observe.count Observe.is_socket_call
    (fst (Client.run JSON.parse
            [Client.Closed; Client.Interval true; Client.Opened VUndefined] (state r))) = 0%nat.
Proof.
  cbv zeta.
  destruct (closed_by_server JSON.parse
              (Observe.wire_text (VObject [(js "type", VString (js "close"))]))
              [(js "type", VString (js "close"))] Examples.open_session
              [Client.Closed; Client.Interval true; Client.Opened VUndefined])
    as (H1 & _ & H3).
  - vm_compute. reflexivity.
  - reflexivity.
  - split; [rewrite H1; reflexivity|exact H3].
Defined.

(** ** The disconnect callback *)

Module Outage.
Import Client Observe.

Ltac steady :=
  first [ exact Nat.le_refl | exact ServerProps.le_step | reflexivity ].

Section Outage.
Variable JSON_parse : jsstring -> option value.

Lemma outage_transmit_all (q : list value) :
  tracks is_disconnect_handler disconnected_weight le (transmit_all q).
Proof.
  induction q as [|x q IH]; cbn [transmit_all]; [apply Tracking.tracks_ret; steady|].
  apply Tracking.tracks_bind; [steady| |intros ?; exact IH].
  unfold transmit. destruct (JSON.stringify x); apply Tracking.tracks_emit; steady.
Qed.

Lemma outage_flush : tracks is_disconnect_handler disconnected_weight le flushOutgoingQueue.
Proof.
  unfold flushOutgoingQueue, splice0.
  track_with ltac:(first [apply outage_transmit_all | steady]).
Qed.

Lemma outage_close : tracks is_disconnect_handler disconnected_weight le close.
Proof. unfold close. track_with steady. Qed.

Lemma outage_closed :
  tracks is_disconnect_handler disconnected_weight le
    (bind (modify (set_websocket CLOSED)) (fun _ => onSocketClose)).
Proof.
  intros s. rewrite bind_modify. unfold onSocketClose, disconnected_weight.
  rewrite bind_gets. destruct (permanentlyClosed _); [cbn; lia|].
  rewrite bind_gets.
  change (temporarilyDisconnected (set_websocket CLOSED s)) with (temporarilyDisconnected s).
  destruct (temporarilyDisconnected s) eqn:Ht.
  - rewrite bind_ret. cbn. rewrite Ht. cbn. lia.
  - mnorm.
    change (disconnectHandler (set_temporarilyDisconnected true (set_websocket CLOSED s)))
      with (disconnectHandler s).
    destruct (disconnectHandler s).
    + rewrite bind_emit. cbn. lia.
    + rewrite bind_ret. cbn. lia.
Qed.

(** Every step but the opening of a socket. *)
Lemma outage_step (o : op) :
  is_opened o = false ->
  tracks is_disconnect_handler disconnected_weight le (step JSON_parse o).
Proof.
  intros Ho. destruct o; try discriminate Ho; cbn [step].
  - unfold onSocketMessage. track_with ltac:(first [apply outage_close | steady]).
  - apply outage_closed.
  - unfold onInterval. track_with steady.
  - unfold send, push. track_with ltac:(first [apply outage_flush | steady]).
  - unfold receive. track_with steady.
  - unfold disconnect. track_with steady.
  - unfold reconnect. track_with steady.
  - unfold close_. track_with ltac:(first [apply outage_close | steady]).
Qed.

(** The opening of a socket calls no disconnect callback. *)
Lemma opened_calls_none (returned : value) :
  tracks is_disconnect_handler (fun _ => 0%nat) eq (step JSON_parse (Opened returned)).
Proof.
  assert (Hall : forall q, tracks is_disconnect_handler (fun _ : session => 0%nat) eq
                             (transmit_all q)).
  { induction q as [|x q IH]; cbn [transmit_all]; [apply Tracking.tracks_ret; reflexivity|].
    apply Tracking.tracks_bind; [exact ServerProps.eq_step| |intros ?; exact IH].
    unfold transmit. destruct (JSON.stringify x); apply Tracking.tracks_emit; reflexivity. }
  cbn [step]. unfold onSocketOpen, flushOutgoingQueue, splice0, push.
  track_with ltac:(first [ apply Hall | exact (@eq_refl nat) | exact ServerProps.eq_step
                         | reflexivity ]).
Qed.

Lemma outage_run (ops : list op) : forall s : session,
  (count is_disconnect_handler (fst (run JSON_parse ops s)) + flag (temporarilyDisconnected s) <=
   count is_opened ops + flag (temporarilyDisconnected (snd (run JSON_parse ops s))))%nat.
Proof.
  induction ops as [|o ops IH]; intros s; cbn [run].
  - cbn. lia.
  - specialize (IH (state (step JSON_parse o s))).
    destruct (run JSON_parse ops _) as [t s']. cbn [fst snd] in *.
    rewrite Tracking.count_app.
    change (count is_opened (o :: ops))
      with (List.length (if is_opened o then o :: List.filter is_opened ops
                         else List.filter is_opened ops)).
    fold (count is_opened ops).
    destruct (is_opened o) eqn:Ho.
    + destruct o; try discriminate Ho.
      pose proof (opened_calls_none returned s) as H. cbv beta in H.
      pose proof (Closing.flag_le (temporarilyDisconnected s)).
      cbn [List.length]. unfold count in *. lia.
    + pose proof (outage_step o Ho s) as H. unfold disconnected_weight in H.
      unfold count in *. lia.
Qed.

End Outage.
End Outage.

Section Outages.
Variable JSON_parse : jsstring -> option value.

(** X19: the disconnect callback is called at most once for an outage.
    Over any sequence of steps, the number of its calls is at most the
    number of times a socket opened, plus one if the session ends
    disconnected, minus one if it began disconnected: between two
    openings of a socket the callback is called at most once, however
    many sockets close meanwhile. *)
Theorem disconnect_once_per_outage (ops : list Client.op) (s : Client.session) :
  (Observe.count Observe.is_disconnect_handler (fst (Client.run JSON_parse ops s)) +
   Observe.flag (Client.temporarilyDisconnected s) <=
   Observe.count Observe.is_opened ops +
   Observe.flag (Client.temporarilyDisconnected (snd (Client.run JSON_parse ops s))))%nat.
Proof. apply Outage.outage_run. Qed.

End Outages.

(** ** Handlers of messages, on the client *)

Section ClientRegistered.
Variable JSON_parse : jsstring -> option value.


End ClientRegistered.


Lemma registration_rejected_witness :
  (exists e, Client.receive (VString (js "greeting")) (VFunction 8%nat)
               Examples.closed_session = Result Examples.closed_session [] (Throw e)) /\
  (exists e, Client.disconnect (VFunction 8%nat) Examples.closed_session =
               Result Examples.closed_session [] (Throw e)) /\
  (exists e, Client.reconnect (VFunction 8%nat) Examples.closed_session =
               Result Examples.closed_session [] (Throw e)).
Proof.
  apply (registration_rejected Examples.closed_session). reflexivity.
Defined.

(* ================================================================== *)
(** * Messages in their order *)
(* ================================================================== *)

Module Order.
Import Server Analysis Observe Framing.

Section Order.
Variable JSON_parse : jsstring -> option value.
Variable toString : Buffer.buffer -> jsstring.

(** A complete text frame with bytes after it: its message is
    dispatched, then the listener goes on with these bytes. *)
Lemma on_data_text (f : Wire.frame) (rest : list Z) (s : conn) (v : value) :
  Wire.valid (2 ^ 32) f -> Wire.fin f = true -> Wire.opcode f = 1 ->
  closed s = false -> dataReceived s = [] ->
  JSON_parse (toString (payloadReceived s ++ Wire.payload f)) = Some v ->
  outcome (dispatch v s) = Normal tt ->
  on_data JSON_parse toString (Wire.encode f ++ rest) s =
    prepend (trace (dispatch v s))
      (on_data JSON_parse toString rest (set_payloadReceived [] (state (dispatch v s)))).
Proof.
  intros Hv Hfin Hop Hc Hd Hp Ho.
  rewrite ServerProps.on_data_frame by (assumption || lia). cbv zeta.
  unfold accept. rewrite !bind_modify, Hfin, Hop. fields.
  unfold deliver. change (1 =? 1) with true. cbv iota.
  rewrite !bind_bind, bind_gets. fields. rewrite Hp.
  rewrite !bind_bind, (bind_result (dispatch v)).
  change (set_payloadReceived (payloadReceived s ++ Wire.payload f)
            (set_dataReceived (header f ++ Wire.payload f ++ rest)
               (more (Wire.encode f ++ rest) s)))
    with (set_dataReceived (header f ++ Wire.payload f ++ rest)
            (set_payloadReceived (payloadReceived s ++ Wire.payload f) s)).
  rewrite ServerProps.dispatch_buffers.
  pose proof (dispatch_fields v s) as (F1 & F2 & F3 & F4 & F5).
  assert (Hc1 : closed (set_payloadReceived [] (state (dispatch v s))) = false).
  { cbn [closed set_payloadReceived]. congruence. }
  rewrite (on_data_open JSON_parse toString rest _ Hc1).
  destruct (dispatch v s) as [s1 t1 o1]. cbn [outcome state trace mapstate] in *.
  subst o1. cbv iota.
  rewrite bind_ret, bind_bind, bind_modify, bind_ret, bind_modify.
  cbn [outcome state trace prepend ret].
  rewrite app_nil_r. rewrite Hd in F2.
  replace (more rest (set_payloadReceived [] s1))
    with (set_dataReceived rest
            (set_payloadReceived (Buffer.alloc 0)
               (set_dataReceived (header f ++ Wire.payload f ++ rest)
                  (set_payloadReceived (payloadReceived s ++ Wire.payload f) s1)))).
  - reflexivity.
  - unfold more. destruct s1. cbn in F2 |- *. subst. reflexivity.
Qed.

(** [dispatch] leaves the connection open and the buffers as they are. *)
Lemma dispatch_all_fields (vs : list value) : forall s : conn,
  closed (state (dispatch_all vs s)) = closed s /\
  dataReceived (state (dispatch_all vs s)) = dataReceived s /\
  payloadReceived (state (dispatch_all vs s)) = payloadReceived s.
Proof.
  induction vs as [|v vs IH]; intros s; [repeat split|].
  cbn [dispatch_all]. rewrite bind_result.
  pose proof (dispatch_fields v s) as (F1 & F2 & F3 & _).
  destruct (outcome (dispatch v s)) as [[]| |]; cbn [state prepend];
    try (repeat split; assumption).
  destruct (IH (state (dispatch v s))) as (G1 & G2 & G3).
  repeat split; congruence.
Qed.

Lemma delivered (fs : list Wire.frame) (vs : list value) :
  Forall2 (fun f v => Wire.valid (2 ^ 32) f /\ Wire.fin f = true /\ Wire.opcode f = 1 /\
                      JSON_parse (toString (Wire.payload f)) = Some v) fs vs ->
  forall s : conn,
    closed s = false -> dataReceived s = [] -> payloadReceived s = [] ->
    outcome (dispatch_all vs s) = Normal tt ->
    on_data JSON_parse toString (stream fs) s = dispatch_all vs s.
Proof.
  induction 1 as [|f v fs vs (Hv & Hfin & Hop & Hp) _ IH]; intros s Hc Hd Hq Ho.
  - unfold stream. cbn [map List.concat dispatch_all].
    rewrite on_data_open by exact Hc. rewrite loop_wait.
    + unfold more. rewrite Hd. destruct s; cbn in *; subst. reflexivity.
    + exact Hc.
    + unfold more. fields. rewrite Hd. reflexivity.
  - unfold stream. cbn [map List.concat dispatch_all] in *. fold (stream fs).
    rewrite bind_result in Ho |- *.
    pose proof (dispatch_fields v s) as (F1 & F2 & F3 & _).
    destruct (outcome (dispatch v s)) as [[]| |] eqn:Hov; try discriminate Ho.
    cbn [outcome prepend] in Ho.
    rewrite (on_data_text f (stream fs) s v); try assumption.
    + assert (Hs : set_payloadReceived [] (state (dispatch v s)) = state (dispatch v s)).
      { rewrite Hq in F3. destruct (state (dispatch v s)). cbn in F3 |- *. subst.
        reflexivity. }
      rewrite Hs, IH; congruence.
    + rewrite Hq. exact Hp.
Qed.

End Order.
End Order.

Section InOrder.
Variable JSON_parse : jsstring -> option value.
Variable toString : Buffer.buffer -> jsstring.

(** X21: messages are delivered in their order, each once.  On an open
    connection with empty buffers, the bytes of any number of complete
    text frames, each with a payload that is a JSON text, do what the
    dispatch of their envelopes one after the other does, as long as no
    dispatch throws (as that of [null] does, or that of a message whose
    type names something inherited that cannot be called): the same
    handlers are called with the same messages in the same order,
    nothing is written, and the buffers are empty again. *)
Theorem delivered_in_order (fs : list Wire.frame) (vs : list value) (s : Server.conn) :
  Forall2 (fun f v => Wire.valid (2 ^ 32) f /\ Wire.fin f = true /\ Wire.opcode f = 1 /\
                      JSON_parse (toString (Wire.payload f)) = Some v) fs vs ->
  Server.closed s = false -> Server.dataReceived s = [] -> Server.payloadReceived s = [] ->
  outcome (Analysis.dispatch_all vs s) = Normal tt ->
  Server.on_data JSON_parse toString (Analysis.stream fs) s = Analysis.dispatch_all vs s /\
  Server.dataReceived (state (Analysis.dispatch_all vs s)) = [] /\
  Server.payloadReceived (state (Analysis.dispatch_all vs s)) = [].
Proof.
  intros Hfs Hc Hd Hq Ho.
  destruct (Order.dispatch_all_fields vs s) as (_ & G2 & G3).
  split; [apply Order.delivered; assumption|]. split; congruence.
Qed.

End InOrder.

Lemma delivered_in_order_witness :
  Server.on_data JSON.parse Buffer.toString (Analysis.stream Examples.two_frames)
    Examples.listening =
    Result (Server.set_started true Examples.listening)
      [Server.Handler VNull; Server.MessageHandler 3%nat (VString (js "hi"))] (Normal tt).
Proof.
  destruct (delivered_in_order JSON.parse Buffer.toString Examples.two_frames
              [Examples.connect_envelope; Examples.greeting_envelope] Examples.listening)
    as (H & _).
  - constructor;
      [split; [apply valid_check; vm_compute; reflexivity
              |repeat split; vm_compute; reflexivity]|].
    constructor;
      [split; [apply valid_check; vm_compute; reflexivity
              |repeat split; vm_compute; reflexivity]|].
    constructor.
  - reflexivity.
  - reflexivity.
  - reflexivity.
  - reflexivity.
  - rewrite H. reflexivity.
Defined.

(* ================================================================== *)
(** * The buffer of a closed connection *)
(* ================================================================== *)

Module Release.
Import Server Analysis Observe Framing.
Local Open Scope eff_scope.

Section Release.
Variable JSON_parse : jsstring -> option value.
Variable toString : Buffer.buffer -> jsstring.

Lemma free_closed (x : Z) (s : conn) :
  closed (state ((free x ;; ret true) s)) = closed s.
Proof.
  unfold free. rewrite bind_bind, bind_gets.
  destruct (_ =? _); rewrite bind_modify; reflexivity.
Qed.

(** A delivery that closes the connection has emptied the buffer. *)
Lemma deliver_released (opcode : Z) (s : conn) :
  closed s = false ->
  closed (state (deliver JSON_parse toString opcode s)) = true ->
  dataReceived (state (deliver JSON_parse toString opcode s)) = [].
Proof.
  intros Hc. unfold deliver. destruct (opcode =? 1).
  - rewrite bind_bind, bind_gets.
    destruct (JSON_parse _) as [v|].
    + rewrite bind_bind, bind_result.
      pose proof (dispatch_fields v s) as (H1 & _).
      destruct (outcome (dispatch v s)) as [[]| |]; cbn [outcome state prepend];
        rewrite ?bind_ret, ?bind_modify; cbn [outcome state ret]; fields; congruence.
    + rewrite bind_bind, bind_result, (close_open true s Hc). cbn [outcome state trace].
      rewrite !bind_ret. reflexivity.
  - rewrite bind_ret, bind_modify. cbn. congruence.
Qed.

Lemma take_released (h : head) (s : conn) :
  closed s = false ->
  closed (state (take JSON_parse toString h s)) = true ->
  dataReceived (state (take JSON_parse toString h s)) = [].
Proof.
  intros Hc. unfold take. rewrite !bind_gets, bind_lift.
  destruct (Buffer.concat _ _) as [p'| |]; [|cbn; congruence..].
  rewrite bind_modify. set (s1 := set_payloadReceived p' s).
  assert (Hc1 : closed s1 = false) by exact Hc.
  destruct (h_fin h).
  - rewrite (bind_result (deliver _ _ _)).
    pose proof (deliver_ends JSON_parse toString (h_opcode h) s1 Hc1) as He.
    pose proof (deliver_released (h_opcode h) s1 Hc1) as Hr. cbv zeta in He.
    destruct (deliver JSON_parse toString (h_opcode h) s1) as [s2 t2 [[]| |]];
      cbn [outcome state trace prepend] in *.
    + rewrite free_closed. destruct He as (He & _). congruence.
    + intros _. apply Hr. exact He.
    + destruct He as (He & _). congruence.
    + destruct He as (He & _). congruence.
  - rewrite bind_ret, free_closed. congruence.
Qed.

Lemma frame_released (s : conn) :
  closed s = false ->
  closed (state (frame JSON_parse toString s)) = true ->
  dataReceived (state (frame JSON_parse toString s)) = [].
Proof.
  intros Hc. rewrite frame_scan.
  destruct (scan (dataReceived s)) as [| |h].
  - cbn. congruence.
  - rewrite bind_result, (close_open true s Hc). cbn. reflexivity.
  - unfold body. rewrite bind_result.
    destruct (decrypt_state h s) as (d1 & Hst & _).
    destruct (decrypt h s) as [s1 t1 [[]| |]]; cbn [outcome state trace prepend] in *;
      subst s1; try (cbn; congruence).
    apply take_released. exact Hc.
Qed.

Lemma frames_released (n : nat) : forall s : conn,
  closed s = false ->
  closed (state (frames JSON_parse toString n s)) = true ->
  dataReceived (state (frames JSON_parse toString n s)) = [].
Proof.
  induction n as [|n IH]; intros s Hc; [cbn; congruence|].
  rewrite frames_step. cbv zeta.
  pose proof (frame_open JSON_parse toString s Hc) as Ho.
  pose proof (frame_released s Hc) as Hr.
  destruct (outcome (frame JSON_parse toString s)) as [[]| |];
    cbn [state prepend]; try exact Hr.
  apply IH. apply Ho. reflexivity.
Qed.

(** The buffer of incoming bytes is empty on every closed connection:
    every step keeps it so. *)
Lemma step_released (o : op) (s : conn) :
  (closed s = true -> dataReceived s = []) ->
  closed (state (step JSON_parse toString o s)) = true ->
  dataReceived (state (step JSON_parse toString o s)) = [].
Proof.
  intros HJ. destruct (closed s) eqn:Hc.
  - destruct o; cbn [step].
    + rewrite on_data_closed by exact Hc. intros _. exact (HJ eq_refl).
    + unfold on_close. rewrite close_closed by exact Hc. intros _. exact (HJ eq_refl).
    + destruct (Closing.server_send_closed type message s Hc) as [e ->].
      intros _. exact (HJ eq_refl).
    + unfold receive. destruct type; try (intros _; exact (HJ eq_refl)).
      destruct handler; intros _; exact (HJ eq_refl).
    + unfold close_. destruct handler; try (intros _; exact (HJ eq_refl)).
      rewrite close_closed by exact Hc. intros _. exact (HJ eq_refl).
  - destruct o; cbn [step].
    + rewrite on_data_open by exact Hc. apply frames_released. exact Hc.
    + unfold on_close. rewrite close_open by exact Hc. reflexivity.
    + unfold send. destruct (negb _); [cbn; congruence|].
      destruct (negb _); [cbn; congruence|].
      rewrite bind_gets, Hc, sendMessage_state. congruence.
    + unfold receive. destruct type; try (cbn; congruence).
      destruct handler; cbn; congruence.
    + unfold close_. destruct handler; try (cbn; congruence).
      rewrite close_open by exact Hc. reflexivity.
Qed.

Lemma run_released (ops : list op) : forall s : conn,
  (closed s = true -> dataReceived s = []) ->
  closed (snd (run JSON_parse toString ops s)) = true ->
  dataReceived (snd (run JSON_parse toString ops s)) = [].
Proof.
  induction ops as [|o ops IH]; intros s HJ; cbn [run]; [exact HJ|].
  specialize (IH (state (step JSON_parse toString o s)) (step_released o s HJ)).
  destruct (run JSON_parse toString ops _) as [t s']. exact IH.
Qed.

End Release.
End Release.

Section Released.
Variable JSON_parse : jsstring -> option value.
Variable toString : Buffer.buffer -> jsstring.

(** X23: a closed connection of the server holds no received bytes.
    Whatever has happened to a connection since its handshake, if it is
    closed then its buffer of incoming bytes is empty: every path that
    closes it empties the buffer, and nothing fills it again. *)
Theorem closed_buffer_empty (ops : list Server.op) :
  Server.closed (snd (Server.run JSON_parse toString ops Server.init)) = true ->
  Server.dataReceived (snd (Server.run JSON_parse toString ops Server.init)) = [].
Proof.
  apply Release.run_released. intros H. discriminate H.
Qed.

End Released.

Lemma closed_buffer_empty_witness :
  let ops := [Server.Data (firstn 20 (Wire.encode Examples.connect_frame));
              Server.SocketClosed] in
  Server.dataReceived (snd (Server.run JSON.parse Buffer.toString ops Server.init)) = [].
Proof.
  apply (closed_buffer_empty JSON.parse Buffer.toString). vm_compute. reflexivity.
Defined.

(* ================================================================== *)
(** * A frame in two parts *)
(* ================================================================== *)

Module Parts.
Import Server Analysis Observe Framing.

(** The header checks find every strict prefix of a frame incomplete. *)
Lemma scan_prefix (f : Wire.frame) (n : nat) :
  Wire.valid (2 ^ 32) f -> Wire.opcode f <> 8 ->
  (n < List.length (Wire.encode f))%nat ->
  scan (firstn n (Wire.encode f)) = Incomplete.
Proof.
  intros Hv H8 Hn.
  pose proof (scan_encode f [] Hv H8) as Hfull. rewrite app_nil_r in Hfull.
  pose proof (firstn_skipn n (Wire.encode f)) as Hsplit.
  destruct (scan (firstn n (Wire.encode f))) as [| |h] eqn:Hs; [reflexivity| |].
  - apply (scan_close_app _ (skipn n (Wire.encode f))) in Hs.
    rewrite Hsplit in Hs. congruence.
  - pose proof (scan_ready _ _ Hs) as (_ & Hlen).
    apply (scan_ready_app _ (skipn n (Wire.encode f))) in Hs.
    rewrite Hsplit in Hs. assert (h = head_of f) by congruence. subst h.
    pose proof (encode_length f Hv) as He.
    unfold head_of in Hlen. cbn [h_start h_length] in Hlen.
    unfold Buffer.length in *. rewrite length_firstn in Hlen. lia.
Qed.

End Parts.

Section TwoParts.
Variable JSON_parse : jsstring -> option value.
Variable toString : Buffer.buffer -> jsstring.

(** X24: a frame that arrives in two parts, cut anywhere before its
    last byte.  At the first part the listener only keeps the bytes:
    nothing is parsed, called or written.  At the second part it does
    what it does when the whole frame arrives at once, whatever that
    is. *)
Theorem partial_frame_waits (f : Wire.frame) (n : nat) (s : Server.conn) :
  Wire.valid (2 ^ 32) f -> Wire.opcode f <> 8 ->
  Server.closed s = false -> Server.dataReceived s = [] ->
  (n < List.length (Wire.encode f))%nat ->
  let first := Server.on_data JSON_parse toString (firstn n (Wire.encode f)) s in
  first = Result (Server.set_dataReceived (firstn n (Wire.encode f)) s) [] (Normal tt) /\
  Server.on_data JSON_parse toString (skipn n (Wire.encode f)) (state first) =
    Server.on_data JSON_parse toString (Wire.encode f) s.
Proof.
  intros Hv H8 Hc Hd Hn. cbv zeta.
  assert (H1 : Server.on_data JSON_parse toString (firstn n (Wire.encode f)) s =
               Result (Server.set_dataReceived (firstn n (Wire.encode f)) s) []
                 (Normal tt)).
  { rewrite Framing.on_data_open by exact Hc.
    rewrite Framing.loop_wait.
    - unfold Analysis.more. rewrite Hd. reflexivity.
    - exact Hc.
    - unfold Analysis.more. cbn. rewrite Hd. apply Parts.scan_prefix; assumption. }
  rewrite H1. split; [reflexivity|]. cbn [state].
  rewrite !Framing.on_data_open by exact Hc.
  unfold Analysis.more. cbn. rewrite Hd. cbn [app].
  rewrite firstn_skipn. reflexivity.
Qed.

End TwoParts.

Lemma partial_frame_waits_witness :
  let bytes := Wire.encode Examples.greeting_frame in
  let first := Server.on_data JSON.parse Buffer.toString (firstn 7 bytes) Examples.listening in
  trace first = [] /\
  Server.on_data JSON.parse Buffer.toString (skipn 7 bytes) (state first) =
    Result Examples.listening [Server.MessageHandler 3%nat (VString (js "hi"))] (Normal tt).
Proof.
  cbv zeta.
  destruct (partial_frame_waits JSON.parse Buffer.toString Examples.greeting_frame 7
              Examples.listening) as [H1 H2].
  - apply valid_check. vm_compute. reflexivity.
  - discriminate.
  - reflexivity.
  - reflexivity.
  - apply Nat.ltb_lt. vm_compute. reflexivity.
  - rewrite H2, H1. split; [reflexivity|]. vm_compute. reflexivity.
Defined.

(* ================================================================== *)
(** * Message types that name inherited properties *)
(* ================================================================== *)

Section Inherited.
Variable JSON_parse : jsstring -> option value.

(** X27: a message type that names something the object of the
    handlers inherits and that cannot be called with the message.  When
    no function is registered for it, a [message] envelope of type
    [__proto__], [__defineGetter__] or [__defineSetter__] finds a value
    that is not [undefined], and calling it throws a TypeError, on the
    server and on the client: no handler is called and the state is as
    it was. *)
Theorem inherited_name_throws (props : list (jsstring * value)) (k : jsstring)
    (data : jsstring) (s : Server.conn) (c : Client.session) :
  lookup_prop (js "type") props = VString (js "message") ->
  lookup_prop (js "messageType") props = VString k ->
  k = js "__proto__" \/ k = js "__defineGetter__" \/ k = js "__defineSetter__" ->
  Server.messageHandlers s !! k = None ->
  Client.messageHandlers c !! k = None ->
  JSON_parse data = Some (VObject props) ->
  Server.dispatch (VObject props) s = Result s [] (Throw TypeError) /\
  Client.step JSON_parse (Client.Message data) c = Result c [] (Throw TypeError).
Proof.
  intros Hty Hmt Hk Hs Hc Hd.
  assert (Hcall : forall o : gmap jsstring fn, o !! k = None ->
            exists b, lookup_member o k = Inherited b /\
                      forall a, call_member o (Inherited b) a = Throw TypeError).
  { intros o Ho. unfold lookup_member. rewrite Ho.
    exists Rejects. split; [|reflexivity].
    destruct Hk as [-> | [-> | ->]].
    - rewrite Ho. reflexivity.
    - destruct (o !! js "__proto__"); reflexivity.
    - destruct (o !! js "__proto__"); reflexivity. }
  split.
  - destruct (Hcall _ Hs) as (b & Hl & Hb).
    unfold Server.dispatch. cbn [get]. rewrite bind_lift, Hty.
    change (strict_eq_string (VString (js "message")) (js "connect")) with false.
    change (strict_eq_string (VString (js "message")) (js "reconnect")) with false.
    change (strict_eq_string (VString (js "message")) (js "message")) with true.
    cbv iota. rewrite bind_lift, Hmt, bind_gets.
    change (ToPropertyKey (VString k)) with (Normal (ToString (VString k))).
    change (ToString (VString k)) with k. rewrite bind_lift, Hl, !bind_lift, Hb.
    reflexivity.
  - destruct (Hcall _ Hc) as (b & Hl & Hb).
    cbn [Client.step]. unfold Client.onSocketMessage. rewrite Hd. cbn [get].
    rewrite bind_lift, Hty.
    change (strict_eq_string (VString (js "message")) (js "message")) with true. cbv iota.
    rewrite bind_lift, Hmt, bind_gets.
    change (ToPropertyKey (VString k)) with (Normal (ToString (VString k))).
    change (ToString (VString k)) with k. rewrite bind_lift, Hl, !bind_lift, Hb.
    reflexivity.
Qed.

End Inherited.

Lemma inherited_name_throws_witness :
  Server.dispatch Examples.inherited_envelope Examples.listening =
    Result Examples.listening [] (Throw TypeError) /\
  Client.step JSON.parse (Client.Message (Observe.wire_text Examples.inherited_envelope))
    Examples.open_session = Result Examples.open_session [] (Throw TypeError) /\
  let r := Server.on_data JSON.parse Buffer.toString
             (Wire.encode Examples.inherited_frame ++ Wire.encode Examples.greeting_frame)
             Examples.listening in
  outcome r = Throw TypeError /\ trace r = [] /\
  List.length (Server.dataReceived (state r)) =
    List.length (Wire.encode Examples.inherited_frame ++ Wire.encode Examples.greeting_frame).
Proof.
  destruct (inherited_name_throws JSON.parse
              [(js "type", VString (js "message"));
               (js "messageType", VString (js "__proto__"));
               (js "message", VString (js "hi"))]
              (js "__proto__") (Observe.wire_text Examples.inherited_envelope)
              Examples.listening Examples.open_session) as [H1 H2].
  - reflexivity.
  - reflexivity.
  - left. reflexivity.
  - vm_compute. reflexivity.
  - vm_compute. reflexivity.
  - vm_compute. reflexivity.
  - split; [exact H1|]. split; [exact H2|]. vm_compute. repeat split.
Defined.

(* ================================================================== *)
(** * What the buffer keeps between two chunks *)
(* ================================================================== *)

Module Remainder.
Import Server Analysis Observe Framing.

(** A beginning of a stream of frames is some of its frames, whole, and
    a beginning of the next one that is not the whole of it. *)
Lemma stream_prefix (fs : list Wire.frame) : forall p q : list Z,
  p ++ q = stream fs ->
  exists (done todo : list Wire.frame) (rest : list Z),
    fs = done ++ todo /\ p = stream done ++ rest /\
    match todo with
    | [] => rest = []
    | f :: _ => exists n : nat,
        (n < List.length (Wire.encode f))%nat /\ rest = firstn n (Wire.encode f)
    end.
Proof.
  induction fs as [|f fs IH]; intros p q H.
  - unfold stream in H. cbn in H. apply app_eq_nil in H as [-> _].
    exists [], [], []. repeat split.
  - unfold stream in H. cbn [map List.concat] in H. fold (stream fs) in H.
    destruct (Nat.lt_ge_cases (List.length p) (List.length (Wire.encode f))) as [Hlt|Hge].
    + exists [], (f :: fs), p. repeat split.
      exists (List.length p). split; [exact Hlt|].
      apply (f_equal (firstn (List.length p))) in H.
      rewrite firstn_app, Nat.sub_diag, firstn_all, firstn_O, app_nil_r in H.
      rewrite firstn_app in H.
      replace (List.length p - List.length (Wire.encode f))%nat with 0%nat in H by lia.
      rewrite firstn_O, app_nil_r in H. exact H.
    + assert (Hp : p = Wire.encode f ++ skipn (List.length (Wire.encode f)) p).
      { rewrite <- (firstn_skipn (List.length (Wire.encode f)) p) at 1. f_equal.
        apply (f_equal (firstn (List.length (Wire.encode f)))) in H.
        rewrite firstn_app in H.
        replace (List.length (Wire.encode f) - List.length p)%nat with 0%nat in H by lia.
        rewrite firstn_O, app_nil_r in H. rewrite H.
        rewrite firstn_app, Nat.sub_diag, firstn_all, firstn_O, app_nil_r. reflexivity. }
      destruct (IH (skipn (List.length (Wire.encode f)) p) q) as (done & todo & rest & H1 & H2 & H3).
      { rewrite Hp in H at 1. rewrite <- app_assoc in H. apply app_inv_head in H. exact H. }
      exists (f :: done), todo, rest. split; [rewrite H1; reflexivity|]. split; [|exact H3].
      unfold stream. cbn [map List.concat]. fold (stream done).
      rewrite <- app_assoc, <- H2. exact Hp.
Qed.

Section Remainder.
Variable JSON_parse : jsstring -> option value.
Variable toString : Buffer.buffer -> jsstring.

(** Whole frames leave nothing in the buffer. *)
Lemma loop_stream_empty (fs : list Wire.frame) : forall s : conn,
  Forall (Wire.valid (2 ^ 32)) fs ->
  closed s = false ->
  dataReceived s = stream fs ->
  outcome (loop JSON_parse toString s) = Normal tt ->
  closed (state (loop JSON_parse toString s)) = false ->
  dataReceived (state (loop JSON_parse toString s)) = [].
Proof.
  induction fs as [|f fs IH]; intros s Hv Hc Hd Ho.
  - rewrite (loop_wait _ _ s Hc) by (rewrite Hd; reflexivity). intros _. exact Hd.
  - apply Forall_cons_1 in Hv as (Hf & Hv).
    unfold stream in Hd. cbn [map List.concat] in Hd. fold (stream fs) in Hd.
    destruct (Z.eq_dec (Wire.opcode f) 8) as [H8|H8].
    { rewrite (loop_close _ _ s Hc), (close_open true s Hc)
        by (rewrite Hd; apply scan_encode_close; assumption).
      discriminate. }
    pose proof (scan_encode f (stream fs) Hf H8) as Hs. rewrite <- Hd in Hs.
    pose proof (scan_ready _ _ Hs) as (Hst & Hle).
    assert (Hl : 0 <= h_length (head_of f)) by (cbn; lia).
    rewrite (loop_ready JSON_parse toString s _ Hc Hs) in Ho |- *. cbv zeta in Ho |- *.
    destruct (outcome (body JSON_parse toString (head_of f) s)) as [[]| |] eqn:Hb;
      try discriminate.
    + cbn [state prepend].
      assert (Hop : closed (state (body JSON_parse toString (head_of f) s)) = false).
      { pose proof (frame_open JSON_parse toString s Hc) as F.
        rewrite frame_scan, Hs in F. exact (F Hb). }
      apply IH; try assumption.
      rewrite body_rest by (assumption || lia).
      rewrite Hd. cbn [h_start h_length head_of].
      pose proof (encode_length f Hf) as He.
      replace (Z.to_nat (Buffer.length (header f) + Z.of_nat (List.length (Wire.payload f))))
        with (List.length (Wire.encode f)) by (unfold Buffer.length in *; lia).
      rewrite skipn_app, skipn_all, Nat.sub_diag. reflexivity.
    + cbn [state]. rewrite (body_closed _ _ _ s Hc Hb). discriminate.
Qed.

(** The beginning of a frame is a frame for the header checks only if
    it closes the connection. *)
Lemma scan_beginning (f : Wire.frame) (n : nat) (h : head) :
  Wire.valid (2 ^ 32) f ->
  (n < List.length (Wire.encode f))%nat ->
  scan (firstn n (Wire.encode f)) <> Ready h.
Proof.
  intros Hv Hn Hs.
  destruct (Z.eq_dec (Wire.opcode f) 8) as [H8|H8].
  - apply (scan_ready_app _ (skipn n (Wire.encode f))) in Hs.
    rewrite firstn_skipn in Hs.
    pose proof (scan_encode_close f [] Hv H8) as Hc. rewrite app_nil_r in Hc. congruence.
  - rewrite Parts.scan_prefix in Hs by assumption. discriminate.
Qed.

End Remainder.
End Remainder.

Section Kept.
Variable JSON_parse : jsstring -> option value.
Variable toString : Buffer.buffer -> jsstring.

(** X28: what the buffer keeps between two chunks.  Of a stream of
    frames on which the listener returns normally when it is fed whole,
    feed the first chunks, cut at any offsets.  If the connection is
    open afterwards, the bytes fed so far are some of the frames, whole,
    and a beginning of the next frame that is not the whole of it; the
    listener has done what it does when it is given these whole frames
    at once, the same calls in the same order, and the buffer holds the
    beginning of the next frame, byte for byte. *)
Theorem remainder_kept (fs : list Wire.frame) (pre post : list Buffer.buffer)
    (s : Server.conn) :
  Forall (Wire.valid (2 ^ 32)) fs ->
  Server.closed s = false -> Server.dataReceived s = [] ->
  List.concat (pre ++ post) = Analysis.stream fs ->
  outcome (Server.on_data JSON_parse toString (Analysis.stream fs) s) = Normal tt ->
  let r := Server.feed JSON_parse toString pre s in
  Server.closed (state r) = false ->
  exists (done todo : list Wire.frame) (rest : Buffer.buffer),
    fs = done ++ todo /\
    List.concat pre = Analysis.stream done ++ rest /\
    match todo with
    | [] => rest = []
    | f :: _ => exists n : nat,
        (n < List.length (Wire.encode f))%nat /\ rest = firstn n (Wire.encode f)
    end /\
    let whole := Server.on_data JSON_parse toString (Analysis.stream done) s in
    r = Result (Server.set_dataReceived rest (state whole)) (trace whole) (Normal tt).
Proof.
  intros Hfs Hc Hd Hcat Ho. cbv zeta.
  destruct (Chunks.feed_stream JSON_parse toString fs pre post s) as [Hf Hreg];
    try assumption.
  rewrite Hf. clear Hf.
  rewrite List.concat_app in Hcat.
  destruct (Remainder.stream_prefix fs _ _ Hcat) as (done & todo & rest & H1 & H2 & H3).
  intros Hopen. exists done, todo, rest.
  split; [exact H1|]. split; [exact H2|]. split; [exact H3|].
  rewrite H2 in Hreg, Hopen |- *. rewrite <- Framing.more_more in Hreg, Hopen |- *.
  rewrite Framing.on_data_open by exact Hc.
  set (s0 := Analysis.more (Analysis.stream done) s) in *.
  assert (Hc0 : Server.closed s0 = false) by exact Hc.
  destruct (Framing.loop_more JSON_parse toString _ Hreg s0 rest Hc0 eq_refl)
    as (L1 & L2 & L3).
  rewrite L2 in Hopen |- *.
  destruct (Server.closed (state (Analysis.loop JSON_parse toString s0))) eqn:Hcl.
  { rewrite Hcl in Hopen. discriminate. }
  assert (Hv : Forall (Wire.valid (2 ^ 32)) done).
  { rewrite H1 in Hfs. apply Forall_app in Hfs. tauto. }
  assert (He : Server.dataReceived (state (Analysis.loop JSON_parse toString s0)) = []).
  { apply (Remainder.loop_stream_empty JSON_parse toString done); try assumption.
    unfold s0, Analysis.more. cbn. rewrite Hd. reflexivity. }
  assert (Hm : Analysis.more rest (state (Analysis.loop JSON_parse toString s0)) =
               Server.set_dataReceived rest (state (Analysis.loop JSON_parse toString s0))).
  { unfold Analysis.more. rewrite He. reflexivity. }
  rewrite Hm in Hopen |- *.
  set (s1 := Server.set_dataReceived rest (state (Analysis.loop JSON_parse toString s0))) in *.
  assert (Hc1 : Server.closed s1 = false) by exact Hcl.
  destruct (Analysis.scan rest) as [| |h] eqn:Hs.
  - rewrite (Framing.loop_wait JSON_parse toString s1 Hc1 Hs).
    unfold Observe.prepend. cbn [state trace outcome]. rewrite app_nil_r.
    destruct (Analysis.loop JSON_parse toString s0) as [s2 t2 o2].
    cbn [outcome state trace] in *. reflexivity.
  - rewrite (Framing.loop_close JSON_parse toString s1 Hc1 Hs),
      (Framing.close_open true s1 Hc1) in Hopen.
    discriminate Hopen.
  - exfalso. destruct todo as [|f todo].
    + subst rest. discriminate Hs.
    + destruct H3 as (n & Hn & ->).
      apply (Remainder.scan_beginning f n h); try assumption.
      rewrite H1 in Hfs. apply Forall_app in Hfs as [_ Hfs].
      apply Forall_cons_1 in Hfs. tauto.
Qed.

End Kept.

Lemma remainder_kept_witness :
  let r := Server.feed JSON.parse Buffer.toString (firstn 3 Examples.three_chunks)
             Examples.listening in
  exists (done todo : list Wire.frame) (rest : Buffer.buffer),
    Examples.two_frames = done ++ todo /\
    List.concat (firstn 3 Examples.three_chunks) = Analysis.stream done ++ rest /\
    match todo with
    | [] => rest = []
    | f :: _ => exists n : nat,
        (n < List.length (Wire.encode f))%nat /\ rest = firstn n (Wire.encode f)
    end /\
    let whole := Server.on_data JSON.parse Buffer.toString (Analysis.stream done)
                   Examples.listening in
    r = Result (Server.set_dataReceived rest (state whole)) (trace whole) (Normal tt).
Proof.
  apply (remainder_kept JSON.parse Buffer.toString Examples.two_frames
           (firstn 3 Examples.three_chunks) (skipn 3 Examples.three_chunks)
           Examples.listening).
  - apply valid_all. vm_compute. reflexivity.
  - reflexivity.
  - reflexivity.
  - rewrite firstn_skipn. vm_compute. reflexivity.
  - vm_compute. reflexivity.
  - vm_compute. reflexivity.
Defined.

(* ================================================================== *)
(** * What an exception leaves behind *)
(* ================================================================== *)

Module Thrown.
Import Server Analysis Observe Framing.

Section Thrown.
Variable JSON_parse : jsstring -> option value.
Variable toString : Buffer.buffer -> jsstring.
Local Open Scope eff_scope.

Lemma on_data_throws (f : Wire.frame) (rest : list Z) (s : conn) (v : value) (e : exn) :
  Wire.valid (2 ^ 32) f -> Wire.fin f = true -> Wire.opcode f = 1 ->
  closed s = false -> dataReceived s = [] ->
  JSON_parse (toString (payloadReceived s ++ Wire.payload f)) = Some v ->
  outcome (dispatch v s) = Throw e ->
  on_data JSON_parse toString (Wire.encode f ++ rest) s =
    Result (set_dataReceived (header f ++ Wire.payload f ++ rest)
              (set_payloadReceived (payloadReceived s ++ Wire.payload f)
                 (state (dispatch v s))))
           (trace (dispatch v s)) (Throw e).
Proof.
  intros Hv Hfin Hop Hc Hd Hp Ho.
  rewrite ServerProps.on_data_frame by (assumption || lia). cbv zeta.
  unfold accept. rewrite !bind_modify, Hfin, Hop. fields.
  unfold deliver. change (1 =? 1) with true. cbv iota.
  rewrite !bind_bind, bind_gets. fields. rewrite Hp.
  rewrite !bind_bind, (bind_result (dispatch v)).
  change (set_payloadReceived (payloadReceived s ++ Wire.payload f)
            (set_dataReceived (header f ++ Wire.payload f ++ rest)
               (more (Wire.encode f ++ rest) s)))
    with (set_dataReceived (header f ++ Wire.payload f ++ rest)
            (set_payloadReceived (payloadReceived s ++ Wire.payload f) s)).
  rewrite ServerProps.dispatch_buffers.
  destruct (dispatch v s) as [s1 t1 o1]; cbn [outcome state trace mapstate] in *.
  subst o1. reflexivity.
Qed.

End Thrown.
End Thrown.

Section Left.
Variable JSON_parse : jsstring -> option value.
Variable toString : Buffer.buffer -> jsstring.

(** X29: what an exception leaves behind.  When the dispatch of the
    message of a text frame throws (reading [type] off [null], calling
    what is no function), the listener is left where it was: the
    exception goes to the caller, the whole frame is still in the
    buffer with the bytes that follow it, its payload decrypted where
    it lies under a header that still says it is masked, and the
    payload is still in [payloadReceived]; the connection is open.  In
    particular a payload that is the JSON text [null] throws a
    TypeError. *)
Theorem thrown_frame_stays (f : Wire.frame) (rest : list Z) (s : Server.conn)
    (v : value) (e : exn) :
  Wire.valid (2 ^ 32) f -> Wire.fin f = true -> Wire.opcode f = 1 ->
  Server.closed s = false -> Server.dataReceived s = [] ->
  JSON_parse (toString (Server.payloadReceived s ++ Wire.payload f)) = Some v ->
  outcome (Server.dispatch v s) = Throw e ->
  let r := Server.on_data JSON_parse toString (Wire.encode f ++ rest) s in
  r = Result (Server.set_dataReceived (Analysis.header f ++ Wire.payload f ++ rest)
                (Server.set_payloadReceived (Server.payloadReceived s ++ Wire.payload f)
                   (state (Server.dispatch v s))))
             (trace (Server.dispatch v s)) (Throw e) /\
  Server.closed (state r) = false /\
  Server.dispatch VNull s = Result s [] (Throw TypeError).
Proof.
  intros Hv Hfin Hop Hc Hd Hp Ho. cbv zeta.
  rewrite (Thrown.on_data_throws JSON_parse toString f rest s v e) by assumption.
  split; [reflexivity|]. split; [|reflexivity].
  cbn [state]. pose proof (Framing.dispatch_fields v s) as (F1 & _).
  destruct (Server.dispatch v s) as [s1 t1 o1]. cbn [state] in *.
  destruct s1; cbn in *. exact (eq_trans F1 Hc).
Qed.

End Left.

Lemma thrown_frame_stays_witness :
  Server.on_data JSON.parse Buffer.toString
    (Wire.encode Examples.null_frame ++ Wire.encode Examples.connect_frame)
    Examples.listening =
    Result (Server.set_dataReceived
              ([129; 132; 1; 2; 3; 4; 110; 117; 108; 108] ++
               Wire.encode Examples.connect_frame)
              (Server.set_payloadReceived [110; 117; 108; 108] Examples.listening))
      [] (Throw TypeError).
Proof.
  destruct (thrown_frame_stays JSON.parse Buffer.toString Examples.null_frame
              (Wire.encode Examples.connect_frame) Examples.listening VNull TypeError)
    as (H & _).
  - apply valid_check. vm_compute. reflexivity.
  - reflexivity.
  - reflexivity.
  - reflexivity.
  - reflexivity.
  - vm_compute. reflexivity.
  - reflexivity.
  - rewrite H. reflexivity.
Defined.
